(** * multicalcli: a shallow embedding of the aggregation engine

    The development follows the Python sources module by module:
    [models.py] (Calendar, Event and the derived properties), [config.py]
    (account-name validation and the account directory), [auth.py]
    (credential lookup), [api.py] (the per-account fetcher and the
    aggregate fetch [get_all_events]) and [display.py] (account colours and
    the week grid).

    Python exceptions are values of [exn]; a call that may raise returns a
    [result].  Code that reads or writes module-level state ([_service_cache],
    [_color_map]) or the wall clock runs in the state-and-exception monad [M].
    Everything the program obtains from outside (file system, remote
    calendar service, third-party parsers, thread scheduling) is a field of
    the record [Env]. *)

From Stdlib Require Import ZArith Ascii String List Sorted Permutation Lia SpecFloat.
From stdpp Require Import base option list strings gmap fin_maps.

Local Open Scope string_scope.
Local Open Scope list_scope.
Local Open Scope Z_scope.

(** ** Exceptions and results *)

Inductive exn : Type :=
| ValueError (msg : string)
| KeyError (key : string)
| TypeError (msg : string)
| OverflowError (msg : string)
| RemoteError (msg : string).

(** [str(e)] as used by the f-string of the synthetic error event.  A
    [KeyError] prints the [repr] of its key. *)
Definition str_exn (e : exn) : string :=
  match e with
  | ValueError m => m
  | KeyError k => "'" +:+ k +:+ "'"
  | TypeError m => m
  | OverflowError m => m
  | RemoteError m => m
  end.

Inductive result (A : Type) : Type :=
| Ok (a : A)
| Raise (e : exn).
Arguments Ok {A} a.
Arguments Raise {A} e.

#[global] Instance result_ret : MRet result := λ A a, Ok a.
#[global] Instance result_bind : MBind result := λ A B k r,
  match r with
  | Ok a => k a
  | Raise e => Raise e
  end.

(** ** Strings *)

Definition is_upper (c : ascii) : bool :=
  let n := nat_of_ascii c in (65 <=? n)%nat && (n <=? 90)%nat.

Definition lower_ascii (c : ascii) : ascii :=
  if is_upper c then ascii_of_nat (nat_of_ascii c + 32) else c.

(** [str.lower()] on ASCII text: the letters [A-Z] become [a-z].  Bytes
    of other characters are left as they are, where [str.lower()] follows
    the case tables of Unicode; [is_ascii] marks the strings on which the
    two agree. *)
Fixpoint lower (s : string) : string :=
  match s with
  | EmptyString => EmptyString
  | String c s' => String (lower_ascii c) (lower s')
  end.

Definition is_ascii (s : string) : bool :=
  forallb (λ c, (nat_of_ascii c <? 128)%nat) (list_ascii_of_string s).

(** [needle in hay] on strings: a scan over the start positions. *)
Fixpoint str_contains (needle hay : string) : bool :=
  String.prefix needle hay ||
  match hay with
  | EmptyString => false
  | String _ hay' => str_contains needle hay'
  end.

(** [s.startswith(p)]. *)
Definition startswith (s p : string) : bool := String.prefix p s.

(** A byte that continues a character of a UTF-8 string. *)
Definition is_continuation (c : ascii) : bool :=
  let n := nat_of_ascii c in (128 <=? n)%nat && (n <? 192)%nat.

(** [s[:n]], the first [n] characters.  Strings are kept in UTF-8: a
    character is a lead byte with the continuation bytes that follow it. *)
Fixpoint str_take (n : nat) (s : string) : string :=
  match s with
  | EmptyString => EmptyString
  | String c s' =>
      if is_continuation c then String c (str_take n s')
      else
        match n with
        | O => EmptyString
        | S n' => String c (str_take n' s')
        end
  end.

Definition digit_char (d : Z) : ascii := ascii_of_nat (48 + Z.to_nat (d mod 10)).

(** [f"{n:02d}"] for [0 <= n < 100], as produced by [%m], [%d], [%H], [%M]. *)
Definition two_digits (n : Z) : string :=
  String (digit_char (n / 10)) (String (digit_char n) EmptyString).

(** ** The [datetime] module

    A [date] is its proleptic Gregorian ordinal ([date.toordinal()]).  A
    [datetime] is the microsecond count of its wall-clock reading since
    midnight of ordinal 0, with an optional [tzinfo]; a [tzinfo] is its UTC
    offset in microseconds.  Range checks against [MINYEAR]/[MAXYEAR] are
    not modelled. *)

Definition date := Z.
Definition timedelta := Z.
Definition tzinfo := Z.

Record datetime : Type := mk_dt {
  dt_wall : Z;
  dt_tzinfo : option tzinfo
}.

Definition us_per_second : Z := 1000000.
Definition us_per_minute : Z := 60 * us_per_second.
Definition us_per_hour : Z := 60 * us_per_minute.
Definition us_per_day : Z := 24 * us_per_hour.

Definition timedelta_days (d : Z) : timedelta := d * us_per_day.

Definition timezone_utc : tzinfo := 0.

(** [tz.gettz("Asia/Seoul")]: the zone rule is data of the tz database.
    The model takes the offset the zone has had since its last transition,
    UTC+09:00; [seoul_last_transition] is the instant of that transition
    (1988-10-08T17:00:00Z, the end of the last summer time), and the first
    date whose local midnight comes after it is 1988-10-10.  Earlier
    readings had other offsets, which the model does not keep. *)
Definition KST : tzinfo := 9 * us_per_hour.

Definition is_leap (y : Z) : bool :=
  (y mod 4 =? 0) && (negb (y mod 100 =? 0) || (y mod 400 =? 0)).

Definition days_before_year (y : Z) : Z :=
  let y1 := y - 1 in y1 * 365 + y1 / 4 - y1 / 100 + y1 / 400.

Definition days_in_month (y m : Z) : Z :=
  if m =? 2 then (if is_leap y then 29 else 28)
  else if (m =? 4) || (m =? 6) || (m =? 9) || (m =? 11) then 30
  else 31.

Definition DAYS_BEFORE_MONTH (m : Z) : Z :=
  nth (Z.to_nat m) [0; 0; 31; 59; 90; 120; 151; 181; 212; 243; 273; 304; 334] 0.

Definition days_before_month (y m : Z) : Z :=
  DAYS_BEFORE_MONTH m + (if (2 <? m) && is_leap y then 1 else 0).

Definition ymd2ord (y m d : Z) : date :=
  days_before_year y + days_before_month y m + d.

Definition DI400Y : Z := 146097.
Definition DI100Y : Z := 36524.
Definition DI4Y : Z := 1461.

(** [_ord2ymd] of the [datetime] module. *)
Definition ord2ymd (n : date) : Z * Z * Z :=
  let n := n - 1 in
  let n400 := n / DI400Y in let n := n mod DI400Y in
  let year := n400 * 400 + 1 in
  let n100 := n / DI100Y in let n := n mod DI100Y in
  let n4 := n / DI4Y in let n := n mod DI4Y in
  let n1 := n / 365 in let n := n mod 365 in
  let year := year + n100 * 100 + n4 * 4 + n1 in
  if (n1 =? 4) || (n100 =? 4) then (year - 1, 12, 31)
  else
    let leapyear := (n1 =? 3) && (negb (n4 =? 24) || (n100 =? 3)) in
    let month := Z.shiftr (n + 50) 5 in
    let preceding :=
      DAYS_BEFORE_MONTH month + (if (2 <? month) && leapyear then 1 else 0) in
    if n <? preceding then
      let month := month - 1 in
      let preceding :=
        preceding - (nth (Z.to_nat month)
                       [0; 31; 28; 31; 30; 31; 30; 31; 31; 30; 31; 30; 31] 0
                     + (if (month =? 2) && leapyear then 1 else 0)) in
      (year, month, n - preceding + 1)
    else (year, month, n - preceding + 1).

(** [datetime(y, m, d, H, M, S, us, tzinfo=tz)]. *)
Definition datetime_of (y m d hh mm ss us : Z) (tz : option tzinfo) : datetime :=
  mk_dt (ymd2ord y m d * us_per_day + hh * us_per_hour + mm * us_per_minute
         + ss * us_per_second + us) tz.

(** [dt.date()]: the calendar date of the wall-clock reading. *)
Definition dt_date (dt : datetime) : date := dt_wall dt / us_per_day.

(** [dt.replace(tzinfo=tz)]. *)
Definition replace_tzinfo (dt : datetime) (tz : tzinfo) : datetime :=
  mk_dt (dt_wall dt) (Some tz).

(** The instant of an aware datetime, in microseconds of UTC. *)
Definition utc_instant (dt : datetime) : Z :=
  dt_wall dt - default 0 (dt_tzinfo dt).

Definition is_aware (dt : datetime) : bool :=
  match dt_tzinfo dt with Some _ => true | None => false end.

(** The wall-clock readings of [datetime]: the years 1 to 9999. *)
Definition MAXORDINAL : Z := 3652059.

Definition in_datetime_range (wall : Z) : bool :=
  (us_per_day <=? wall) && (wall <? (MAXORDINAL + 1) * us_per_day).

(** [dt.astimezone(tz)] on an aware datetime: the reading is first taken to
    UTC ([self - offset]) and then to the zone ([tz.fromutc]); either step
    raises [OverflowError] when it leaves the years 1 to 9999. *)
Definition astimezone (dt : datetime) (tz : tzinfo) : result datetime :=
  let utc := utc_instant dt in
  if in_datetime_range utc && in_datetime_range (utc + tz)
  then Ok (mk_dt (utc + tz) (Some tz))
  else Raise (OverflowError "date value out of range").

(** The instant of the last transition of the target zone, and the first
    date whose local midnight comes after it. *)
Definition seoul_last_transition : Z :=
  utc_instant (datetime_of 1988 10 8 17 0 0 0 (Some timezone_utc)).

Definition seoul_first_date : date := ymd2ord 1988 10 10.

(** [dt + delta]. *)
Definition dt_add (dt : datetime) (delta : timedelta) : datetime :=
  mk_dt (dt_wall dt + delta) (dt_tzinfo dt).

(** [b - a] on datetimes: both naive, or both aware; a mix raises. *)
Definition dt_sub (b a : datetime) : result timedelta :=
  match dt_tzinfo b, dt_tzinfo a with
  | None, None => Ok (dt_wall b - dt_wall a)
  | Some _, Some _ => Ok (utc_instant b - utc_instant a)
  | _, _ => Raise (TypeError "can't subtract offset-naive and offset-aware datetimes")
  end.

(** [date.weekday()], Monday is 0. *)
Definition weekday (d : date) : Z := (d + 6) mod 7.

Definition day_abbr (wd : Z) : string :=
  nth (Z.to_nat wd) ["Mon"; "Tue"; "Wed"; "Thu"; "Fri"; "Sat"; "Sun"] "".

(** [day.strftime("%a %m/%d")]. *)
Definition strftime_a_md (d : date) : string :=
  let '(_, m, dd) := ord2ymd d in
  day_abbr (weekday d) +:+ " " +:+ two_digits m +:+ "/" +:+ two_digits dd.

(** [dt.strftime("%H:%M")]. *)
Definition strftime_HM (dt : datetime) : string :=
  let tod := dt_wall dt mod us_per_day in
  two_digits (tod / us_per_hour) +:+ ":" +:+ two_digits (tod mod us_per_hour / us_per_minute).

(** ** models.py *)

Record Calendar : Type := mk_Calendar {
  cal_id : string;
  cal_summary : string;
  cal_access_role : string;
  cal_account_name : string;
  cal_time_zone : string;
  cal_color_id : string
}.

Record Event : Type := mk_Event {
  ev_id : string;
  ev_summary : string;
  ev_start : datetime;
  ev_end : datetime;
  ev_account_name : string;
  ev_calendar_id : string;
  ev_calendar_name : string;
  ev_location : string;
  ev_description : string;
  ev_all_day : bool;
  ev_html_link : string;
  ev_hangout_link : string;
  ev_attendees : list string;
  ev_color_id : string;
  ev_status : string
}.

(** *** Doubles

    The quotients of [duration_minutes] are taken in binary64.  A positive
    double in the normal range is [m * 2^e] with [2^52 <= m <= 2^53]; it is
    kept here as the fraction it stands for.  (The quotients of a
    [timedelta] never leave the normal range.) *)

(** The integer nearest to [n/d], the even one of two that are equally
    near; [0 < d]. *)
Definition round_half_even (n d : Z) : Z :=
  let q := n / d in
  let r := n mod d in
  if 2 * r <? d then q
  else if d <? 2 * r then q + 1
  else if Z.even q then q else q + 1.

(** The exponent [e] with [2^52 <= (n/d) / 2^e < 2^53], for [0 < n] and
    [0 < d]. *)
Definition binary64_exponent (n d : Z) : Z :=
  let e := Z.log2 n - Z.log2 d - 52 in
  if 2 ^ 52 * (d * 2 ^ Z.max 0 e) <=? n * 2 ^ Z.max 0 (- e) then e else e - 1.

(** The double nearest to [n/d] (round to nearest, ties to even), for
    [0 <= n] and [0 < d], as a fraction (numerator, denominator). *)
Definition binary64_of_fraction (n d : Z) : Z * Z :=
  if n =? 0 then (0, 1)
  else
    let e := binary64_exponent n d in
    let m := round_half_even (n * 2 ^ Z.max 0 (- e)) (d * 2 ^ Z.max 0 e) in
    (m * 2 ^ Z.max 0 e, 2 ^ Z.max 0 (- e)).

(** [int(td.total_seconds() / 60)] for a [timedelta] of [us >= 0]
    microseconds: [total_seconds()] is the double nearest to [us / 10**6],
    [/ 60] gives the double nearest to its quotient by 60, and [int] cuts
    the fraction off. *)
Definition total_minutes (us : Z) : Z :=
  let '(a1, b1) := binary64_of_fraction us (10 ^ 6) in
  let '(a2, b2) := binary64_of_fraction a1 (60 * b1) in
  a2 / b2.

(** [Event.duration_minutes]: [int((end - start).total_seconds() / 60)].
    Rounding is symmetric and [int] truncates toward zero, so a negative
    duration gives the opposite of what its absolute value gives. *)
Definition duration_minutes (e : Event) : result Z :=
  delta ← dt_sub (ev_end e) (ev_start e);
  Ok (if 0 <=? delta then total_minutes delta else - total_minutes (- delta)).

(** [Event.is_multiday]: [start.date() != end.date()]. *)
Definition is_multiday (e : Event) : bool :=
  negb (dt_date (ev_start e) =? dt_date (ev_end e)).

(** *** The same computation with the operations of [SpecFloat]

    [SFdiv] is the division of the Standard Library's specification of
    IEEE 754; [duration_minutes_b64] runs the source's two divisions with
    it, as a check of [total_minutes] on examples. *)
Module B64.
Definition prec : Z := 53.
Definition emax : Z := 1024.

Definition of_Z (n : Z) : spec_float :=
  match n with
  | Z0 => S754_zero false
  | Zpos p => S754_finite false p 0
  | Zneg p => S754_finite true p 0
  end.

Definition div (x y : spec_float) : spec_float := SFdiv prec emax x y.

(** [int(x)] on a finite double. *)
Definition trunc (x : spec_float) : Z :=
  match x with
  | S754_finite s m e =>
      let a := if 0 <=? e then Z.pos m * 2 ^ e else Z.pos m / 2 ^ (- e) in
      if s then - a else a
  | _ => 0
  end.
End B64.

Definition duration_minutes_b64 (e : Event) : result Z :=
  delta ← dt_sub (ev_end e) (ev_start e);
  let total_seconds := B64.div (B64.of_Z delta) (B64.of_Z (10 ^ 6)) in
  Ok (B64.trunc (B64.div total_seconds (B64.of_Z 60))).

(** ** The environment

    [Credentials] stands for the OAuth credential object.  A [Paged A] is
    what the remote service answers to a paginated request: a last page of
    items; or a page that carries a [nextPageToken], with the answer to the
    follow-up request for that token; or an error raised by [execute()]. *)

Definition Credentials := string.

Inductive Paged (A : Type) : Type :=
| LastPage (items : list A)
| MorePage (items : list A) (nextPageToken : string) (rest : Paged A)
| PageError (e : exn).
Arguments LastPage {A} items.
Arguments MorePage {A} items nextPageToken rest.
Arguments PageError {A} e.

(** An entry of [calendarList] (or of [calendars]) as the service sends it. *)
Record CalendarItem : Type := mk_CalendarItem {
  ci_id : option string;
  ci_summaryOverride : option string;
  ci_summary : option string;
  ci_accessRole : option string;
  ci_timeZone : option string;
  ci_colorId : option string
}.

(** A [start] or [end] object of an event resource. *)
Record TimeObj : Type := mk_TimeObj {
  to_date : option string;
  to_dateTime : option string
}.

Record EventItem : Type := mk_EventItem {
  ei_id : option string;
  ei_summary : option string;
  ei_start : option TimeObj;
  ei_end : option TimeObj;
  ei_attendees : option (list (option string));
  ei_location : option string;
  ei_description : option string;
  ei_htmlLink : option string;
  ei_hangoutLink : option string;
  ei_colorId : option string;
  ei_status : option string
}.

(** The Calendar API resource returned by [build("calendar", "v3", ...)]. *)
Record Service : Type := mk_Service {
  svc_calendarList_list : Paged CalendarItem;
  svc_calendarList_get : string → result CalendarItem;
  svc_calendars_get : string → result CalendarItem;
  (** [events().list(calendarId, timeMin, timeMax, singleEvents=True,
      orderBy="startTime", q)] *)
  svc_events_list : string → datetime → datetime → option string → Paged EventItem
}.

Record Env : Type := mk_Env {
  (** [CONFIG_DIR], from [MCLI_CONFIG_DIR] or the home directory *)
  env_config_dir : string;
  (** [Path.resolve()] on this file system *)
  env_resolve : string → string;
  (** the account names [config.list_account_names()] finds on disk *)
  env_list_account_names : list string;
  (** the token file at a path: [None] when it does not exist, otherwise
      the outcome of reading, decoding and refreshing it *)
  env_read_token : string → option (result Credentials);
  env_build : Credentials → result Service;
  (** [dateutil.parser.parse] *)
  env_dateutil_parse : string → result datetime;
  (** the wall clock: the UTC microsecond count at the n-th reading *)
  env_clock : nat → Z;
  (** [date.today()], the local date while a view is printed *)
  env_today : date;
  (** thread scheduling: which of the pending futures completes next *)
  env_pick : nat → nat
}.

(** ** Process state and the monad *)

Record State : Type := mk_State {
  st_service_cache : gmap string Service;
  st_color_map : gmap string string;
  st_ticks : nat
}.

Definition initial_state : State := mk_State ∅ ∅ 0%nat.

Definition M (A : Type) : Type := State → result A * State.

#[global] Instance M_ret : MRet M := λ A a st, (Ok a, st).
#[global] Instance M_bind : MBind M := λ A B k m st,
  match m st with
  | (Ok a, st') => k a st'
  | (Raise e, st') => (Raise e, st')
  end.

Definition raise {A} (e : exn) : M A := λ st, (Raise e, st).
Definition lift {A} (r : result A) : M A := λ st, (r, st).
Definition get_state : M State := λ st, (Ok st, st).
Definition put_state (st' : State) : M unit := λ _, (Ok tt, st').

(** [try: ... except Exception as e: ...] around [m]: the outcome as a value. *)
Definition try_ {A} (m : M A) : M (result A) := λ st,
  let '(r, st') := m st in (Ok r, st').

(** [datetime.now(timezone.utc)]. *)
Definition now_utc (env : Env) : M datetime := λ st,
  (Ok (mk_dt (env_clock env (st_ticks st)) (Some timezone_utc)),
   mk_State (st_service_cache st) (st_color_map st) (S (st_ticks st))).

(** ** config.py *)

Definition path_join (dir name : string) : string :=
  if String.prefix "/" name then name else dir +:+ "/" +:+ name.

Definition ACCOUNTS_DIR (env : Env) : string := path_join (env_config_dir env) "accounts".

Definition in_range (lo hi : nat) (c : ascii) : bool :=
  let n := nat_of_ascii c in (lo <=? n)%nat && (n <=? hi)%nat.

(** The character class [[a-zA-Z0-9_\-]]. *)
Definition name_char (c : ascii) : bool :=
  in_range 97 122 c || in_range 65 90 c || in_range 48 57 c
  || Ascii.eqb c "_" || Ascii.eqb c "-".

Fixpoint drop_name_chars (s : string) : string :=
  match s with
  | String c s' => if name_char c then drop_name_chars s' else s
  | EmptyString => EmptyString
  end.

Definition newline : string := String (ascii_of_nat 10) EmptyString.

(** [re.match(r'^[a-zA-Z0-9_\-]+$', name)]: a greedy run of at least one
    class character, after which [$] must hold; [$] holds at the end of the
    string and just before a newline that ends the string. *)
Definition re_match_account_name (name : string) : bool :=
  match name with
  | String c s' =>
      name_char c &&
      (let rest := drop_name_chars s' in
       String.eqb rest "" || String.eqb rest newline)
  | EmptyString => false
  end.

Definition validate_account_name (name : string) : result string :=
  if negb (re_match_account_name name) then
    Raise (ValueError ("Invalid account name '" +:+ name +:+ "'. "
                       +:+ "Use only letters, numbers, hyphens, and underscores."))
  else Ok name.

Definition get_account_dir (env : Env) (name : string) : result string :=
  _ ← validate_account_name name;
  let result := env_resolve env (path_join (ACCOUNTS_DIR env) name) in
  if negb (startswith result (env_resolve env (ACCOUNTS_DIR env))) then
    Raise (ValueError ("Invalid account name '" +:+ name +:+ "'."))
  else Ok result.

(** ** auth.py *)

Definition _token_path (env : Env) (account_name : string) : result string :=
  dir ← get_account_dir env account_name;
  Ok (path_join dir "token.json").

Definition load_credentials (env : Env) (account_name : string)
    : result (option Credentials) :=
  token_path ← _token_path env account_name;
  match env_read_token env token_path with
  | None => Ok None
  | Some r => creds ← r; Ok (Some creds)
  end.

(** ** api.py: the per-account fetcher *)

Definition no_credentials_message (account_name : string) : string :=
  "No credentials for account '" +:+ account_name +:+ "'. "
  +:+ "Run: mcli account add " +:+ account_name.

Definition get_service (env : Env) (account_name : string) : M Service :=
  st ← get_state;
  match st_service_cache st !! account_name with
  | Some service => mret service
  | None =>
      creds ← lift (load_credentials env account_name);
      match creds with
      | None => raise (ValueError (no_credentials_message account_name))
      | Some creds =>
          service ← lift (env_build env creds);
          st ← get_state;
          _ ← put_state (mk_State (<[account_name := service]> (st_service_cache st))
                                  (st_color_map st) (st_ticks st));
          mret service
      end
  end.

(** [item[key]] on a key that may be missing. *)
Definition getitem {A} (key : string) (field : option A) : result A :=
  match field with
  | Some a => Ok a
  | None => Raise (KeyError key)
  end.

(** [a or b] on an optional string: [a] when it is present and non-empty. *)
Definition or_else (a : option string) (b : string) : string :=
  match a with
  | Some (String c s) => String c s
  | _ => b
  end.

(** The body of the [for item in result.get("items", [])] loops: every item
    is converted, [None] standing for [continue]. *)
Fixpoint convert_items {A B} (f : A → result (option B)) (items : list A)
    : result (list B) :=
  match items with
  | [] => Ok []
  | x :: xs =>
      o ← f x;
      rest ← convert_items f xs;
      Ok (match o with Some b => b :: rest | None => rest end)
  end.

(** The [while True] pagination loops: stop at a page without a (non-empty)
    [nextPageToken]. *)
Fixpoint paginate {A B} (f : A → result (option B)) (p : Paged A) : result (list B) :=
  match p with
  | PageError e => Raise e
  | LastPage items => convert_items f items
  | MorePage items page_token rest =>
      xs ← convert_items f items;
      if String.eqb page_token "" then Ok xs
      else ys ← paginate f rest; Ok (xs ++ ys)
  end.

Definition calendar_of_item (account_name : string) (item : CalendarItem)
    : result (option Calendar) :=
  display_name ←
    match ci_summaryOverride item with
    | Some (String c s) => Ok (String c s)
    | _ => id ← getitem "id" (ci_id item); Ok (default id (ci_summary item))
    end;
  id ← getitem "id" (ci_id item);
  Ok (Some (mk_Calendar id display_name (default "" (ci_accessRole item))
              account_name (default "" (ci_timeZone item))
              (default "" (ci_colorId item)))).

Definition list_calendars (env : Env) (account_name : string) : M (list Calendar) :=
  service ← get_service env account_name;
  lift (paginate (calendar_of_item account_name) (svc_calendarList_list service)).

(** *** [datetime.strptime(s, "%Y-%m-%d")]

    The format compiles to the regular expression
    [(\d\d\d\d)-(1[0-2]|0[1-9]|[1-9])-(3[0-1]|[1-2]\d|0[1-9]|[1-9]| [1-9])];
    text left over after the match, and a day the month does not have, raise
    [ValueError].  A class such as [[0-9]] holds ASCII digits; [\d] is any
    decimal digit of Unicode, and [int] reads them all. *)

Definition digit_val (c : ascii) : option Z :=
  if in_range 48 57 c then Some (Z.of_nat (nat_of_ascii c) - 48) else None.

(** The first character of a UTF-8 string, as its code point, and the
    rest of the string. *)
Definition utf8_decode (s : string) : option (Z * string) :=
  let byte c := Z.of_nat (nat_of_ascii c) in
  let cont c := if is_continuation c then Some (byte c - 128) else None in
  match s with
  | String c0 s1 =>
      let b0 := byte c0 in
      if b0 <? 128 then Some (b0, s1)
      else if b0 <? 192 then None
      else if b0 <? 224 then
        match s1 with
        | String c1 rest => x1 ← cont c1; Some ((b0 - 192) * 64 + x1, rest)
        | _ => None
        end
      else if b0 <? 240 then
        match s1 with
        | String c1 (String c2 rest) =>
            x1 ← cont c1; x2 ← cont c2;
            Some (((b0 - 224) * 64 + x1) * 64 + x2, rest)
        | _ => None
        end
      else if b0 <? 248 then
        match s1 with
        | String c1 (String c2 (String c3 rest)) =>
            x1 ← cont c1; x2 ← cont c2; x3 ← cont c3;
            Some ((((b0 - 240) * 64 + x1) * 64 + x2) * 64 + x3, rest)
        | _ => None
        end
      else None
  | EmptyString => None
  end.

(** The code points of the digit zero of every script with decimal digits
    (category Nd, Unicode 14.0, the database of Python 3.11; later versions
    add scripts).  The digits of a script follow its zero in order. *)
Definition decimal_zeros : list Z :=
  [48; 1632; 1776; 1984; 2406; 2534; 2662; 2790; 2918; 3046; 3174; 3302; 3430;
   3558; 3664; 3792; 3872; 4160; 4240; 6112; 6160; 6470; 6608; 6784; 6800; 6992;
   7088; 7232; 7248; 42528; 43216; 43264; 43472; 43504; 43600; 44016; 65296;
   66720; 68912; 69734; 69872; 69942; 70096; 70384; 70736; 70864; 71248; 71360;
   71472; 71904; 72016; 72784; 73040; 73120; 92768; 92864; 93008; 120782;
   120792; 120802; 120812; 120822; 123200; 123632; 125264; 130032].

(** The value of a code point as a decimal digit. *)
Definition decimal_digit (cp : Z) : option Z :=
  z ← find (λ z, (z <=? cp) && (cp <? z + 10)) decimal_zeros; Some (cp - z).

(** [\d]: the value of the decimal digit a string starts with, and the
    rest of the string. *)
Definition read_digit (s : string) : option (Z * string) :=
  '(cp, rest) ← utf8_decode s; v ← decimal_digit cp; Some (v, rest).

Definition strptime_error (s : string) : exn :=
  ValueError ("time data '" +:+ s +:+ "' does not match format '%Y-%m-%d'").

Definition parse_year (s : string) : option (Z * string) :=
  '(a, s1) ← read_digit s; '(b, s2) ← read_digit s1;
  '(c, s3) ← read_digit s2; '(d, rest) ← read_digit s3;
  Some (1000 * a + 100 * b + 10 * c + d, rest).

Definition expect_dash (s : string) : option string :=
  match s with
  | String "-" rest => Some rest
  | _ => None
  end.

(** The month group followed by the dash: the first alternative after which
    a dash follows. *)
Definition parse_month_dash (s : string) : option (Z * string) :=
  match s with
  | String a (String b rest) =>
      match digit_val a, digit_val b with
      | Some 1, Some y =>
          if (y <=? 2) && bool_decide (is_Some (expect_dash rest))
          then rest' ← expect_dash rest; Some (10 + y, rest')
          else rest' ← expect_dash (String b rest); Some (1, rest')
      | Some 0, Some y =>
          if 1 <=? y then rest' ← expect_dash rest; Some (y, rest') else None
      | Some x, _ =>
          if 1 <=? x then rest' ← expect_dash (String b rest); Some (x, rest')
          else None
      | None, _ => None
      end
  | _ => None
  end.

(** The day group: the first alternative that matches. *)
Definition parse_day (s : string) : option (Z * string) :=
  match s with
  | String a rest =>
      let two :=
        match digit_val a with
        | Some 3 =>
            match rest with
            | String b rest' =>
                y ← digit_val b; if y <=? 1 then Some (30 + y, rest') else None
            | EmptyString => None
            end
        | Some 1 => '(y, rest') ← read_digit rest; Some (10 + y, rest')
        | Some 2 => '(y, rest') ← read_digit rest; Some (20 + y, rest')
        | Some 0 =>
            match rest with
            | String b rest' =>
                y ← digit_val b; if 1 <=? y then Some (y, rest') else None
            | EmptyString => None
            end
        | _ => None
        end in
      match two with
      | Some r => Some r
      | None =>
          match digit_val a with
          | Some x => if 1 <=? x then Some (x, rest) else None
          | None =>
              if Ascii.eqb a " " then
                match rest with
                | String b rest' =>
                    match digit_val b with
                    | Some y => if 1 <=? y then Some (y, rest') else None
                    | None => None
                    end
                | EmptyString => None
                end
              else None
          end
      end
  | EmptyString => None
  end.

Definition strptime_ymd (s : string) : result datetime :=
  match ('(y, s1) ← parse_year s; s2 ← expect_dash s1;
         '(m, s3) ← parse_month_dash s2; '(d, s4) ← parse_day s3;
         Some (y, m, d, s4)) with
  | None => Raise (strptime_error s)
  | Some (y, m, d, rest) =>
      if negb (String.eqb rest "") then
        Raise (ValueError ("unconverted data remains: " +:+ rest))
      else if y =? 0 then Raise (ValueError "year 0 is out of range")
      else if days_in_month y m <? d then
        Raise (ValueError "day is out of range for month")
      else Ok (datetime_of y m d 0 0 0 0 None)
  end.

(** *** [_parse_event_time] *)

Definition empty_time_obj : TimeObj := mk_TimeObj None None.

Definition _parse_event_time (env : Env) (time_obj : TimeObj) : result (datetime * bool) :=
  match to_date time_obj with
  | Some s =>
      dt ← strptime_ymd s;
      Ok (replace_tzinfo dt KST, true)
  | None =>
      s ← getitem "dateTime" (to_dateTime time_obj);
      dt ← env_dateutil_parse env s;
      let dt := match dt_tzinfo dt with
                | None => replace_tzinfo dt timezone_utc
                | Some _ => dt
                end in
      r ← astimezone dt KST;
      Ok (r, false)
  end.

(** *** [get_events] *)

Definition event_of_item (env : Env) (account_name calendar_id cal_name : string)
    (item : EventItem) : result (option Event) :=
  if bool_decide (ei_status item = Some "cancelled") then Ok None
  else
    '(start_time, all_day) ← _parse_event_time env (default empty_time_obj (ei_start item));
    '(end_time, _) ← _parse_event_time env (default empty_time_obj (ei_end item));
    let attendee_emails := map (default "") (default [] (ei_attendees item)) in
    id ← getitem "id" (ei_id item);
    Ok (Some (mk_Event id (default "(No title)" (ei_summary item))
                start_time end_time account_name calendar_id cal_name
                (default "" (ei_location item)) (default "" (ei_description item))
                all_day (default "" (ei_htmlLink item))
                (default "" (ei_hangoutLink item)) attendee_emails
                (default "" (ei_colorId item)) (default "" (ei_status item)))).

(** The display name of the calendar: the two nested [try] blocks. *)
Definition calendar_display_name (service : Service) (calendar_id : string) : string :=
  match svc_calendarList_get service calendar_id with
  | Ok cal_entry =>
      or_else (ci_summaryOverride cal_entry) (default calendar_id (ci_summary cal_entry))
  | Raise _ =>
      match svc_calendars_get service calendar_id with
      | Ok cal_info => default calendar_id (ci_summary cal_info)
      | Raise _ => calendar_id
      end
  end.

Definition get_events (env : Env) (account_name : string)
    (time_min time_max : option datetime) (query : option string)
    (calendar_id : string) : M (list Event) :=
  service ← get_service env account_name;
  time_min ← match time_min with
             | None => now_utc env
             | Some t => mret t
             end;
  let time_max := default (dt_add time_min (timedelta_days 5)) time_max in
  let cal_name := calendar_display_name service calendar_id in
  let q := match query with
           | Some (String c s) => Some (String c s)
           | _ => None
           end in
  lift (paginate (event_of_item env account_name calendar_id cal_name)
          (svc_events_list service calendar_id time_min time_max q)).

(** ** api.py: the aggregate fetch *)

(** [_match_calendar]. *)
Definition _match_calendar (calendar_filter : option (list string)) (cal : Calendar) : bool :=
  match calendar_filter with
  | None | Some [] => true
  | Some fs =>
      let cal_lower := lower (cal_summary cal) in
      existsb (λ f, str_contains (lower f) cal_lower) fs
  end.

(** [role in ("owner", "writer", "reader")]. *)
Definition in_default_roles (role : string) : bool :=
  String.eqb role "owner" || String.eqb role "writer" || String.eqb role "reader".

(** The condition under which [_fetch_account] queries a calendar. *)
Definition eligible (calendar_filter : option (list string)) (cal : Calendar) : bool :=
  in_default_roles (cal_access_role cal) && _match_calendar calendar_filter cal.

(** The [for cal in calendars] loop of [_fetch_account]; [events] is the
    local accumulator, lost when a [get_events] call raises. *)
Fixpoint _fetch_account_loop (env : Env) (name : string)
    (time_min time_max : option datetime) (query : option string)
    (calendar_filter : option (list string))
    (events : list Event) (calendars : list Calendar) : M (list Event) :=
  match calendars with
  | [] => mret events
  | cal :: rest =>
      if eligible calendar_filter cal then
        more ← get_events env name time_min time_max query (cal_id cal);
        _fetch_account_loop env name time_min time_max query calendar_filter
          (events ++ more) rest
      else
        _fetch_account_loop env name time_min time_max query calendar_filter
          events rest
  end.

Definition _fetch_account (env : Env) (time_min time_max : option datetime)
    (query : option string) (calendar_filter : option (list string))
    (name : string) : M (list Event) :=
  calendars ← list_calendars env name;
  _fetch_account_loop env name time_min time_max query calendar_filter [] calendars.

(** The synthetic event built in the [except] branch. *)
Definition error_event (account : string) (e : exn) (t_start t_end : datetime) : Event :=
  mk_Event "error" ("[Error: " +:+ account +:+ "] " +:+ str_exn e)
    t_start t_end account "" "" "" "" false "" "" [] "" "error".

(** [as_completed]: the futures in the order they finish.  Each per-account
    task is taken to run to its end without interleaving; [pick] chooses
    which pending future finishes next, so every order can occur. *)
Fixpoint as_completed {A} (pick : nat → nat) (fuel : nat) (pending : list A) : list A :=
  match fuel with
  | O => []
  | S fuel' =>
      match pending with
      | [] => []
      | x :: _ =>
          let k := (pick fuel' mod length pending)%nat in
          nth k pending x
            :: as_completed pick fuel' (take k pending ++ drop (S k) pending)
      end
  end.

(** The [for future in as_completed(futures)] loop. *)
Fixpoint collect_futures (env : Env) (time_min time_max : option datetime)
    (query : option string) (calendar_filter : option (list string))
    (all_events : list Event) (completed : list string) : M (list Event) :=
  match completed with
  | [] => mret all_events
  | account :: rest =>
      outcome ← try_ (_fetch_account env time_min time_max query calendar_filter account);
      match outcome with
      | Ok events =>
          collect_futures env time_min time_max query calendar_filter
            (all_events ++ events) rest
      | Raise e =>
          t_start ← now_utc env;
          t_end ← now_utc env;
          collect_futures env time_min time_max query calendar_filter
            (all_events ++ [error_event account e t_start t_end]) rest
      end
  end.

(** *** [list.sort(key=lambda e: e.start)]

    The sort is stable and compares keys with [<] only.  Comparing a naive
    with an aware datetime raises [TypeError]; a list of two or more events
    that mixes both kinds cannot be sorted without such a comparison. *)

Definition start_lt (a b : Event) : bool :=
  utc_instant (ev_start a) <? utc_instant (ev_start b).

Fixpoint insert_by_start (x : Event) (l : list Event) : list Event :=
  match l with
  | [] => [x]
  | y :: l' => if start_lt y x then y :: insert_by_start x l' else x :: y :: l'
  end.

Definition stable_sort_by_start (l : list Event) : list Event :=
  foldr insert_by_start [] l.

Definition sort_by_start (l : list Event) : result (list Event) :=
  if forallb (λ e, is_aware (ev_start e)) l
     || forallb (λ e, negb (is_aware (ev_start e))) l
  then Ok (stable_sort_by_start l)
  else Raise (TypeError "can't compare offset-naive and offset-aware datetimes").

Definition get_all_events (env : Env) (account_names : option (list string))
    (time_min time_max : option datetime) (query : option string)
    (calendar_filter : option (list string)) : M (list Event) :=
  let account_names := default (env_list_account_names env) account_names in
  match account_names with
  | [] => mret []
  | _ :: _ =>
      all_events ←
        collect_futures env time_min time_max query calendar_filter []
          (as_completed (env_pick env) (length account_names) account_names);
      lift (sort_by_start all_events)
  end.

(** [search_events]. *)
Definition search_events (env : Env) (text : string)
    (account_names : option (list string)) (time_min time_max : option datetime)
    (calendar_filter : option (list string)) : M (list Event) :=
  time_min ← match time_min with
             | None => t ← now_utc env; mret (dt_add t (- timedelta_days 30))
             | Some t => mret t
             end;
  time_max ← match time_max with
             | None => t ← now_utc env; mret (dt_add t (timedelta_days 365))
             | Some t => mret t
             end;
  get_all_events env account_names (Some time_min) (Some time_max) (Some text)
    calendar_filter.

(** ** display.py *)

Definition ACCOUNT_COLORS : list string :=
  ["cyan"; "magenta"; "green"; "yellow"; "blue";
   "red"; "bright_cyan"; "bright_magenta"; "bright_green"; "bright_yellow"].

Definition _get_account_color (account_name : string) : M string :=
  st ← get_state;
  match st_color_map st !! account_name with
  | Some color => mret color
  | None =>
      let idx := (size (st_color_map st) mod length ACCOUNT_COLORS)%nat in
      let color := nth idx ACCOUNT_COLORS "" in
      _ ← put_state (mk_State (st_service_cache st)
                       (<[account_name := color]> (st_color_map st)) (st_ticks st));
      mret color
  end.

(** A [for] loop that builds a list, one monadic step per element. *)
Fixpoint for_each {A B} (f : A → M B) (l : list A) : M (list B) :=
  match l with
  | [] => mret []
  | x :: xs => y ← f x; ys ← for_each f xs; mret (y :: ys)
  end.

(** What [print_week] hands to the console for one week: the column headers
    (with the flag of the highlighted "today" column) and the rows of cell
    texts. *)
Record Table : Type := mk_Table {
  tbl_columns : list (string * bool);
  tbl_rows : list (list string)
}.

(** The dict [day_events], in insertion order (the order of [.values()]). *)
Definition DayEvents := list (date * list Event).

Definition dict_contains (k : date) (d : DayEvents) : bool :=
  existsb (λ kv, fst kv =? k) d.

Definition dict_get (k : date) (d : DayEvents) : list Event :=
  match find (λ kv, fst kv =? k) d with
  | Some kv => snd kv
  | None => []
  end.

(** [day_events[k].append(event)]. *)
Definition dict_append (k : date) (event : Event) (d : DayEvents) : DayEvents :=
  map (λ kv, if fst kv =? k then (fst kv, snd kv ++ [event]) else kv) d.

(** The loop that collects the events per day. *)
Definition collect_day_events (days : list date) (events : list Event) : DayEvents :=
  foldl (λ day_events event,
           let event_date := dt_date (ev_start event) in
           if dict_contains event_date day_events
           then dict_append event_date event day_events
           else day_events)
        (map (λ d, (d, [])) days) events.

(** [max((len(v) for v in day_events.values()), default=0)]. *)
Definition max_len (day_events : DayEvents) : nat :=
  foldr Nat.max 0%nat (map (λ kv, length (snd kv)) day_events).

Definition week_cell (day_events : DayEvents) (row_idx : nat) (day : date) : M string :=
  let evts := dict_get day day_events in
  match nth_error evts row_idx with
  | Some evt =>
      color ← _get_account_color (ev_account_name evt);
      if ev_all_day evt then
        mret ("[" +:+ color +:+ "]■[/" +:+ color +:+ "] " +:+ str_take 12 (ev_summary evt))
      else
        let t := strftime_HM (ev_start evt) in
        mret ("[" +:+ color +:+ "]■[/" +:+ color +:+ "] " +:+ t +:+ " "
              +:+ str_take 10 (ev_summary evt))
  | None => mret ""
  end.

(** The seven days of the week at [week_offset]. *)
Definition week_days (start_date : date) (week_offset : nat) : list date :=
  let week_start := start_date + Z.of_nat week_offset * 7 in
  map (λ d, week_start + Z.of_nat d) (seq 0 7).

(** The body of the [for week_offset in range(weeks)] loop. *)
Definition week_table (env : Env) (events : list Event) (start_date : date)
    (week_offset : nat) : M Table :=
  let days := week_days start_date week_offset in
  let columns := map (λ day, (strftime_a_md day, bool_decide (day = env_today env))) days in
  let day_events := collect_day_events days events in
  let max_events := Nat.max (max_len day_events) 1 in
  rows ← for_each (λ row_idx, for_each (week_cell day_events row_idx) days)
           (seq 0 max_events);
  mret (mk_Table columns rows).

(** "Align to week start". *)
Definition align_week_start (start_date : date) (monday_start : bool) : date :=
  let wd := weekday start_date in
  if monday_start then start_date - wd else start_date - (wd + 1) mod 7.

(** [print_week]: the tables printed, in order. *)
Definition print_week (env : Env) (events : list Event) (weeks : Z)
    (start_date : option date) (monday_start : bool) : M (list Table) :=
  let start_date := default (env_today env) start_date in
  let start_date := align_week_start start_date monday_start in
  for_each (week_table env events start_date) (seq 0 (Z.to_nat weeks)).

(** ** Vocabulary of the statements *)

(** An event as [get_events] builds it for [account_name]: its start is
    aware, in the target zone, and it carries the account's name. *)
Definition fetched_for (account_name : string) (e : Event) : Prop :=
  dt_tzinfo (ev_start e) = Some KST ∧ dt_tzinfo (ev_end e) = Some KST
  ∧ ev_account_name e = account_name.

(** The order of the sorted result: by start instant. *)
Definition start_le (a b : Event) : Prop :=
  utc_instant (ev_start a) ≤ utc_instant (ev_start b).

(** What the [except] branch does to the state: two readings of the clock. *)
Definition after_error (st : State) : State :=
  mk_State (st_service_cache st) (st_color_map st) (S (S (st_ticks st))).

(** The outcome of every per-account task in completion order, each with
    the number of clock readings taken when the task finished. *)
Fixpoint task_outcomes (env : Env) (time_min time_max : option datetime)
    (query : option string) (calendar_filter : option (list string))
    (completed : list string) (st : State)
    : list (string * result (list Event) * nat) :=
  match completed with
  | [] => []
  | account :: rest =>
      let '(r, st1) :=
        _fetch_account env time_min time_max query calendar_filter account st in
      (account, r, st_ticks st1)
        :: task_outcomes env time_min time_max query calendar_filter rest
             (match r with Ok _ => st1 | Raise _ => after_error st1 end)
  end.

(** The n-th reading of [datetime.now(timezone.utc)]. *)
Definition clock_utc (env : Env) (n : nat) : datetime :=
  mk_dt (env_clock env n) (Some timezone_utc).

(** What one outcome contributes to [all_events]. *)
Definition outcome_events (env : Env) (o : string * result (list Event) * nat)
    : list Event :=
  match o with
  | (_, Ok events, _) => events
  | (account, Raise e, n) =>
      [error_event account e (clock_utc env n) (clock_utc env (S n))]
  end.

(** The events of a successful outcome are events fetched for its account. *)
Definition outcome_ok (o : string * result (list Event) * nat) : Prop :=
  ∀ events, o.1.2 = Ok events → Forall (fetched_for o.1.1) events.

(** [m] keeps the state property [P], whether it returns or raises. *)
Definition preserves {A} (P : State → Prop) (m : M A) : Prop :=
  ∀ st, P st → P (m st).2.

(** [_service_cache] has no entry for [name]. *)
Definition uncached (name : string) (st : State) : Prop :=
  st_service_cache st !! name = None.

(** ** A small deployment used for the concrete runs

    Two accounts are registered.  [home] has one calendar holding a one-day
    all-day event.  [work] has three calendars: [team] with a 45-second
    event, [ops] whose event listing fails, and [room] shared with access
    role [freeBusyReader]. *)
Module Demo.

Definition accounts_dir : string := "/home/u/.config/multicalcli/accounts".

Definition cal_item (id summary role : string) : CalendarItem :=
  mk_CalendarItem (Some id) None (Some summary) (Some role) None None.

Definition timed_item (id summary start_ end_ : string) : EventItem :=
  mk_EventItem (Some id) (Some summary)
    (Some (mk_TimeObj None (Some start_))) (Some (mk_TimeObj None (Some end_)))
    None None None None None None (Some "confirmed").

Definition all_day_item (id summary start_ end_ : string) : EventItem :=
  mk_EventItem (Some id) (Some summary)
    (Some (mk_TimeObj (Some start_) None)) (Some (mk_TimeObj (Some end_) None))
    None None None None None None (Some "confirmed").

Definition holiday : EventItem :=
  all_day_item "h1" "Holiday" "2024-03-01" "2024-03-02".

Definition standup : EventItem :=
  timed_item "w1" "Standup" "2024-03-01T10:00:00+09:00" "2024-03-01T10:00:45+09:00".

Definition lookup_calendar (items : list CalendarItem) (calendar_id : string)
    : result CalendarItem :=
  match find (λ it, bool_decide (ci_id it = Some calendar_id)) items with
  | Some it => Ok it
  | None => Raise (RemoteError "404 Not Found")
  end.

Definition home_calendars : list CalendarItem := [cal_item "primary" "Personal" "owner"].

Definition home_service : Service :=
  mk_Service (LastPage home_calendars) (lookup_calendar home_calendars)
    (lookup_calendar home_calendars)
    (λ calendar_id _ _ _,
       if String.eqb calendar_id "primary" then LastPage [holiday]
       else PageError (RemoteError "404 Not Found")).

Definition work_calendars : list CalendarItem :=
  [cal_item "team" "Work Team" "owner"; cal_item "ops" "Operations" "reader";
   cal_item "room" "Meeting Room" "freeBusyReader"].

Definition work_service : Service :=
  mk_Service (LastPage work_calendars) (lookup_calendar work_calendars)
    (lookup_calendar work_calendars)
    (λ calendar_id _ _ _,
       if String.eqb calendar_id "team" then LastPage [standup]
       else PageError (RemoteError "503 Service Unavailable")).

Definition parse_iso (s : string) : result datetime :=
  if String.eqb s "2024-03-01T10:00:00+09:00"
  then Ok (datetime_of 2024 3 1 10 0 0 0 (Some KST))
  else if String.eqb s "2024-03-01T10:00:45+09:00"
  then Ok (datetime_of 2024 3 1 10 0 45 0 (Some KST))
  else if String.eqb s "2024-03-01T01:30:00"
  then Ok (datetime_of 2024 3 1 1 30 0 0 None)
  else if String.eqb s "9999-12-31T23:00:00Z"
  then Ok (datetime_of 9999 12 31 23 0 0 0 (Some timezone_utc))
  else Raise (ValueError ("Unknown string format: " +:+ s)).

Definition env : Env :=
  {| env_config_dir := "/home/u/.config/multicalcli";
     env_resolve := λ p, p;
     env_list_account_names := ["home"; "work"];
     env_read_token := λ p,
       if String.eqb p (accounts_dir +:+ "/home/token.json") then Some (Ok "token-home")
       else if String.eqb p (accounts_dir +:+ "/work/token.json") then Some (Ok "token-work")
       else None;
     env_build := λ creds,
       if String.eqb creds "token-home" then Ok home_service else Ok work_service;
     env_dateutil_parse := parse_iso;
     env_clock := λ n, utc_instant (datetime_of 2024 3 1 0 0 0 0 (Some timezone_utc))
                       + Z.of_nat n;
     env_today := ymd2ord 2024 3 1;
     env_pick := λ _, 0%nat |}.

Definition holiday_event : Event :=
  mk_Event "h1" "Holiday" (datetime_of 2024 3 1 0 0 0 0 (Some KST))
    (datetime_of 2024 3 2 0 0 0 0 (Some KST)) "home" "primary" "Personal"
    "" "" true "" "" [] "" "confirmed".

Definition standup_event : Event :=
  mk_Event "w1" "Standup" (datetime_of 2024 3 1 10 0 0 0 (Some KST))
    (datetime_of 2024 3 1 10 0 45 0 (Some KST)) "work" "team" "Work Team"
    "" "" false "" "" [] "" "confirmed".

End Demo.

(** The task of this outcome returned. *)
Definition outcome_succeeded (o : string * result (list Event) * nat) : Prop :=
  ∃ events, o.1.2 = Ok events.

(** [m] is an integer nearest to [delta] microseconds counted in minutes. *)
Definition nearest_minute (delta m : Z) : Prop :=
  2 * Z.abs (m * us_per_minute - delta) ≤ us_per_minute.

(** Two characters that are equal or the two cases of one letter. *)
Definition same_letter (a b : ascii) : Prop :=
  a = b
  ∨ ((65 ≤ nat_of_ascii a ≤ 90)%nat ∧ nat_of_ascii b = (nat_of_ascii a + 32)%nat)
  ∨ ((65 ≤ nat_of_ascii b ≤ 90)%nat ∧ nat_of_ascii a = (nat_of_ascii b + 32)%nat).

(** Two strings that are equal when case is ignored. *)
Fixpoint eq_ignoring_case (s t : string) : Prop :=
  match s, t with
  | EmptyString, EmptyString => True
  | String a s', String b t' => same_letter a b ∧ eq_ignoring_case s' t'
  | _, _ => False
  end.

(** [name] contains [f] when case is ignored: a part of [name] equals [f]
    up to the case of its letters. *)
Definition contains_ignoring_case (name f : string) : Prop :=
  ∃ pre mid post, name = pre +:+ mid +:+ post ∧ eq_ignoring_case mid f.

(** The display name and the filter strings are ASCII text. *)
Definition ascii_names (calendar_filter : option (list string)) (cal : Calendar) : Prop :=
  is_ascii (cal_summary cal) = true
  ∧ ∀ fs, calendar_filter = Some fs → Forall (λ f, is_ascii f = true) fs.

(** The distinct names of a sequence of queries in order of first
    appearance, continuing from the names [seen] so far. *)
Fixpoint first_seen_from (seen names : list string) : list string :=
  match names with
  | [] => seen
  | n :: rest =>
      first_seen_from (if bool_decide (n ∈ seen) then seen else seen ++ [n]) rest
  end.

Definition first_seen (names : list string) : list string :=
  first_seen_from [] names.

(** The position of [n] in [l]. *)
Fixpoint index_of (n : string) (l : list string) : nat :=
  match l with
  | [] => 0
  | x :: l' => if bool_decide (x = n) then 0 else S (index_of n l')
  end.

(** The palette entry at [i] modulo the palette size. *)
Definition palette (i : nat) : string :=
  nth (i mod length ACCOUNT_COLORS) ACCOUNT_COLORS "".

(** [_color_map] holds exactly the names [seen], each with the palette
    entry of its rank. *)
Definition colored (seen : list string) (st : State) : Prop :=
  size (st_color_map st) = length seen
  ∧ ∀ n, st_color_map st !! n
         = if bool_decide (n ∈ seen) then Some (palette (index_of n seen)) else None.

Fixpoint all_name_chars (s : string) : bool :=
  match s with
  | EmptyString => true
  | String c s' => name_char c && all_name_chars s'
  end.

(** A name made of letters, digits, hyphens and underscores only. *)
Definition only_name_chars (name : string) : Prop :=
  name ≠ "" ∧ all_name_chars name = true.

(** The events bucketed into [day]. *)
Definition bucket (day : date) (events : list Event) : list Event :=
  filter (λ e, dt_date (ev_start e) = day) events.

(** The largest bucket among [days]. *)
Definition max_bucket (days : list date) (events : list Event) : nat :=
  foldr Nat.max 0%nat (map (λ day, length (bucket day events)) days).

(** The rows of one week: as many as the largest bucket of its days, at
    least one; seven cells per row; a cell is blank exactly when its day has
    no event left for that row. *)
Definition week_rows_ok (days : list date) (events : list Event)
    (rows : list (list string)) : Prop :=
  length rows = Nat.max (max_bucket days events) 1
  ∧ ∀ r row, rows !! r = Some row →
      length row = length days
      ∧ ∀ j day cell, days !! j = Some day → row !! j = Some cell →
          (cell = "" ↔ (length (bucket day events) ≤ r)%nat).

From stdpp Require Import pretty sorting.

Local Open Scope list_scope.
Local Open Scope Z_scope.

(** ** Vocabulary of the further properties *)

(** The items a paginated answer holds up to the page where the loops
    stop, when no request on the way fails. *)
Fixpoint page_items {A} (p : Paged A) : result (list A) :=
  match p with
  | LastPage items => Ok items
  | MorePage items page_token rest =>
      if String.eqb page_token "" then Ok items
      else more ← page_items rest; Ok (items ++ more)
  | PageError e => Raise e
  end.

(** The start instant of an event is [k]. *)
Definition starts_at (k : Z) (e : Event) : Prop := utc_instant (ev_start e) = k.

#[global] Instance starts_at_dec k e : Decision (starts_at k e).
Proof. unfold starts_at. apply _. Defined.

(** An event that [get_events] built for this account and calendar: it
    carries their names, is not cancelled, and its start and end have the
    target zone as their [tzinfo]. *)
Definition stamped (account_name calendar_id cal_name : string) (e : Event) : Prop :=
  ev_account_name e = account_name
  ∧ ev_calendar_id e = calendar_id
  ∧ ev_calendar_name e = cal_name
  ∧ ev_status e ≠ "cancelled"
  ∧ dt_tzinfo (ev_start e) = Some KST
  ∧ dt_tzinfo (ev_end e) = Some KST.

(** ** display.py: the other views *)

(** [print_calendars]: the rows of the table, one per calendar (account
    cell, access role, calendar name). *)
Definition print_calendars (calendars : list Calendar) : M (list (list string)) :=
  for_each (λ cal,
              color ← _get_account_color (cal_account_name cal);
              mret ["[" +:+ color +:+ "]" +:+ cal_account_name cal
                    +:+ "[/" +:+ color +:+ "]";
                    cal_access_role cal; cal_summary cal])
           calendars.

(** [itertools.groupby]: the runs of consecutive elements with equal key. *)
Fixpoint groupby {A} (key : A → Z) (l : list A) : list (Z * list A) :=
  match l with
  | [] => []
  | x :: rest =>
      match groupby key rest with
      | (k, g) :: gs =>
          if key x =? k then (k, x :: g) :: gs else (key x, [x]) :: (k, g) :: gs
      | [] => [(key x, [x])]
      end
  end.

Fixpoint str_repeat (n : nat) (s : string) : string :=
  match n with
  | O => ""
  | S n' => s +:+ str_repeat n' s
  end.

(** A year in four digits. *)
Definition four_digits (y : Z) : string :=
  String (digit_char (y / 1000)) (String (digit_char (y / 100))
    (String (digit_char (y / 10)) (String (digit_char y) EmptyString))).

(** [%Y]: the year as the C library prints it.  The years 1000 to 9999
    have their four digits on every platform; below 1000 the definition
    follows glibc, which does not pad (other C libraries pad to four
    digits). *)
Definition strftime_Y (y : Z) : string :=
  if y <? 10 then String (digit_char y) EmptyString
  else if y <? 100 then two_digits y
  else if y <? 1000 then String (digit_char (y / 100)) (two_digits y)
  else four_digits y.

(** [day.strftime("%a %Y-%m-%d")]. *)
Definition strftime_a_Ymd (d : date) : string :=
  let '(y, m, dd) := ord2ymd d in
  day_abbr (weekday d) +:+ " " +:+ strftime_Y y +:+ "-" +:+ two_digits m
  +:+ "-" +:+ two_digits dd.

(** [dt.strftime("%I:%M %p")]. *)
Definition strftime_IM_p (dt : datetime) : string :=
  let tod := dt_wall dt mod us_per_day in
  let h := tod / us_per_hour in
  let h12 := if h mod 12 =? 0 then 12 else h mod 12 in
  two_digits h12 +:+ ":" +:+ two_digits (tod mod us_per_hour / us_per_minute)
  +:+ (if h <? 12 then " AM" else " PM").

(** The line printed for one event of the agenda. *)
Definition agenda_line (military : bool) (event : Event) : M string :=
  color ← _get_account_color (ev_account_name event);
  let account_tag :=
    "[" +:+ color +:+ "][" +:+ ev_account_name event +:+ "][/" +:+ color +:+ "]" in
  let fmt := if military then strftime_HM else strftime_IM_p in
  let time_str :=
    if ev_all_day event then "  All Day "
    else fmt (ev_start event) +:+ "-" +:+ fmt (ev_end event) in
  let summary :=
    if String.eqb (ev_status event) "error"
    then "[red]" +:+ ev_summary event +:+ "[/red]"
    else ev_summary event in
  let location_str :=
    match ev_location event with
    | "" => ""
    | loc => " [dim]@ " +:+ loc +:+ "[/dim]"
    end in
  mret ("  [dim]" +:+ time_str +:+ "[/dim]  " +:+ summary +:+ "  "
        +:+ account_tag +:+ location_str).

Definition agenda_header (day : date) : string :=
  newline +:+ "[bold yellow]" +:+ strftime_a_Ymd day +:+ "[/bold yellow]".

Definition agenda_rule : string := "[dim]" +:+ str_repeat 60 "─" +:+ "[/dim]".

(** What is printed for one group of [groupby]: the day header, the rule
    and one line per event. *)
Definition agenda_section (military : bool) (g : date * list Event) : M (list string) :=
  lines ← for_each (agenda_line military) g.2;
  mret (agenda_header g.1 :: agenda_rule :: lines).

(** [print_agenda]: the strings handed to [console.print], in order. *)
Definition print_agenda (events : list Event) (military : bool) : M (list string) :=
  match events with
  | [] => mret ["[dim]No events found.[/dim]"]
  | _ :: _ =>
      sections ← for_each (agenda_section military)
                   (groupby (λ e, dt_date (ev_start e)) events);
      mret (concat sections)
  end.

(** The groups are the maximal runs of consecutive events with the same
    start date: put end to end they are the events; each group is not
    empty and holds events of its date only; and two groups that follow
    one another have different dates. *)
Definition runs_by_date (events : list Event) (groups : list (date * list Event))
    : Prop :=
  concat (map snd groups) = events
  ∧ Forall (λ g, g.2 ≠ [] ∧ Forall (λ e, dt_date (ev_start e) = g.1) g.2) groups
  ∧ ∀ pre g1 g2 post, groups = pre ++ g1 :: g2 :: post → g1.1 ≠ g2.1.

(** The line of the agenda for an event: the time range (or the all-day
    mark), the summary (in red for an error event), the account tag in the
    colour of the account, and the location when there is one. *)
Definition agenda_line_ok (military : bool) (e : Event) (line : string) : Prop :=
  ∃ color,
    let clock := if military then strftime_HM else strftime_IM_p in
    let tag :=
      "[" +:+ color +:+ "][" +:+ ev_account_name e +:+ "][/" +:+ color +:+ "]" in
    line
    = "  [dim]"
      +:+ (if ev_all_day e then "  All Day "
           else clock (ev_start e) +:+ "-" +:+ clock (ev_end e))
      +:+ "[/dim]  "
      +:+ (if decide (ev_status e = "error") then "[red]" +:+ ev_summary e +:+ "[/red]"
           else ev_summary e)
      +:+ "  " +:+ tag
      +:+ (if decide (ev_location e = "") then ""
           else " [dim]@ " +:+ ev_location e +:+ "[/dim]").

(** The section of the agenda for a run: the date after a blank line, a
    rule of sixty dashes, and the lines of the events in order. *)
Definition agenda_section_ok (military : bool) (g : date * list Event)
    (section : list string) : Prop :=
  ∃ lines,
    section
    = (newline +:+ "[bold yellow]" +:+ strftime_a_Ymd g.1 +:+ "[/bold yellow]")
      :: ("[dim]" +:+ str_repeat 60 "─" +:+ "[/dim]") :: lines
    ∧ Forall2 (agenda_line_ok military) g.2 lines.

(** The event starts in a year of four digits; [%Y] prints such a year
    alike on every platform. *)
Definition four_digit_year (e : Event) : Prop :=
  1000 ≤ (ord2ymd (dt_date (ev_start e))).1.1 ≤ 9999.

(** A printed string that opens a day of the agenda. *)
Definition is_day_header (s : string) : Prop :=
  String.prefix (newline +:+ "[bold yellow]") s = true.

#[global] Instance is_day_header_dec s : Decision (is_day_header s).
Proof. unfold is_day_header. apply _. Defined.

(** *** [print_month] *)

Definition month_name (m : Z) : string :=
  nth (Z.to_nat m)
    [""; "January"; "February"; "March"; "April"; "May"; "June"; "July"; "August";
     "September"; "October"; "November"; "December"] "".

(** [calendar.monthrange]: the weekday of the first day and the number of
    days of the month. *)
Definition monthrange (y m : Z) : Z * Z := (weekday (ymd2ord y m 1), days_in_month y m).

(** [calendar.Calendar(firstweekday).itermonthdays]: zeros for the days of
    the first and last week that lie outside the month. *)
Definition itermonthdays (firstweekday y m : Z) : list Z :=
  let '(day1, ndays) := monthrange y m in
  let days_before := (day1 - firstweekday) mod 7 in
  let days_after := (firstweekday - day1 - ndays) mod 7 in
  replicate (Z.to_nat days_before) 0 ++ map Z.of_nat (seq 1 (Z.to_nat ndays))
  ++ replicate (Z.to_nat days_after) 0.

(** [[days[i:i+7] for i in range(0, len(days), 7)]]. *)
Fixpoint chunks7 (fuel : nat) (l : list Z) : list (list Z) :=
  match fuel with
  | O => []
  | S fuel' =>
      match l with
      | [] => []
      | _ :: _ => take 7 l :: chunks7 fuel' (drop 7 l)
      end
  end.

Definition monthdayscalendar (firstweekday y m : Z) : list (list Z) :=
  let days := itermonthdays firstweekday y m in
  chunks7 (length days) days.

(** The dict [event_by_day], built with [setdefault(d.day, []).append]. *)
Definition event_by_day (year month : Z) (events : list Event) : gmap Z (list Event) :=
  foldl (λ m event,
           let '(y, mo, d) := ord2ymd (dt_date (ev_start event)) in
           if (y =? year) && (mo =? month)
           then <[d := default [] (m !! d) ++ [event]]> m
           else m)
        ∅ events.

(** [f"{day_num:2d}"]. *)
Definition format_2d (n : Z) : string :=
  if (0 <=? n) && (n <? 10) then " " +:+ pretty n else pretty n.

Definition month_marker (evt : Event) : M string :=
  color ← _get_account_color (ev_account_name evt);
  mret ("[" +:+ color +:+ "]·[/" +:+ color +:+ "]" +:+ str_take 6 (ev_summary evt)).

Definition month_overflow (n : nat) : list string :=
  if (3 <? n)%nat then ["[dim]+" +:+ pretty (n - 3)%nat +:+ "[/dim]"] else [].

Definition month_day_header (env : Env) (year month day_num : Z) : string :=
  if ymd2ord year month day_num =? env_today env
  then "[bold bright_white on blue]" +:+ format_2d day_num
       +:+ "[/bold bright_white on blue]"
  else "[bold]" +:+ format_2d day_num +:+ "[/bold]".

(** One cell of the month grid. *)
Definition month_cell (env : Env) (year month : Z) (by_day : gmap Z (list Event))
    (day_num : Z) : M string :=
  if day_num =? 0 then mret ""
  else
    let day_evts := default [] (by_day !! day_num) in
    markers ← for_each month_marker (take 3 day_evts);
    mret (String.concat newline
            (month_day_header env year month day_num
               :: markers ++ month_overflow (length day_evts))).

Record MonthView : Type := mk_MonthView {
  mv_title : string;
  mv_headers : list string;
  mv_rows : list (list string)
}.

(** [date.today().replace(day=1)]. *)
Definition first_of_this_month (env : Env) : date :=
  let '(y, m, _) := ord2ymd (env_today env) in ymd2ord y m 1.

(** [print_month]: the title line, the column headers and the rows of
    cells. *)
Definition print_month (env : Env) (events : list Event) (start_date : option date)
    (monday_start : bool) : M MonthView :=
  let start_date := default (first_of_this_month env) start_date in
  let year := (ord2ymd start_date).1.1 in
  let month := (ord2ymd start_date).1.2 in
  let title := newline +:+ "[bold]" +:+ month_name month +:+ " " +:+ strftime_Y year
               +:+ "[/bold]" in
  let by_day := event_by_day year month events in
  let headers :=
    if monday_start then ["Mon"; "Tue"; "Wed"; "Thu"; "Fri"; "Sat"; "Sun"]
    else ["Sun"; "Mon"; "Tue"; "Wed"; "Thu"; "Fri"; "Sat"] in
  let first_weekday := if monday_start then 0 else 6 in
  let weeks := monthdayscalendar first_weekday year month in
  rows ← for_each (λ week, for_each (month_cell env year month by_day) week) weeks;
  mret (mk_MonthView title headers rows).

(** The event starts on day [d] of the month [month] of [year]. *)
Definition on_month_day (year month d : Z) (e : Event) : Prop :=
  ord2ymd (dt_date (ev_start e)) = (year, month, d).

#[global] Instance on_month_day_dec year month d e : Decision (on_month_day year month d e).
Proof. unfold on_month_day. apply _. Defined.

(** The event starts in the month [month] of [year]. *)
Definition in_month (year month : Z) (e : Event) : Prop :=
  (ord2ymd (dt_date (ev_start e))).1 = (year, month).

#[global] Instance in_month_dec year month e : Decision (in_month year month e).
Proof. unfold in_month. apply _. Defined.

(** The number of characters of a UTF-8 string. *)
Fixpoint char_count (s : string) : nat :=
  match s with
  | EmptyString => O
  | String c s' => if is_continuation c then char_count s' else S (char_count s')
  end.

(** [t] is [s] cut after its first [n] characters: a prefix of [s] that
    ends where a character ends and holds [n] characters, or all of them
    when [s] has fewer. *)
Definition first_chars (n : nat) (s t : string) : Prop :=
  ∃ rest,
    s = t +:+ rest
    ∧ char_count t = Nat.min n (char_count s)
    ∧ match rest with
      | String c _ => is_continuation c = false
      | EmptyString => True
      end.

(** What a cell of the month grid holds: nothing for a padding cell.  For
    a day: the day number, two wide, in bold (highlighted for today), then
    a marker with the title cut to six characters for each of the first
    three events of the input that start on the day, then [+K] when [K]
    more events start on it; the parts are joined by newlines. *)
Definition month_cell_ok (env : Env) (year month : Z) (events : list Event)
    (day_num : Z) (cell : string) : Prop :=
  if decide (day_num = 0) then cell = ""
  else
    let day_evts := filter (on_month_day year month day_num) events in
    let day_text :=
      if decide (0 ≤ day_num < 10) then " " +:+ pretty day_num else pretty day_num in
    let header :=
      if decide (ymd2ord year month day_num = env_today env)
      then "[bold bright_white on blue]" +:+ day_text +:+ "[/bold bright_white on blue]"
      else "[bold]" +:+ day_text +:+ "[/bold]" in
    let counter :=
      if decide (length day_evts ≤ 3)%nat then []
      else ["[dim]+" +:+ pretty (length day_evts - 3)%nat +:+ "[/dim]"] in
    ∃ markers,
      cell = String.concat newline (header :: markers ++ counter)
      ∧ Forall2 (λ evt marker,
                   ∃ color title,
                     marker = "[" +:+ color +:+ "]·[/" +:+ color +:+ "]" +:+ title
                     ∧ first_chars 6 (ev_summary evt) title)
          (take 3 day_evts) markers.

(** The event starts on one of the days shown by [print_week]. *)
Definition in_week_window (start_date : date) (weeks : Z) (e : Event) : Prop :=
  start_date ≤ dt_date (ev_start e) < start_date + 7 * weeks.

#[global] Instance in_week_window_dec start_date weeks e :
  Decision (in_week_window start_date weeks e).
Proof. unfold in_week_window. apply _. Defined.

(** ** api.py: the write operations *)

(** [dt.strftime("%Y-%m-%d")]. *)
Definition strftime_Ymd (dt : datetime) : string :=
  let '(y, m, d) := ord2ymd (dt_date dt) in
  strftime_Y y +:+ "-" +:+ two_digits m +:+ "-" +:+ two_digits d.

Definition six_digits (n : Z) : string :=
  String (digit_char (n / 100000)) (String (digit_char (n / 10000))
    (String (digit_char (n / 1000)) (String (digit_char (n / 100))
      (String (digit_char (n / 10)) (String (digit_char n) EmptyString))))).

(** The UTC offset as [isoformat] appends it. *)
Definition format_offset (off : Z) : string :=
  let sign := if off <? 0 then "-" else "+" in
  let a := Z.abs off in
  let hh := a / us_per_hour in
  let mm := a mod us_per_hour / us_per_minute in
  let ss := a mod us_per_minute / us_per_second in
  let us := a mod us_per_second in
  sign +:+ two_digits hh +:+ ":" +:+ two_digits mm
  +:+ (if (ss =? 0) && (us =? 0) then "" else ":" +:+ two_digits ss)
  +:+ (if us =? 0 then "" else "." +:+ six_digits us).

(** [dt.isoformat()]. *)
Definition isoformat (dt : datetime) : string :=
  let tod := dt_wall dt mod us_per_day in
  let us := tod mod us_per_second in
  (let '(y, m, d) := ord2ymd (dt_date dt) in
   four_digits y +:+ "-" +:+ two_digits m +:+ "-" +:+ two_digits d)
  +:+ "T" +:+ two_digits (tod / us_per_hour) +:+ ":"
  +:+ two_digits (tod mod us_per_hour / us_per_minute) +:+ ":"
  +:+ two_digits (tod mod us_per_minute / us_per_second)
  +:+ (if us =? 0 then "" else "." +:+ six_digits us)
  +:+ match dt_tzinfo dt with
      | Some off => format_offset off
      | None => ""
      end.

(** The request body of [events().insert]. *)
Record EventBody : Type := mk_EventBody {
  eb_summary : string;
  eb_start : TimeObj;
  eb_end : TimeObj;
  eb_location : option string;
  eb_description : option string;
  eb_attendees : option (list string)
}.

(** The write methods of the Calendar API resource: [events().quickAdd],
    [events().insert] and [events().delete], each followed by
    [execute()]. *)
Record WriteApi : Type := mk_WriteApi {
  api_quickAdd : Service → string → string → result EventItem;
  api_insert : Service → string → EventBody → result EventItem;
  api_delete : Service → string → string → result unit
}.

(** [x if x else None] for the optional fields of the body. *)
Definition if_nonempty (s : string) : option string :=
  match s with
  | "" => None
  | _ => Some s
  end.

(** The [body] dict [add_event] builds. *)
Definition add_event_body (title : string) (start end_ : datetime)
    (location description : string) (attendees : option (list string))
    (all_day : bool) : EventBody :=
  mk_EventBody title
    (if all_day then mk_TimeObj (Some (strftime_Ymd start)) None
     else mk_TimeObj None (Some (isoformat start)))
    (if all_day then mk_TimeObj (Some (strftime_Ymd end_)) None
     else mk_TimeObj None (Some (isoformat end_)))
    (if_nonempty location) (if_nonempty description)
    (match attendees with
     | Some (a :: l) => Some (a :: l)
     | _ => None
     end).

Definition add_event (env : Env) (api : WriteApi) (account_name title : string)
    (start end_ : datetime) (calendar_id location description : string)
    (attendees : option (list string)) (all_day : bool) : M Event :=
  service ← get_service env account_name;
  let body := add_event_body title start end_ location description attendees all_day in
  item ← lift (api_insert api service calendar_id body);
  id ← lift (getitem "id" (ei_id item));
  mret (mk_Event id (default title (ei_summary item)) start end_ account_name
          calendar_id "" location description all_day
          (default "" (ei_htmlLink item)) "" [] "" "").

Definition quick_add (env : Env) (api : WriteApi) (account_name text calendar_id : string)
    : M Event :=
  service ← get_service env account_name;
  item ← lift (api_quickAdd api service calendar_id text);
  '(start_time, all_day) ←
    lift (_parse_event_time env (default empty_time_obj (ei_start item)));
  '(end_time, _) ← lift (_parse_event_time env (default empty_time_obj (ei_end item)));
  id ← lift (getitem "id" (ei_id item));
  mret (mk_Event id (default text (ei_summary item)) start_time end_time account_name
          calendar_id "" "" "" all_day (default "" (ei_htmlLink item)) "" [] "" "").

Definition delete_event (env : Env) (api : WriteApi)
    (account_name event_id calendar_id : string) : M unit :=
  service ← get_service env account_name;
  lift (api_delete api service calendar_id event_id).

(** The checks of one ordinal against its civil date, run over a range. *)
Definition civil_ok (n : Z) : bool :=
  let '(y, m, d) := ord2ymd n in
  (ymd2ord y m d =? n) && (1 <=? m) && (m <=? 12) && (1 <=? d)
  && (d <=? days_in_month y m).

Fixpoint civil_ok_from (fuel : nat) (n : Z) : bool :=
  match fuel with
  | O => true
  | S fuel' => civil_ok n && civil_ok_from fuel' (n + 1)
  end.

(** ** cli.py: the read commands

    What a command hands to the console, in order, and the exit status
    ([SystemExit(1)] ends a command with status 1). *)

Inductive Output : Type :=
| Printed (s : string)
| WeekView (tables : list Table)
| MonthGrid (view : MonthView)
| CalendarsTable (rows : list (list string)).

Record Run : Type := mk_Run {
  run_output : list Output;
  run_exit : Z
}.

Definition account_not_found (account : string) : Run :=
  mk_Run [Printed ("[red]Error:[/red] Account '" +:+ account +:+ "' not found.")] 1.

(** [_resolve_accounts]: the accounts a read command queries, or the run
    that ends the command. *)
Definition _resolve_accounts (env : Env) (account : option string)
    : Run + list string :=
  match account with
  | Some (String c s) =>
      let names := env_list_account_names env in
      if bool_decide (String c s ∈ names) then inr [String c s]
      else inl (account_not_found (String c s))
  | _ => inr (env_list_account_names env)
  end.

(** [list(calendar_filter) if calendar_filter else None]. *)
Definition cal_filter_of (calendar_filter : list string) : option (list string) :=
  match calendar_filter with
  | [] => None
  | _ :: _ => Some calendar_filter
  end.

(** [now + timedelta(weeks=weeks)] for the week count given on the command
    line, with the range checks of the [datetime] module: a [timedelta]
    holds at most 999999999 days in magnitude, and the sum has to lie in the
    years 1 to 9999 (the ordinals 1 to 3652059); otherwise the operation
    raises [OverflowError], here [None]. *)
Definition add_weeks (now : datetime) (weeks : Z) : option datetime :=
  let time_max := dt_add now (timedelta_days (7 * weeks)) in
  if (Z.abs (7 * weeks) <=? 999999999)
     && (1 <=? dt_date time_max) && (dt_date time_max <=? 3652059)
  then Some time_max else None.

(** How the command [week] ends: with a run, or with the [OverflowError] of
    its date arithmetic, which nothing catches. *)
Inductive Ended : Type :=
| Ran (run : Run)
| UncaughtOverflowError.

(** The command [week].  The end of the window is computed before the
    accounts are resolved.  (The days of the grid lie between the week of
    today and that end.) *)
Definition cli_week (env : Env) (weeks : Z) (account : option string)
    (calendar_filter : list string) : M Ended :=
  now ← now_utc env;
  match add_weeks now weeks with
  | None => mret UncaughtOverflowError
  | Some time_max =>
      match _resolve_accounts env account with
      | inl run => mret (Ran run)
      | inr accounts =>
          events ← get_all_events env (Some accounts) (Some now) (Some time_max) None
                     (cal_filter_of calendar_filter);
          tables ← print_week env events weeks None true;
          mret (Ran (mk_Run [WeekView tables] 0))
      end
  end.

(** The command [month]. *)
Definition cli_month (env : Env) (account : option string)
    (calendar_filter : list string) : M Run :=
  let '(year, month, _) := ord2ymd (env_today env) in
  let last_day := (monthrange year month).2 in
  let time_min := datetime_of year month 1 0 0 0 0 (Some timezone_utc) in
  let time_max := datetime_of year month last_day 23 59 59 0 (Some timezone_utc) in
  match _resolve_accounts env account with
  | inl run => mret run
  | inr accounts =>
      events ← get_all_events env (Some accounts) (Some time_min) (Some time_max) None
                 (cal_filter_of calendar_filter);
      view ← print_month env events None true;
      mret (mk_Run [MonthGrid view] 0)
  end.

(** The command [search]. *)
Definition cli_search (env : Env) (text : string) (account : option string)
    (calendar_filter : list string) : M Run :=
  match _resolve_accounts env account with
  | inl run => mret run
  | inr accounts =>
      events ← search_events env text (Some accounts) None None
                 (cal_filter_of calendar_filter);
      match events with
      | [] => mret (mk_Run [Printed ("[dim]No events matching '" +:+ text +:+ "'[/dim]")] 0)
      | _ :: _ =>
          lines ← print_agenda events true;
          mret (mk_Run (map Printed lines) 0)
      end
  end.

(** The loop of the command [list] over the accounts: the calendars
    listed and the error lines printed. *)
Fixpoint list_all_calendars (env : Env) (accounts : list string)
    (all_cals : list Calendar) (errors : list string)
    : M (list Calendar * list string) :=
  match accounts with
  | [] => mret (all_cals, errors)
  | name :: rest =>
      outcome ← try_ (list_calendars env name);
      match outcome with
      | Ok cals => list_all_calendars env rest (all_cals ++ cals) errors
      | Raise e =>
          list_all_calendars env rest all_cals
            (errors ++ ["[red]Error (" +:+ name +:+ "):[/red] " +:+ str_exn e])
      end
  end.

(** The command [list]. *)
Definition cli_list (env : Env) (account : option string)
    (calendar_filter : list string) : M Run :=
  match _resolve_accounts env account with
  | inl run => mret run
  | inr accounts =>
      '(all_cals, errors) ← list_all_calendars env accounts [] [];
      let all_cals :=
        match calendar_filter with
        | [] => all_cals
        | _ :: _ =>
            filter (λ cal, existsb (λ f, str_contains (lower f) (lower (cal_summary cal)))
                             calendar_filter = true) all_cals
        end in
      rows ← print_calendars all_cals;
      mret (mk_Run (map Printed errors ++ [CalendarsTable rows]) 0)
  end.


(** A Calendar API for the examples: every write is accepted and answered
    with the item of the all-day holiday. *)
Definition demo_write_api : WriteApi :=
  mk_WriteApi (λ _ _ _, Ok Demo.holiday) (λ _ _ _, Ok Demo.holiday) (λ _ _ _, Ok tt).

(** ** accounts.py, with what it uses of config.py and auth.py

    The account operations act on the configuration directory.  A [Disk] is
    what they read and write there: the entries of [ACCOUNTS_DIR], each
    with whether it holds [token.json], and the object of [config.json]
    when the file exists.  The entries are plain directories, so that
    [get_account_dir name] is the entry [name]; file operations succeed; and
    [config.json] holds a JSON object whose [default_account], when the key
    is there, is a string or null. *)

Record Config : Type := mk_Config {
  (** [None]: no such key; [Some None]: null *)
  cfg_default_account : option (option string);
  (** [display]: [military_time] and [week_start_monday] *)
  cfg_display : option (bool * bool)
}.

Definition DEFAULT_CONFIG : Config := mk_Config (Some None) (Some (true, true)).

Record Disk : Type := mk_Disk {
  disk_accounts : gmap string bool;
  disk_config : option Config
}.

(** The members of a [client_secret.json]. *)
Definition ClientConfig : Type := list (string * string).

(** What the OAuth side supplies: the client secret files, and the outcome
    of [InstalledAppFlow.from_client_config(...).run_local_server(...)]. *)
Record OAuth : Type := mk_OAuth {
  oauth_account_secret : string → option ClientConfig;
  oauth_global_secret : option ClientConfig;
  oauth_run_flow : ClientConfig → result Credentials
}.

(** The exceptions of the account operations: those of the fetcher, and
    the [FileNotFoundError] of [authenticate]. *)
Inductive acc_exn : Type :=
| Exn (e : exn)
| FileNotFoundError (msg : string).

Inductive acc_result (A : Type) : Type :=
| Returned (a : A)
| Raised (e : acc_exn).
Arguments Returned {A} a.
Arguments Raised {A} e.

Definition D (A : Type) : Type := Disk → acc_result A * Disk.

#[global] Instance D_ret : MRet D := λ A a d, (Returned a, d).
#[global] Instance D_bind : MBind D := λ A B k m d,
  match m d with
  | (Returned a, d') => k a d'
  | (Raised e, d') => (Raised e, d')
  end.

Definition acc_raise {A} (e : acc_exn) : D A := λ d, (Raised e, d).

Definition acc_lift {A} (r : result A) : D A := λ d,
  (match r with Ok a => Returned a | Raise e => Raised (Exn e) end, d).

(** Reading and changing the disk. *)
Definition disk_gets {A} (f : Disk → A) : D A := λ d, (Returned (f d), d).
Definition disk_modify (f : Disk → Disk) : D unit := λ d, (Returned tt, f d).

(** The order of [sorted] on [str]. *)
Definition str_le (a b : string) : Prop := String.leb a b = true.

#[global] Instance str_le_dec a b : Decision (str_le a b).
Proof. unfold str_le. apply _. Defined.

(** [config.list_account_names]: the directories of [ACCOUNTS_DIR] that
    hold a token file, sorted. *)
Definition list_account_names (d : Disk) : list string :=
  merge_sort str_le
    (map fst (filter (λ kv : string * bool, kv.2 = true) (map_to_list (disk_accounts d)))).

Definition save_config (config : Config) : D unit :=
  disk_modify (λ d, mk_Disk (disk_accounts d) (Some config)).

(** [config.load_config]: the first call writes the defaults. *)
Definition load_config : D Config := λ d,
  match disk_config d with
  | Some cfg => (Returned cfg, d)
  | None => (_ ← save_config DEFAULT_CONFIG; mret DEFAULT_CONFIG) d
  end.

(** [config.get_client_secret]: the file of the account first, then the
    global one. *)
Definition get_client_secret (env : Env) (oauth : OAuth) (account_name : string)
    : result (option ClientConfig) :=
  match account_name with
  | "" => Ok (oauth_global_secret oauth)
  | _ =>
      _ ← get_account_dir env account_name;
      match oauth_account_secret oauth account_name with
      | Some c => Ok (Some c)
      | None => Ok (oauth_global_secret oauth)
      end
  end.

Definition CLIENT_SECRET_FILE (env : Env) : string :=
  path_join (env_config_dir env) "client_secret.json".

(** [(account_dir / "token.json").exists()]. *)
Definition token_exists (d : Disk) (name : string) : bool :=
  bool_decide (disk_accounts d !! name = Some true).

(** [auth.save_credentials]: creates the directory of the account when it
    is missing and writes the token file. *)
Definition save_credentials (env : Env) (account_name : string) (creds : Credentials)
    : D unit :=
  _ ← acc_lift (_token_path env account_name);
  disk_modify (λ d, mk_Disk (<[account_name := true]> (disk_accounts d)) (disk_config d)).

Definition client_secret_not_found (env : Env) (dir : string) : string :=
  "OAuth client secret not found." +:+ newline
  +:+ "Place client_secret.json in:" +:+ newline
  +:+ "  Per-account: " +:+ dir +:+ "/client_secret.json" +:+ newline
  +:+ "  Or global:   " +:+ CLIENT_SECRET_FILE env.

(** [auth.authenticate]. *)
Definition authenticate (env : Env) (oauth : OAuth) (account_name : string)
    : D Credentials :=
  client_config ← acc_lift (get_client_secret env oauth account_name);
  match client_config with
  | Some (m :: ms) =>
      creds ← acc_lift (oauth_run_flow oauth (m :: ms));
      _ ← save_credentials env account_name creds;
      mret creds
  | _ =>
      dir ← acc_lift (get_account_dir env account_name);
      acc_raise (FileNotFoundError (client_secret_not_found env dir))
  end.

(** [auth.remove_credentials]: [shutil.rmtree] of the directory of the
    account, when it exists. *)
Definition remove_credentials (env : Env) (account_name : string) : D unit :=
  _ ← acc_lift (get_account_dir env account_name);
  disk_modify (λ d, mk_Disk (delete account_name (disk_accounts d)) (disk_config d)).

Definition already_exists (name : string) : exn :=
  ValueError ("Account '" +:+ name +:+ "' already exists. Remove it first.").

Definition not_found (name : string) : exn :=
  ValueError ("Account '" +:+ name +:+ "' not found.").

(** [accounts.add_account]: returns the address of the account. *)
Definition add_account (env : Env) (oauth : OAuth) (name : string) : D string :=
  _ ← acc_lift (get_account_dir env name);
  exists_ ← disk_gets (λ d, token_exists d name);
  if exists_ : bool then acc_raise (Exn (already_exists name))
  else
    creds ← authenticate env oauth name;
    service ← acc_lift (env_build env creds);
    calendar ← acc_lift (svc_calendars_get service "primary");
    let email := default "unknown" (ci_id calendar) in
    cfg ← load_config;
    default_account ← acc_lift (getitem "default_account" (cfg_default_account cfg));
    match default_account with
    | None =>
        _ ← save_config (mk_Config (Some (Some name)) (cfg_display cfg));
        mret email
    | Some _ => mret email
    end.

(** [accounts.remove_account]. *)
Definition remove_account (env : Env) (name : string) : D unit :=
  names ← disk_gets list_account_names;
  if bool_decide (name ∈ names) then
    _ ← remove_credentials env name;
    cfg ← load_config;
    default_account ← acc_lift (getitem "default_account" (cfg_default_account cfg));
    if bool_decide (default_account = Some name) then
      remaining ← disk_gets list_account_names;
      save_config (mk_Config (Some (head remaining)) (cfg_display cfg))
    else mret tt
  else acc_raise (Exn (not_found name)).

(** [accounts.list_accounts]: the name and the default mark of every
    account. *)
Definition list_accounts : D (list (string * bool)) :=
  names ← disk_gets list_account_names;
  cfg ← load_config;
  mret (map (λ name, (name, bool_decide (Some name = mjoin (cfg_default_account cfg))))
            names).

(** The default account recorded on the disk, if any. *)
Definition default_account_of (d : Disk) : option string :=
  cfg ← disk_config d; mjoin (cfg_default_account cfg).

(** The default account, when one is recorded, is a registered account. *)
Definition default_registered (d : Disk) : Prop :=
  ∀ name, default_account_of d = Some name → name ∈ list_account_names d.

(** A configuration directory and an OAuth side for the examples. *)
Definition demo_disk : Disk :=
  mk_Disk {[ "home" := true; "work" := true ]}
          (Some (mk_Config (Some (Some "home")) (Some (true, true)))).

Definition demo_oauth : OAuth :=
  mk_OAuth (λ _, None) (Some [("installed", "...")]) (λ _, Ok "token-home").
(** * Properties *)

(** ** Sanity checks of the model *)

Example ymd2ord_2024_03_01 : ymd2ord 2024 3 1 = 738946.
Proof. reflexivity. Qed.

Example ord2ymd_738946 : ord2ymd 738946 = (2024, 3, 1).
Proof. reflexivity. Qed.

Example strftime_a_md_ex : strftime_a_md 738946 = "Fri 03/01".
Proof. reflexivity. Qed.

Example strftime_HM_ex :
  strftime_HM (datetime_of 2024 3 1 9 5 30 0 (Some KST)) = "09:05".
Proof. reflexivity. Qed.

Example strptime_ymd_ex : strptime_ymd "2024-03-01" = Ok (datetime_of 2024 3 1 0 0 0 0 None).
Proof. reflexivity. Qed.

Example strptime_ymd_short : strptime_ymd "2024-3-1" = Ok (datetime_of 2024 3 1 0 0 0 0 None).
Proof. reflexivity. Qed.

Example strptime_ymd_month13 : strptime_ymd "2024-13-01" = Raise (strptime_error "2024-13-01").
Proof. reflexivity. Qed.

Example strptime_ymd_feb30 :
  strptime_ymd "2024-02-30" = Raise (ValueError "day is out of range for month").
Proof. reflexivity. Qed.

(** ** Reasoning in the monad *)

Lemma M_bind_Ok {A B} (m : M A) (k : A → M B) st a st1 :
  m st = (Ok a, st1) → (m ≫= k) st = k a st1.
Proof. intros H. unfold mbind, M_bind. by rewrite H. Qed.

Lemma M_bind_Raise {A B} (m : M A) (k : A → M B) st e st1 :
  m st = (Raise e, st1) → (m ≫= k) st = (Raise e, st1).
Proof. intros H. unfold mbind, M_bind. by rewrite H. Qed.

Lemma M_bind_inv_Ok {A B} (m : M A) (k : A → M B) st b st2 :
  (m ≫= k) st = (Ok b, st2) →
  ∃ a st1, m st = (Ok a, st1) ∧ k a st1 = (Ok b, st2).
Proof.
  unfold mbind, M_bind. destruct (m st) as [[a|e] st1]; [eauto | discriminate].
Qed.

Lemma lift_inv_Ok {A} (r : result A) st a st1 :
  lift r st = (Ok a, st1) → r = Ok a ∧ st1 = st.
Proof. unfold lift. by intros [= -> ->]. Qed.

Lemma result_bind_inv_Ok {A B} (r : result A) (k : A → result B) b :
  r ≫= k = Ok b → ∃ a, r = Ok a ∧ k a = Ok b.
Proof. destruct r as [a|e]; [eauto | discriminate]. Qed.

Ltac inv_bind H :=
  lazymatch type of H with
  | (_ ≫= _) _ = (Ok _, _) =>
      let a := fresh "a" in let st := fresh "st" in
      let H1 := fresh "Hm" in let H2 := fresh in
      apply M_bind_inv_Ok in H; destruct H as (a & st & H1 & H2); rename H2 into H
  | _ ≫= _ = Ok _ =>
      let a := fresh "a" in let H1 := fresh "Hr" in let H2 := fresh in
      apply result_bind_inv_Ok in H; destruct H as (a & H1 & H2); rename H2 into H
  end.

(** ** What the fetcher produces *)

Section Fetched.
Context {A B : Type} (f : A → result (option B)) (P : B → Prop).
Hypothesis f_P : ∀ x b, f x = Ok (Some b) → P b.

Lemma convert_items_Forall items l :
  convert_items f items = Ok l → Forall P l.
Proof.
  revert l. induction items as [|x xs IH]; simpl; intros l H.
  - injection H as <-. constructor.
  - inv_bind H. inv_bind H. injection H as <-.
    destruct a as [b|]; [constructor|]; eauto.
Qed.

Lemma paginate_Forall p l : paginate f p = Ok l → Forall P l.
Proof.
  revert l. induction p as [items|items tok rest IH|e]; simpl; intros l H.
  - by eapply convert_items_Forall.
  - inv_bind H. apply convert_items_Forall in Hr.
    destruct (String.eqb tok ""); [by injection H as <-|].
    inv_bind H. injection H as <-. apply Forall_app. eauto.
  - discriminate.
Qed.
End Fetched.

Lemma astimezone_inv dt tz r :
  astimezone dt tz = Ok r → r = mk_dt (utc_instant dt + tz) (Some tz).
Proof. unfold astimezone. destruct (_ && _); [by intros [= <-]|discriminate]. Qed.

Lemma parse_event_time_aware env time_obj dt all_day :
  _parse_event_time env time_obj = Ok (dt, all_day) → dt_tzinfo dt = Some KST.
Proof.
  unfold _parse_event_time. destruct (to_date time_obj) as [s|]; intros H.
  - inv_bind H. by injection H as <- <-.
  - inv_bind H. inv_bind H. inv_bind H. injection H as <- <-.
    by apply astimezone_inv in Hr1 as ->.
Qed.

Lemma event_of_item_fetched env account_name calendar_id cal_name item e :
  event_of_item env account_name calendar_id cal_name item = Ok (Some e) →
  fetched_for account_name e.
Proof.
  unfold event_of_item. intros H.
  destruct (bool_decide (ei_status item = Some "cancelled")); [discriminate|].
  inv_bind H. destruct a as [start_time all_day].
  inv_bind H. destruct a as [end_time ?].
  inv_bind H. injection H as <-.
  apply parse_event_time_aware in Hr, Hr0. by repeat split.
Qed.

Lemma get_events_fetched env account_name time_min time_max query calendar_id st l st1 :
  get_events env account_name time_min time_max query calendar_id st = (Ok l, st1) →
  Forall (fetched_for account_name) l.
Proof.
  unfold get_events. intros H. inv_bind H. inv_bind H.
  apply lift_inv_Ok in H as [H _].
  eapply paginate_Forall; [|exact H].
  intros x b. apply event_of_item_fetched.
Qed.

Lemma fetch_account_loop_fetched env name time_min time_max query calendar_filter
    calendars events st l st1 :
  Forall (fetched_for name) events →
  _fetch_account_loop env name time_min time_max query calendar_filter events calendars st
    = (Ok l, st1) →
  Forall (fetched_for name) l.
Proof.
  revert events st. induction calendars as [|cal rest IH]; simpl; intros events st Hev H.
  - by injection H as <- _.
  - destruct (eligible calendar_filter cal); [|by eauto].
    inv_bind H. apply get_events_fetched in Hm.
    eapply IH; [|exact H]. by apply Forall_app.
Qed.

Lemma fetch_account_fetched env time_min time_max query calendar_filter name st l st1 :
  _fetch_account env time_min time_max query calendar_filter name st = (Ok l, st1) →
  Forall (fetched_for name) l.
Proof.
  unfold _fetch_account. intros H. inv_bind H.
  eapply fetch_account_loop_fetched; [|exact H]. constructor.
Qed.

(** ** The sort *)

Lemma insert_by_start_Permutation x l : insert_by_start x l ≡ₚ x :: l.
Proof.
  induction l as [|y l IH]; simpl; [done|].
  destruct (start_lt y x); [|done].
  rewrite IH. apply perm_swap.
Qed.

Lemma stable_sort_by_start_Permutation l : stable_sort_by_start l ≡ₚ l.
Proof.
  induction l as [|x l IH]; simpl; [done|].
  by rewrite insert_by_start_Permutation, IH.
Qed.

Lemma insert_by_start_sorted x l :
  StronglySorted start_le l → StronglySorted start_le (insert_by_start x l).
Proof.
  induction 1 as [|y l Hs IH Hy]; simpl.
  - repeat constructor.
  - destruct (start_lt y x) eqn:E; unfold start_lt in E.
    + constructor; [done|].
      rewrite insert_by_start_Permutation. constructor; [|done].
      unfold start_le. lia.
    + constructor; [by constructor|].
      constructor; [unfold start_le; lia|].
      eapply Forall_impl; [exact Hy|]. unfold start_le. intros z Hz. lia.
Qed.

Lemma stable_sort_by_start_sorted l : StronglySorted start_le (stable_sort_by_start l).
Proof.
  induction l as [|x l IH]; simpl; [constructor|].
  by apply insert_by_start_sorted.
Qed.

Lemma sort_by_start_aware l :
  Forall (λ e, is_Some (dt_tzinfo (ev_start e))) l →
  sort_by_start l = Ok (stable_sort_by_start l).
Proof.
  intros H. unfold sort_by_start.
  replace (forallb (λ e, is_aware (ev_start e)) l) with true; [done|].
  symmetry. apply forallb_forall. intros e He.
  rewrite Forall_forall in H. apply list_elem_of_In, H in He as [tz Htz].
  unfold is_aware. by rewrite Htz.
Qed.

(** ** Completion order *)

Lemma as_completed_Permutation {A} (pick : nat → nat) (l : list A) :
  as_completed pick (length l) l ≡ₚ l.
Proof.
  remember (length l) as n eqn:Hn. revert l Hn.
  induction n as [|n IH]; intros l Hn.
  - by destruct l.
  - destruct l as [|x l]; [done|]. cbn [as_completed].
    set (k := (pick n mod length (x :: l))%nat).
    assert (k < length (x :: l))%nat as Hk
      by (apply Nat.mod_upper_bound; simpl; lia).
    destruct (lookup_lt_is_Some_2 _ _ Hk) as [y Hy].
    rewrite (nth_lookup_Some _ _ _ _ Hy).
    rewrite IH.
    + rewrite <- (take_drop_middle _ _ _ Hy) at 3.
      by rewrite Permutation_middle.
    + rewrite length_app, length_take, length_drop. simpl in *. lia.
Qed.

(** ** The aggregate fetch as a trace of task outcomes *)

Lemma collect_futures_outcomes env time_min time_max query calendar_filter
    completed all_events st :
  ∃ st',
    collect_futures env time_min time_max query calendar_filter all_events completed st
    = (Ok (all_events
           ++ flat_map (outcome_events env)
                (task_outcomes env time_min time_max query calendar_filter completed st)),
       st').
Proof.
  revert all_events st. induction completed as [|account rest IH]; intros all_events st.
  - simpl. rewrite app_nil_r. by eexists.
  - cbn [collect_futures task_outcomes]. unfold mbind at 1, M_bind at 1, try_.
    destruct (_fetch_account env time_min time_max query calendar_filter account st)
      as [[events|e] st1].
    + destruct (IH (all_events ++ events) st1) as [st' ->].
      exists st'. cbn [flat_map outcome_events]. by rewrite app_assoc.
    + destruct (IH (all_events ++ [error_event account e (clock_utc env (st_ticks st1))
                                     (clock_utc env (S (st_ticks st1)))])
                  (after_error st1)) as [st' Hst'].
      exists st'. cbn [flat_map outcome_events].
      rewrite (app_assoc all_events). exact Hst'.
Qed.

Lemma task_outcomes_ok env time_min time_max query calendar_filter completed st :
  Forall outcome_ok
    (task_outcomes env time_min time_max query calendar_filter completed st).
Proof.
  revert st. induction completed as [|account rest IH]; intros st; simpl; [constructor|].
  destruct (_fetch_account env time_min time_max query calendar_filter account st)
    as [r st1] eqn:E.
  constructor; [|apply IH].
  intros events Hr. simpl in Hr. subst r. by eapply fetch_account_fetched.
Qed.

Lemma task_outcomes_accounts env time_min time_max query calendar_filter completed st :
  map (λ o, o.1.1)
    (task_outcomes env time_min time_max query calendar_filter completed st)
  = completed.
Proof.
  revert st. induction completed as [|account rest IH]; intros st; simpl; [done|].
  destruct (_fetch_account env time_min time_max query calendar_filter account st)
    as [r st1].
  simpl. by rewrite IH.
Qed.

Lemma outcome_events_aware env outs :
  Forall outcome_ok outs →
  Forall (λ e, is_Some (dt_tzinfo (ev_start e))) (flat_map (outcome_events env) outs).
Proof.
  induction 1 as [|[[account r] n] outs Ho _ IH]; simpl; [constructor|].
  apply Forall_app. split; [|done].
  destruct r as [events|e].
  - eapply Forall_impl; [exact (Ho events eq_refl)|].
    intros ev (Hs & _). rewrite Hs. by eexists.
  - repeat constructor. simpl. by eexists.
Qed.

(** [get_all_events] on a non-empty account list: it returns, and what it
    returns is the stable sort of the outcomes' events. *)
Lemma get_all_events_outcomes env names time_min time_max query calendar_filter st :
  names ≠ [] →
  ∃ st',
    get_all_events env (Some names) time_min time_max query calendar_filter st
    = (Ok (stable_sort_by_start
             (flat_map (outcome_events env)
                (task_outcomes env time_min time_max query calendar_filter
                   (as_completed (env_pick env) (length names) names) st))),
       st').
Proof.
  intros Hne. unfold get_all_events. simpl.
  destruct names as [|name names']; [done|].
  destruct (collect_futures_outcomes env time_min time_max query calendar_filter
              (as_completed (env_pick env) (length (name :: names')) (name :: names'))
              [] st) as [st' Hc].
  exists st'. erewrite M_bind_Ok; [|exact Hc].
  unfold lift. rewrite app_nil_l, sort_by_start_aware; [done|].
  apply outcome_events_aware, task_outcomes_ok.
Qed.

(** ** State invariants of the fetcher *)

Lemma preserves_bind {A B} P (m : M A) (k : A → M B) :
  preserves P m → (∀ a, preserves P (k a)) → preserves P (m ≫= k).
Proof.
  intros Hm Hk st Hst. unfold mbind, M_bind.
  specialize (Hm st Hst). destruct (m st) as [[a|e] st1]; simpl in *; [|done].
  by apply Hk.
Qed.

Lemma preserves_lift {A} P (r : result A) : preserves P (lift r).
Proof. by intros st. Qed.

Lemma preserves_ret {A} P (a : A) : preserves P (mret a).
Proof. by intros st. Qed.

Lemma load_credentials_valid env account_name creds :
  load_credentials env account_name = Ok creds →
  validate_account_name account_name = Ok account_name.
Proof.
  unfold load_credentials, _token_path, get_account_dir. intros H.
  inv_bind H. inv_bind Hr. inv_bind Hr0.
  unfold validate_account_name in *.
  by destruct (negb (re_match_account_name account_name)).
Qed.

(** An account name that fails validation never enters [_service_cache]. *)
Section Uncached.
Context (env : Env) (name : string) (e : exn).
Hypothesis invalid : validate_account_name name = Raise e.

Lemma get_service_uncached account_name :
  preserves (uncached name) (get_service env account_name).
Proof.
  intros st Hst. unfold get_service, mbind, M_bind, get_state, lift, raise, put_state.
  destruct (st_service_cache st !! account_name); [done|].
  destruct (load_credentials env account_name) as [[creds|]|] eqn:E; simpl; try done.
  apply load_credentials_valid in E.
  destruct (env_build env creds); simpl; [|done].
  unfold uncached in *. simpl. rewrite lookup_insert_ne; [done|].
  intros ->. congruence.
Qed.

Lemma now_utc_uncached : preserves (uncached name) (now_utc env).
Proof. by intros st. Qed.

Lemma get_events_uncached account_name time_min time_max query calendar_id :
  preserves (uncached name)
    (get_events env account_name time_min time_max query calendar_id).
Proof.
  unfold get_events. apply preserves_bind; [apply get_service_uncached|].
  intros service. apply preserves_bind.
  - destruct time_min; [apply preserves_ret | apply now_utc_uncached].
  - intros t. apply preserves_lift.
Qed.

Lemma fetch_account_loop_uncached account_name time_min time_max query
    calendar_filter events calendars :
  preserves (uncached name)
    (_fetch_account_loop env account_name time_min time_max query calendar_filter
       events calendars).
Proof.
  revert events. induction calendars as [|cal rest IH]; intros events; simpl.
  - apply preserves_ret.
  - destruct (eligible calendar_filter cal); [|apply IH].
    apply preserves_bind; [apply get_events_uncached|]. intros more. apply IH.
Qed.

Lemma fetch_account_uncached time_min time_max query calendar_filter account_name :
  preserves (uncached name)
    (_fetch_account env time_min time_max query calendar_filter account_name).
Proof.
  unfold _fetch_account, list_calendars.
  apply preserves_bind.
  - apply preserves_bind; [apply get_service_uncached|].
    intros service. apply preserves_lift.
  - intros calendars. apply fetch_account_loop_uncached.
Qed.

(** The task of an invalid, uncached name raises the validation error
    and leaves the state as it was. *)
Lemma fetch_account_invalid time_min time_max query calendar_filter st :
  uncached name st →
  _fetch_account env time_min time_max query calendar_filter name st = (Raise e, st).
Proof.
  intros Hst. unfold _fetch_account, list_calendars, get_service.
  unfold mbind, M_bind, get_state, lift. rewrite Hst.
  unfold load_credentials, _token_path, get_account_dir. by rewrite invalid.
Qed.

Lemma task_outcomes_invalid time_min time_max query calendar_filter completed st :
  uncached name st → name ∈ completed →
  ∃ n, (name, Raise e, n)
       ∈ task_outcomes env time_min time_max query calendar_filter completed st.
Proof.
  revert st. induction completed as [|account rest IH]; intros st Hst Hin.
  - by apply elem_of_nil in Hin.
  - cbn [task_outcomes]. destruct (decide (account = name)) as [->|Hne].
    + rewrite fetch_account_invalid by done.
      eexists. apply list_elem_of_here.
    + apply elem_of_cons in Hin as [->|Hin]; [done|].
      pose proof (fetch_account_uncached time_min time_max query calendar_filter
                    account st Hst) as Hst1.
      destruct (_fetch_account env time_min time_max query calendar_filter account st)
        as [r st1].
      simpl in Hst1.
      destruct (IH (match r with Ok _ => st1 | Raise _ => after_error st1 end))
        as [n Hn]; [by destruct r | done |].
      exists n. by apply list_elem_of_further.
Qed.
End Uncached.

(** ** The aggregate fetch: claims *)

(** C1.  For every non-empty list of account names and every window,
    [get_all_events] returns, and the list it returns is sorted
    non-decreasingly by the start instant of its events, the synthetic
    error events included. *)
Theorem C1_get_all_events_sorted env names time_min time_max query calendar_filter st :
  names ≠ [] →
  ∃ evs st',
    get_all_events env (Some names) time_min time_max query calendar_filter st
    = (Ok evs, st')
    ∧ StronglySorted start_le evs.
Proof.
  intros Hne.
  destruct (get_all_events_outcomes env names time_min time_max query calendar_filter
              st Hne) as [st' H].
  eexists _, st'. split; [exact H|]. apply stable_sort_by_start_sorted.
Qed.

Lemma C1_witness :
  ["work"; "home"] ≠ []
  ∧ ∃ evs st',
      get_all_events Demo.env (Some ["work"; "home"]) None None None None initial_state
      = (Ok evs, st')
      ∧ StronglySorted start_le evs.
Proof.
  split; [discriminate|].
  apply (C1_get_all_events_sorted Demo.env ["work"; "home"]). discriminate.
Defined.

Lemma outcome_events_other_account env outs bad :
  Forall outcome_ok outs → Forall outcome_succeeded outs →
  bad ∉ map (λ o, o.1.1) outs →
  Forall (λ ev, ev_account_name ev ≠ bad) (flat_map (outcome_events env) outs).
Proof.
  induction 1 as [|[[account r] n] outs Ho _ IH]; simpl; [constructor|].
  intros Hs Hbad. apply Forall_cons in Hs as [[events Hev] Hs]. simpl in Hev. subst r.
  apply not_elem_of_cons in Hbad as [Hne Hbad].
  apply Forall_app. split; [|by apply IH].
  eapply Forall_impl; [exact (Ho events eq_refl)|].
  intros ev (_ & _ & Hacc). simpl in Hacc. congruence.
Qed.

Lemma filter_none {A} (P : A → Prop) `{∀ x, Decision (P x)} (l : list A) :
  Forall (λ x, ¬ P x) l → filter P l = [].
Proof.
  induction 1 as [|x l Hx _ IH]; [done|].
  by rewrite filter_cons_False.
Qed.

(** C2, amended.  When exactly one account's task raises and the others
    succeed, [get_all_events] returns the events of the other accounts and
    one synthetic error event for the failing account, which carries the
    account name, the error description and status [error].  That event is
    the only event of the failing account in the result: whatever the task
    had fetched from the account's calendars before it failed is not
    returned. *)
Theorem C2_one_failing_account env names time_min time_max query calendar_filter st
    bad e n pre post :
  names ≠ [] → NoDup names →
  task_outcomes env time_min time_max query calendar_filter
    (as_completed (env_pick env) (length names) names) st
  = pre ++ (bad, Raise e, n) :: post →
  Forall outcome_succeeded (pre ++ post) →
  let err := error_event bad e (clock_utc env n) (clock_utc env (S n)) in
  ∃ evs st',
    get_all_events env (Some names) time_min time_max query calendar_filter st
    = (Ok evs, st')
    ∧ evs ≡ₚ err :: flat_map (outcome_events env) (pre ++ post)
    ∧ filter (λ ev, ev_account_name ev = bad) evs = [err]
    ∧ ev_status err = "error"
    ∧ ev_summary err = "[Error: " +:+ bad +:+ "] " +:+ str_exn e.
Proof.
  intros Hne Hnd Houts Hsucc err.
  destruct (get_all_events_outcomes env names time_min time_max query calendar_filter
              st Hne) as [st' H].
  pose proof (task_outcomes_ok env time_min time_max query calendar_filter
                (as_completed (env_pick env) (length names) names) st) as Hok.
  pose proof (task_outcomes_accounts env time_min time_max query calendar_filter
                (as_completed (env_pick env) (length names) names) st) as Hacc.
  rewrite Houts in H, Hok, Hacc.
  assert (stable_sort_by_start
            (flat_map (outcome_events env) (pre ++ (bad, Raise e, n) :: post))
          ≡ₚ err :: flat_map (outcome_events env) (pre ++ post)) as Hperm.
  { rewrite stable_sort_by_start_Permutation, !flat_map_app. simpl.
    by rewrite <- Permutation_middle. }
  assert (bad ∉ map (λ o, o.1.1) (pre ++ post)) as Hbad.
  { assert (NoDup (map (λ o : string * result (list Event) * nat, o.1.1)
                     (pre ++ (bad, Raise e, n) :: post))) as Hnd'.
    { rewrite Hacc. by rewrite as_completed_Permutation. }
    rewrite map_app in Hnd'. simpl in Hnd'.
    apply NoDup_app in Hnd' as (Hpre & Hdisj & Hpost).
    apply NoDup_cons in Hpost as [Hpost _].
    rewrite map_app. intros [Hin|Hin]%elem_of_app; [|done].
    apply (Hdisj _ Hin), list_elem_of_here. }
  assert (Forall outcome_ok (pre ++ post)) as Hok'.
  { apply Forall_app. apply Forall_app in Hok as [Hp Hq].
    apply Forall_cons in Hq as [_ Hq]. done. }
  eexists _, st'. split; [exact H|]. split; [exact Hperm|].
  split; [|done].
  apply Permutation_singleton_r.
  rewrite Hperm, filter_cons_True by done.
  rewrite (filter_none (λ ev, ev_account_name ev = bad)); [done|].
  by apply outcome_events_other_account.
Qed.

Lemma C2_witness :
  let env := Demo.env in
  let names := ["work"; "home"] in
  let bad := "work" in
  let e := RemoteError "503 Service Unavailable" in
  let post := [("home", Ok [Demo.holiday_event], 5%nat)] in
  let err := error_event bad e (clock_utc env 2) (clock_utc env 3) in
  names ≠ [] ∧ NoDup names
  ∧ task_outcomes env None None None None
      (as_completed (env_pick env) (length names) names) initial_state
    = [] ++ (bad, Raise e, 2%nat) :: post
  ∧ Forall outcome_succeeded ([] ++ post)
  ∧ ∃ evs st',
      get_all_events env (Some names) None None None None initial_state = (Ok evs, st')
      ∧ evs ≡ₚ err :: flat_map (outcome_events env) ([] ++ post)
      ∧ filter (λ ev, ev_account_name ev = bad) evs = [err]
      ∧ ev_status err = "error"
      ∧ ev_summary err = "[Error: " +:+ bad +:+ "] " +:+ str_exn e.
Proof.
  intros env names bad e post err.
  assert (names ≠ []) as Hne by discriminate.
  assert (NoDup names) as Hnd.
  { repeat constructor; [|apply not_elem_of_nil].
    intros [H|H]%elem_of_cons; [discriminate H | by apply elem_of_nil in H]. }
  assert (task_outcomes env None None None None
            (as_completed (env_pick env) (length names) names) initial_state
          = [] ++ (bad, Raise e, 2%nat) :: post) as Houts by (vm_compute; reflexivity).
  assert (Forall outcome_succeeded ([] ++ post)) as Hs.
  { repeat constructor. by eexists. }
  repeat split; try assumption.
  exact (C2_one_failing_account env names None None None None initial_state
           bad e 2%nat [] post Hne Hnd Houts Hs).
Defined.

(** C2 as stated fails: [work] lists the calendars [team] and [ops]; the
    events of [team] are fetched, then the listing of [ops] fails.  The
    result holds the error event of [work] and the event of [home], but not
    the event already fetched from [team]. *)
Lemma C2_counterexample :
  let env := Demo.env in
  (get_events env "work" None None None "team" initial_state).1
    = Ok [Demo.standup_event]
  ∧ (_fetch_account env None None None None "work" initial_state).1
    = Raise (RemoteError "503 Service Unavailable")
  ∧ (_fetch_account env None None None None "home" initial_state).1
    = Ok [Demo.holiday_event]
  ∧ ∃ evs,
      (get_all_events env (Some ["work"; "home"]) None None None None initial_state).1
      = Ok evs
      ∧ length evs = 2%nat
      ∧ ¬ In Demo.standup_event evs.
Proof.
  cbv zeta. split; [vm_compute; reflexivity|].
  split; [vm_compute; reflexivity|].
  split; [vm_compute; reflexivity|].
  eexists. split; [vm_compute; reflexivity|].
  split; [reflexivity|].
  simpl. intros [H|[H|[]]]; discriminate H.
Qed.

(** C3, amended.  An account name that fails validation (and has no cached
    service) does not make [get_all_events] raise: the [ValueError] is
    caught at the task boundary like any other exception, and the result
    holds a synthetic error event for that name with the validation
    message. *)
Theorem C3_invalid_name_is_isolated env names time_min time_max query calendar_filter
    st name e :
  name ∈ names →
  validate_account_name name = Raise e →
  st_service_cache st !! name = None →
  ∃ evs st' n,
    get_all_events env (Some names) time_min time_max query calendar_filter st
    = (Ok evs, st')
    ∧ error_event name e (clock_utc env n) (clock_utc env (S n)) ∈ evs.
Proof.
  intros Hin Hinv Hst.
  assert (names ≠ []) as Hne by (intros ->; by apply elem_of_nil in Hin).
  destruct (get_all_events_outcomes env names time_min time_max query calendar_filter
              st Hne) as [st' H].
  destruct (task_outcomes_invalid env name e Hinv time_min time_max query calendar_filter
              (as_completed (env_pick env) (length names) names) st Hst) as [n Hn].
  { by rewrite as_completed_Permutation. }
  eexists _, st', n. split; [exact H|].
  rewrite stable_sort_by_start_Permutation.
  apply list_elem_of_In, in_flat_map.
  eexists. split; [apply list_elem_of_In, Hn|]. simpl. by left.
Qed.

Lemma C3_witness :
  let env := Demo.env in
  let name := "../evil" in
  let e := ValueError ("Invalid account name '../evil'. "
                       +:+ "Use only letters, numbers, hyphens, and underscores.") in
  name ∈ ["home"; name]
  ∧ validate_account_name name = Raise e
  ∧ st_service_cache initial_state !! name = None
  ∧ ∃ evs st' n,
      get_all_events env (Some ["home"; name]) None None None None initial_state
      = (Ok evs, st')
      ∧ error_event name e (clock_utc env n) (clock_utc env (S n)) ∈ evs.
Proof.
  intros env name e.
  assert (name ∈ ["home"; name]) as Hin by (apply list_elem_of_further, list_elem_of_here).
  assert (validate_account_name name = Raise e) as Hinv by reflexivity.
  assert (st_service_cache initial_state !! name = None) as Hst by reflexivity.
  repeat split; try assumption.
  exact (C3_invalid_name_is_isolated env ["home"; name] None None None None
           initial_state name e Hin Hinv Hst).
Defined.

(** C3 as stated fails: the name [../evil] fails validation, yet the call
    returns normally, with the validation error turned into a synthetic
    error event. *)
Lemma C3_counterexample :
  let env := Demo.env in
  let e := ValueError ("Invalid account name '../evil'. "
                       +:+ "Use only letters, numbers, hyphens, and underscores.") in
  validate_account_name "../evil" = Raise e
  ∧ (get_all_events env (Some ["../evil"]) None None None None initial_state).1
    = Ok [error_event "../evil" e (clock_utc env 0) (clock_utc env 1)].
Proof. cbv zeta. split; vm_compute; reflexivity. Qed.

(** ** models.py: claims *)

(** *** The quotients in double precision *)

Lemma round_half_even_bounds n d :
  0 < d →
  2 * (round_half_even n d * d) ≤ 2 * n + d ∧ n / d ≤ round_half_even n d.
Proof.
  intros Hd. unfold round_half_even.
  pose proof (Z.div_mod n d ltac:(lia)) as Hn.
  pose proof (Z.mod_pos_bound n d Hd) as Hr.
  set (q := n / d) in *. set (r := n mod d) in *.
  destruct (Z.ltb_spec (2 * r) d); [nia|].
  destruct (Z.ltb_spec d (2 * r)); [nia|].
  destruct (Z.even q); nia.
Qed.

(** The significand is at least [2^52]. *)
Lemma binary64_exponent_normal n d :
  0 < n → 0 < d →
  let e := binary64_exponent n d in
  2 ^ 52 * (d * 2 ^ Z.max 0 e) ≤ n * 2 ^ Z.max 0 (- e).
Proof.
  intros Hn Hd. unfold binary64_exponent.
  set (e1 := Z.log2 n - Z.log2 d - 52).
  destruct (Z.leb_spec (2 ^ 52 * (d * 2 ^ Z.max 0 e1)) (n * 2 ^ Z.max 0 (- e1)));
    [done|]. cbv zeta.
  destruct (Z.log2_spec n Hn) as [Hn1 _]. destruct (Z.log2_spec d Hd) as [_ Hd2].
  pose proof (Z.log2_nonneg n) as Hp. pose proof (Z.log2_nonneg d) as Hq.
  set (p := Z.log2 n) in *. set (q := Z.log2 d) in *.
  destruct (Z.le_gt_cases 0 (e1 - 1)) as [He|He].
  - rewrite (Z.max_r 0 (e1 - 1)), (Z.max_l 0 (- (e1 - 1))) by lia.
    rewrite Z.pow_0_r, Z.mul_1_r.
    assert (2 ^ p = 2 ^ Z.succ q * (2 ^ 52 * 2 ^ (e1 - 1))) as Hpow.
    { rewrite <- !Z.pow_add_r by lia. f_equal. lia. }
    assert (0 < 2 ^ 52 * 2 ^ (e1 - 1))
      by (apply Z.mul_pos_pos; apply Z.pow_pos_nonneg; lia).
    nia.
  - rewrite (Z.max_l 0 (e1 - 1)), (Z.max_r 0 (- (e1 - 1))) by lia.
    rewrite Z.pow_0_r, Z.mul_1_r.
    assert (2 ^ p * 2 ^ (- (e1 - 1)) = 2 ^ 52 * 2 ^ Z.succ q) as Hpow.
    { rewrite <- !Z.pow_add_r by lia. f_equal. lia. }
    assert (0 < 2 ^ (- (e1 - 1))) by (apply Z.pow_pos_nonneg; lia).
    nia.
Qed.

(** The double [a/b] nearest to [n/d] exceeds it by at most one part in
    [2^53], and is not below an integer [j < 2^53] that [n/d] is not
    below. *)
Lemma binary64_of_fraction_spec n d a b :
  0 < n → 0 < d → binary64_of_fraction n d = (a, b) →
  0 < b ∧ 0 < a
  ∧ a * d * 2 ^ 53 ≤ (2 ^ 53 + 1) * (n * b)
  ∧ ∀ j, 0 ≤ j < 2 ^ 53 → j * d ≤ n → j * b ≤ a.
Proof.
  intros Hn Hd. unfold binary64_of_fraction.
  rewrite (proj2 (Z.eqb_neq n 0)) by lia.
  pose proof (binary64_exponent_normal n d Hn Hd) as Hnorm. cbv zeta in Hnorm.
  set (e := binary64_exponent n d) in *.
  set (N := n * 2 ^ Z.max 0 (- e)) in *. set (D := d * 2 ^ Z.max 0 e) in *.
  intros [= <- <-].
  assert (0 < 2 ^ Z.max 0 e) as Hpe by (apply Z.pow_pos_nonneg; lia).
  assert (0 < 2 ^ Z.max 0 (- e)) as Hpne by (apply Z.pow_pos_nonneg; lia).
  assert (0 < D) as HD by (unfold D; lia).
  destruct (round_half_even_bounds N D HD) as [Hup Hfloor].
  set (m := round_half_even N D) in *.
  assert (2 ^ 52 ≤ N / D) as Hq by (apply Z.div_le_lower_bound; lia).
  change (2 ^ 52) with 4503599627370496 in Hq.
  split; [done|]. split; [apply Z.mul_pos_pos; lia|]. split.
  - unfold D in Hup, Hnorm. unfold N in Hup, Hnorm.
    set (x := 2 ^ Z.max 0 e) in *. set (y := 2 ^ Z.max 0 (- e)) in *.
    change (2 ^ 53) with 9007199254740992.
    change (2 ^ 52) with 4503599627370496 in Hnorm.
    nia.
  - intros j Hj Hle. destruct (Z.le_gt_cases e 0) as [He|He].
    + rewrite (Z.max_l 0 e), Z.pow_0_r, Z.mul_1_r by lia.
      transitivity (N / D); [|done]. apply Z.div_le_lower_bound; [done|].
      unfold N, D. rewrite (Z.max_l 0 e), Z.pow_0_r, Z.mul_1_r by lia.
      set (y := 2 ^ Z.max 0 (- e)) in *. nia.
    + rewrite (Z.max_l 0 (- e)), Z.pow_0_r, Z.mul_1_r by lia.
      rewrite (Z.max_r 0 e) by lia.
      assert (2 ≤ 2 ^ e) by (change 2 with (2 ^ 1) at 1; apply Z.pow_le_mono_r; lia).
      change (2 ^ 53) with 9007199254740992 in Hj. nia.
Qed.

(** Below 36500 days the two roundings do not reach the next minute: the
    result is the exact number of whole minutes. *)
Lemma total_minutes_exact us :
  0 ≤ us < 36500 * us_per_day → total_minutes us = us / us_per_minute.
Proof.
  change (36500 * us_per_day) with 3153600000000000.
  change us_per_minute with 60000000.
  intros Hus. unfold total_minutes.
  destruct (Z.eq_dec us 0) as [->|Hnz]; [reflexivity|].
  set (k := us / 60000000).
  assert (60000000 * k ≤ us < 60000000 * (k + 1)) as Hk.
  { pose proof (Z.div_mod us 60000000 ltac:(lia)).
    pose proof (Z.mod_pos_bound us 60000000 ltac:(lia)). unfold k. lia. }
  assert (0 ≤ k < 52560000) as Hkb.
  { split; [apply Z.div_pos; lia|]. apply Z.div_lt_upper_bound; lia. }
  change (10 ^ 6) with 1000000.
  destruct (binary64_of_fraction us 1000000) as [a1 b1] eqn:E1.
  apply binary64_of_fraction_spec in E1 as (Hb1 & Ha1 & Hup1 & Hge1); [|lia|lia].
  destruct (binary64_of_fraction a1 (60 * b1)) as [a2 b2] eqn:E2.
  apply binary64_of_fraction_spec in E2 as (Hb2 & Ha2 & Hup2 & Hge2); [|lia|lia].
  change (2 ^ 53) with 9007199254740992 in *.
  assert (60 * k * b1 ≤ a1) as H1 by (apply Hge1; lia).
  assert (k * b2 ≤ a2) as H2 by (apply Hge2; lia).
  assert (a2 < (k + 1) * b2) as H3.
  { destruct (Z.lt_ge_cases a2 ((k + 1) * b2)) as [|Hge]; [done|exfalso].
    assert ((k + 1) * 60 * b1 * 9007199254740992 ≤ 9007199254740993 * a1) as Hc1.
    { apply (Z.mul_le_mono_pos_r _ _ b2 Hb2). nia. }
    assert ((k + 1) * 60000000 * 9007199254740992 * 9007199254740992
            ≤ 9007199254740993 * 9007199254740993 * us) as Hc2.
    { apply (Z.mul_le_mono_pos_r _ _ b1 Hb1). nia. }
    nia. }
  apply Z.le_antisymm.
  - apply Z.lt_succ_r. apply Z.div_lt_upper_bound; lia.
  - apply Z.div_le_lower_bound; lia.
Qed.

Lemma duration_minutes_exact (e : Event) :
  is_aware (ev_start e) = is_aware (ev_end e) →
  let delta := utc_instant (ev_end e) - utc_instant (ev_start e) in
  0 ≤ delta < 36500 * us_per_day →
  duration_minutes e = Ok (delta / us_per_minute).
Proof.
  intros Haw delta Hd.
  assert (dt_sub (ev_end e) (ev_start e) = Ok delta) as Hsub.
  { unfold dt_sub, delta, utc_instant. unfold is_aware in Haw.
    destruct (dt_tzinfo (ev_start e)), (dt_tzinfo (ev_end e)); try discriminate;
      simpl; f_equal; lia. }
  unfold duration_minutes. rewrite Hsub. simpl.
  rewrite (proj2 (Z.leb_le 0 delta)) by lia. by rewrite total_minutes_exact.
Qed.

(** C4 as stated fails: an event of 45 seconds has [duration_minutes] 0,
    with the doubles kept as fractions and with the division of
    [SpecFloat] alike, whereas 0.75 minutes rounds to 1. *)
Lemma C4_counterexample :
  let e := Demo.standup_event in
  let delta := utc_instant (ev_end e) - utc_instant (ev_start e) in
  utc_instant (ev_start e) ≤ utc_instant (ev_end e)
  ∧ delta = 45 * us_per_second
  ∧ duration_minutes e = Ok 0
  ∧ duration_minutes_b64 e = Ok 0
  ∧ ¬ nearest_minute delta 0
  ∧ nearest_minute delta 1.
Proof.
  cbv zeta. split; [by vm_compute|]. split; [reflexivity|].
  split; [vm_compute; reflexivity|]. split; [vm_compute; reflexivity|].
  split; [|by vm_compute]. by vm_compute.
Qed.

(** C4, amended.  For every event with [start <= end] (both aware or both
    naive) that lasts less than 36500 days, [duration_minutes] is the
    duration in minutes cut down to a whole number: the largest [m] with
    [m] minutes within [end - start]. *)
Theorem C4_duration_minutes_truncates (e : Event) :
  is_aware (ev_start e) = is_aware (ev_end e) →
  utc_instant (ev_start e) ≤ utc_instant (ev_end e) →
  let delta := utc_instant (ev_end e) - utc_instant (ev_start e) in
  delta < 36500 * us_per_day →
  ∃ m, duration_minutes e = Ok m
       ∧ m * us_per_minute ≤ delta < (m + 1) * us_per_minute.
Proof.
  intros Haw Hle delta Hlt. exists (delta / us_per_minute).
  assert (0 < us_per_minute) as Hpos by reflexivity.
  split.
  - apply duration_minutes_exact; [done|]. fold delta. lia.
  - pose proof (Z.mul_div_le delta us_per_minute Hpos).
    pose proof (Z.mul_succ_div_gt delta us_per_minute Hpos).
    lia.
Qed.

Lemma C4_witness :
  let e := Demo.standup_event in
  let delta := utc_instant (ev_end e) - utc_instant (ev_start e) in
  is_aware (ev_start e) = is_aware (ev_end e)
  ∧ utc_instant (ev_start e) ≤ utc_instant (ev_end e)
  ∧ delta < 36500 * us_per_day
  ∧ ∃ m, duration_minutes e = Ok m
         ∧ m * us_per_minute ≤ delta < (m + 1) * us_per_minute.
Proof.
  intros e delta.
  assert (is_aware (ev_start e) = is_aware (ev_end e)) as Haw by reflexivity.
  assert (utc_instant (ev_start e) ≤ utc_instant (ev_end e)) as Hle by (by vm_compute).
  assert (delta < 36500 * us_per_day) as Hlt by (by vm_compute).
  split; [exact Haw|]. split; [exact Hle|]. split; [exact Hlt|].
  exact (C4_duration_minutes_truncates e Haw Hle Hlt).
Defined.

(** Far beyond that bound the roundings do reach the next minute: over
    the whole range of [datetime] the source returns 5258964960 where
    5258964959 whole minutes have passed. *)
Example duration_minutes_longest :
  let e := mk_Event "" "" (datetime_of 1 1 1 0 0 0 0 None)
             (datetime_of 9999 12 31 23 59 59 999999 None)
             "" "" "" "" "" false "" "" [] "" "" in
  duration_minutes e = Ok 5258964960
  ∧ duration_minutes_b64 e = Ok 5258964960
  ∧ (dt_wall (ev_end e) - dt_wall (ev_start e)) / us_per_minute = 5258964959.
Proof. cbv zeta. split; [|split]; vm_compute; reflexivity. Qed.

(** [total_minutes] against the division of [SpecFloat] on a sample of
    durations, among them the ends of minutes where rounding shows. *)
Example total_minutes_matches_SFdiv :
  Forall (λ us, total_minutes us
                = B64.trunc (B64.div (B64.div (B64.of_Z us) (B64.of_Z (10 ^ 6)))
                               (B64.of_Z 60)))
    [1; 59999999; 60000000; 60000001; 3599999999; 86399999999; 86400000000;
     4503599627370495; 4503599627370497; 9007199254740993; 315537897599999999;
     315537897600000000; 86399999999999999999].
Proof. repeat constructor; vm_compute; reflexivity. Qed.

Example duration_minutes_b64_90s :
  duration_minutes_b64
    (mk_Event "" "" (datetime_of 2024 3 1 10 0 0 0 (Some KST))
       (datetime_of 2024 3 1 10 1 30 0 (Some KST)) "" "" "" "" "" false "" "" [] "" "")
  = Ok 1.
Proof. vm_compute. reflexivity. Qed.

Example duration_minutes_b64_day : duration_minutes_b64 Demo.holiday_event = Ok 1440.
Proof. vm_compute. reflexivity. Qed.

(** C5 as stated fails: the all-day event from 2024-03-01 to the exclusive
    end date 2024-03-02 is all-day and starts at local midnight, but
    [is_multiday] is true for it. *)
Lemma C5_counterexample :
  event_of_item Demo.env "home" "primary" "Personal" Demo.holiday
  = Ok (Some Demo.holiday_event)
  ∧ ev_all_day Demo.holiday_event = true
  ∧ ev_start Demo.holiday_event = datetime_of 2024 3 1 0 0 0 0 (Some KST)
  ∧ is_multiday Demo.holiday_event ≠ false.
Proof. repeat split. by vm_compute. Qed.

(** C5, amended.  A source event with the bare start date 2024-03-01 and
    the bare end date 2024-03-02 becomes an Event with [all_day] true and
    start and end at local midnight of these dates in the target zone;
    [is_multiday] compares the two dates and is true for it. *)
Theorem C5_all_day_one_day env account_name calendar_id cal_name item dt1 dt2 id :
  ei_status item ≠ Some "cancelled" →
  ei_start item = Some (mk_TimeObj (Some "2024-03-01") dt1) →
  ei_end item = Some (mk_TimeObj (Some "2024-03-02") dt2) →
  ei_id item = Some id →
  ∃ ev, event_of_item env account_name calendar_id cal_name item = Ok (Some ev)
        ∧ ev_all_day ev = true
        ∧ ev_start ev = datetime_of 2024 3 1 0 0 0 0 (Some KST)
        ∧ ev_end ev = datetime_of 2024 3 2 0 0 0 0 (Some KST)
        ∧ is_multiday ev = true.
Proof.
  intros Hst Hs He Hid. unfold event_of_item.
  rewrite bool_decide_eq_false_2 by done. rewrite Hs, He, Hid. simpl.
  eexists. split; [reflexivity|]. by repeat split.
Qed.

Lemma C5_witness :
  ei_status Demo.holiday ≠ Some "cancelled"
  ∧ ei_start Demo.holiday = Some (mk_TimeObj (Some "2024-03-01") None)
  ∧ ei_end Demo.holiday = Some (mk_TimeObj (Some "2024-03-02") None)
  ∧ ei_id Demo.holiday = Some "h1"
  ∧ ∃ ev, event_of_item Demo.env "home" "primary" "Personal" Demo.holiday
          = Ok (Some ev)
          ∧ ev_all_day ev = true
          ∧ ev_start ev = datetime_of 2024 3 1 0 0 0 0 (Some KST)
          ∧ ev_end ev = datetime_of 2024 3 2 0 0 0 0 (Some KST)
          ∧ is_multiday ev = true.
Proof.
  assert (ei_status Demo.holiday ≠ Some "cancelled") as Hst by discriminate.
  repeat split; try done.
  exact (C5_all_day_one_day Demo.env "home" "primary" "Personal" Demo.holiday
           None None "h1" Hst eq_refl eq_refl eq_refl).
Defined.

(** ** The time parser: claims *)

Lemma strptime_ymd_midnight s dt :
  strptime_ymd s = Ok dt → ∃ y m d, dt = datetime_of y m d 0 0 0 0 None.
Proof.
  unfold strptime_ymd.
  destruct (_ ≫= _) as [[[[y m] d] rest]|]; [|discriminate].
  repeat match goal with |- context [if ?b then _ else _] => destruct b end;
    intros [= <-]; eauto.
Qed.

Lemma datetime_of_midnight_wall y m d tz :
  dt_wall (datetime_of y m d 0 0 0 0 tz) = ymd2ord y m d * us_per_day.
Proof. unfold datetime_of. simpl. lia. Qed.

Lemma datetime_of_midnight_date y m d tz :
  dt_date (datetime_of y m d 0 0 0 0 tz) = ymd2ord y m d.
Proof.
  unfold dt_date. rewrite datetime_of_midnight_wall. by apply Z.div_mul.
Qed.

(** C6 as stated fails: the timestamp 9999-12-31T23:00:00Z is a source
    time object, and the parser does not return its conversion to the
    target zone, where it is already the year 10000: the conversion raises
    [OverflowError]. *)
Lemma C6_counterexample :
  let time_obj := mk_TimeObj None (Some "9999-12-31T23:00:00Z") in
  env_dateutil_parse Demo.env "9999-12-31T23:00:00Z"
  = Ok (datetime_of 9999 12 31 23 0 0 0 (Some timezone_utc))
  ∧ _parse_event_time Demo.env time_obj
    = Raise (OverflowError "date value out of range")
  ∧ ¬ ∃ r all_day, _parse_event_time Demo.env time_obj = Ok (r, all_day).
Proof.
  cbv zeta. split; [reflexivity|]. split; [by vm_compute|].
  intros (r & all_day & H). by vm_compute in H.
Qed.

(** C6, amended.  A bare date that [strptime] reads, from 1988-10-10 on,
    gives midnight of that date in the target zone, flagged all-day.
    Otherwise
    the parsed timestamp is read as UTC when it has no zone; for an instant
    since the last transition of the target zone, the parser returns that
    instant in the target zone, not flagged, when the instant and its
    reading in the target zone lie in the years 1 to 9999, and raises
    [OverflowError] when they do not. *)
Theorem C6_parse_event_time env time_obj :
  (∀ s dt,
     to_date time_obj = Some s → strptime_ymd s = Ok dt →
     seoul_first_date ≤ dt_date dt →
     ∃ r, _parse_event_time env time_obj = Ok (r, true)
          ∧ dt_tzinfo r = Some KST
          ∧ dt_date r = dt_date dt
          ∧ dt_wall r = dt_date dt * us_per_day)
  ∧ (∀ s dt,
       to_date time_obj = None → to_dateTime time_obj = Some s →
       env_dateutil_parse env s = Ok dt →
       let instant := dt_wall dt - default timezone_utc (dt_tzinfo dt) in
       seoul_last_transition ≤ instant →
       if in_datetime_range instant && in_datetime_range (instant + KST)
       then ∃ r, _parse_event_time env time_obj = Ok (r, false)
                 ∧ dt_tzinfo r = Some KST
                 ∧ dt_wall r = instant + KST
                 ∧ utc_instant r = instant
       else _parse_event_time env time_obj
            = Raise (OverflowError "date value out of range")).
Proof.
  split.
  - intros s dt Hd Hp _. unfold _parse_event_time. rewrite Hd, Hp.
    exists (replace_tzinfo dt KST). split; [reflexivity|]. split; [reflexivity|].
    split; [reflexivity|].
    destruct (strptime_ymd_midnight _ _ Hp) as (y & m & d & ->).
    rewrite datetime_of_midnight_date.
    apply (datetime_of_midnight_wall y m d None).
  - intros s dt Hd Ht Hp instant _. unfold _parse_event_time. rewrite Hd, Ht. simpl.
    rewrite Hp. simpl.
    assert (utc_instant match dt_tzinfo dt with
                        | Some _ => dt
                        | None => replace_tzinfo dt timezone_utc
                        end = instant) as Hi.
    { unfold instant, utc_instant, replace_tzinfo, timezone_utc.
      destruct dt as [wall [tz|]]; simpl; lia. }
    unfold astimezone. rewrite Hi.
    destruct (in_datetime_range instant && in_datetime_range (instant + KST)); [|done].
    simpl. eexists. split; [reflexivity|]. split; [done|]. split; [done|].
    unfold utc_instant. simpl. lia.
Qed.

Lemma C6_witness :
  let date_obj := mk_TimeObj (Some "2024-03-01") (Some "2024-03-01T01:30:00") in
  let time_obj := mk_TimeObj None (Some "2024-03-01T01:30:00") in
  let instant := dt_wall (datetime_of 2024 3 1 1 30 0 0 None) in
  seoul_first_date ≤ dt_date (datetime_of 2024 3 1 0 0 0 0 None)
  ∧ seoul_last_transition ≤ instant
  ∧ (∃ r, _parse_event_time Demo.env date_obj = Ok (r, true)
          ∧ dt_tzinfo r = Some KST
          ∧ dt_date r = dt_date (datetime_of 2024 3 1 0 0 0 0 None)
          ∧ dt_wall r = dt_date (datetime_of 2024 3 1 0 0 0 0 None) * us_per_day)
  ∧ (∃ r, _parse_event_time Demo.env time_obj = Ok (r, false)
          ∧ dt_tzinfo r = Some KST
          ∧ dt_wall r = instant + KST
          ∧ utc_instant r = instant).
Proof.
  intros date_obj time_obj instant.
  assert (seoul_first_date ≤ dt_date (datetime_of 2024 3 1 0 0 0 0 None)) as Hd
    by (by vm_compute).
  assert (seoul_last_transition ≤ instant) as Hi by (by vm_compute).
  split; [exact Hd|]. split; [exact Hi|]. split.
  - exact (proj1 (C6_parse_event_time Demo.env date_obj) "2024-03-01"
             (datetime_of 2024 3 1 0 0 0 0 None) eq_refl eq_refl Hd).
  - exact (proj2 (C6_parse_event_time Demo.env time_obj) "2024-03-01T01:30:00"
             (datetime_of 2024 3 1 1 30 0 0 None) eq_refl eq_refl eq_refl Hi).
Defined.

Example parse_event_time_naive_is_utc :
  _parse_event_time Demo.env (mk_TimeObj None (Some "2024-03-01T01:30:00"))
  = Ok (datetime_of 2024 3 1 10 30 0 0 (Some KST), false).
Proof. reflexivity. Qed.

(** ** The calendar filter: claims *)

Lemma prefix_app n h : String.prefix n h = true ↔ ∃ post, h = n +:+ post.
Proof.
  revert h. induction n as [|a n IH]; intros h; simpl.
  - destruct h; simpl; split; eauto.
  - destruct h as [|b h]; simpl.
    + split; [discriminate | by intros [post ?]].
    + destruct (ascii_dec a b) as [->|Hne].
      * rewrite IH. split; intros [post Hp]; exists post.
        -- by rewrite Hp.
        -- by injection Hp.
      * split; [discriminate|]. intros [post [= ? ?]]. congruence.
Qed.

Lemma str_contains_app n h :
  str_contains n h = true ↔ ∃ pre post, h = pre +:+ n +:+ post.
Proof.
  induction h as [|c h IH]; cbn [str_contains].
  - rewrite orb_false_r, prefix_app. split.
    + intros [post Hp]. by exists "", post.
    + intros (pre & post & Hp). destruct pre; [by exists post|discriminate].
  - rewrite orb_true_iff, prefix_app, IH. split.
    + intros [[post Hp]|(pre & post & Hp)].
      * by exists "", post.
      * exists (String c pre), post. simpl. by rewrite Hp.
    + intros (pre & post & Hp). destruct pre as [|c' pre]; simpl in Hp.
      * left. by exists post.
      * right. injection Hp as _ Hp. by exists pre, post.
Qed.

Lemma lower_app s t : lower (s +:+ t) = lower s +:+ lower t.
Proof. induction s as [|c s IH]; simpl; [done|by rewrite IH]. Qed.

Lemma lower_split s a b :
  lower s = a +:+ b → ∃ s1 s2, s = s1 +:+ s2 ∧ lower s1 = a ∧ lower s2 = b.
Proof.
  revert s. induction a as [|c a IH]; intros s; simpl.
  - intros H. by exists "", s.
  - destruct s as [|c' s]; [discriminate|]. simpl. intros [= Hc H].
    destruct (IH s H) as (s1 & s2 & -> & H1 & H2).
    exists (String c' s1), s2. simpl. by rewrite Hc, H1.
Qed.

Lemma is_upper_spec c : is_upper c = true ↔ (65 ≤ nat_of_ascii c ≤ 90)%nat.
Proof.
  unfold is_upper. rewrite andb_true_iff, !Nat.leb_le. tauto.
Qed.

Lemma lower_ascii_same_letter a b : lower_ascii a = lower_ascii b ↔ same_letter a b.
Proof.
  unfold lower_ascii, same_letter.
  pose proof (nat_ascii_bounded a) as Ha. pose proof (nat_ascii_bounded b) as Hb.
  destruct (is_upper a) eqn:Ea; destruct (is_upper b) eqn:Eb.
  - apply is_upper_spec in Ea, Eb. split.
    + intros H. left. apply (f_equal nat_of_ascii) in H.
      rewrite !nat_ascii_embedding in H by lia.
      rewrite <- (ascii_nat_embedding a), <- (ascii_nat_embedding b). f_equal. lia.
    + intros [->|[[_ H]|[_ H]]]; [done|lia|lia].
  - apply is_upper_spec in Ea.
    assert (¬ (65 ≤ nat_of_ascii b ≤ 90)%nat) as Hnb
      by (rewrite <- is_upper_spec; congruence).
    split.
    + intros <-. right. left. split; [done|]. rewrite nat_ascii_embedding; lia.
    + intros [->|[[_ H]|[H _]]]; [lia| |lia].
      rewrite <- H. apply ascii_nat_embedding.
  - apply is_upper_spec in Eb.
    assert (¬ (65 ≤ nat_of_ascii a ≤ 90)%nat) as Hna
      by (rewrite <- is_upper_spec; congruence).
    split.
    + intros ->. right. right. split; [done|]. rewrite nat_ascii_embedding; lia.
    + intros [->|[[H _]|[_ H]]]; [lia|lia|].
      rewrite <- H. symmetry. apply ascii_nat_embedding.
  - assert (¬ (65 ≤ nat_of_ascii a ≤ 90)%nat) as Hna
      by (rewrite <- is_upper_spec; congruence).
    assert (¬ (65 ≤ nat_of_ascii b ≤ 90)%nat) as Hnb
      by (rewrite <- is_upper_spec; congruence).
    split; [by left|]. intros [->|[[H _]|[H _]]]; [done|lia|lia].
Qed.

Lemma lower_eq_ignoring_case s t : lower s = lower t ↔ eq_ignoring_case s t.
Proof.
  revert t. induction s as [|a s IH]; intros [|b t]; simpl; try (split; [discriminate|done]).
  - done.
  - rewrite <- IH, <- lower_ascii_same_letter. split.
    + by intros [= -> ->].
    + by intros [-> ->].
Qed.

(** The substring test on the lowered strings is containment when case is
    ignored. *)
Lemma str_contains_lower name f :
  str_contains (lower f) (lower name) = true ↔ contains_ignoring_case name f.
Proof.
  rewrite str_contains_app. unfold contains_ignoring_case. split.
  - intros (pre' & post' & H).
    apply lower_split in H as (pre & rest & -> & _ & H).
    apply lower_split in H as (mid & post & -> & H & _).
    exists pre, mid, post. split; [done|]. by apply lower_eq_ignoring_case.
  - intros (pre & mid & post & -> & H). apply lower_eq_ignoring_case in H.
    exists (lower pre), (lower post). by rewrite !lower_app, H.
Qed.

(** C7.  For a calendar and a filter written in ASCII: the calendar is
    queried iff its access role is owner, writer or reader and the name
    filter is absent or empty or the display name contains one of its
    substrings when case is ignored.  A calendar with access role [none] is
    never eligible; a calendar named "Work Team" with a default role
    matches the filter ["team"]. *)
Theorem C7_eligible calendar_filter cal :
  ascii_names calendar_filter cal →
  (eligible calendar_filter cal = true ↔
     cal_access_role cal ∈ ["owner"; "writer"; "reader"]
     ∧ (calendar_filter = None ∨ calendar_filter = Some []
        ∨ ∃ fs f, calendar_filter = Some fs ∧ f ∈ fs
                  ∧ contains_ignoring_case (cal_summary cal) f))
  ∧ (cal_access_role cal = "none" → eligible calendar_filter cal = false)
  ∧ (calendar_filter = Some ["team"] → cal_summary cal = "Work Team" →
     cal_access_role cal ∈ ["owner"; "writer"; "reader"] →
     eligible calendar_filter cal = true).
Proof.
  intros _.
  assert (in_default_roles (cal_access_role cal) = true
          ↔ cal_access_role cal ∈ ["owner"; "writer"; "reader"]) as Hrole.
  { unfold in_default_roles. rewrite !orb_true_iff, !String.eqb_eq.
    rewrite !elem_of_cons, elem_of_nil. tauto. }
  split; [|split].
  - unfold eligible. rewrite andb_true_iff, Hrole.
    apply and_iff_compat_l. unfold _match_calendar.
    destruct calendar_filter as [[|f0 fs]|].
    + split; [auto|done].
    + rewrite existsb_exists. split.
      * intros (f & Hin & Hc). right. right. exists (f0 :: fs), f.
        split; [done|]. split; [by apply list_elem_of_In|].
        by apply str_contains_lower.
      * intros [?|[?|(fs' & f & [= <-] & Hin & Hc)]]; try discriminate.
        exists f. split; [by apply list_elem_of_In|]. by apply str_contains_lower.
    + split; [auto|done].
  - intros Hnone. unfold eligible, in_default_roles. by rewrite Hnone.
  - intros -> Hname Hr. unfold eligible. apply Hrole in Hr. rewrite Hr.
    unfold _match_calendar. by rewrite Hname.
Qed.

Lemma C7_witness :
  let team := mk_Calendar "team" "Work Team" "owner" "work" "" "" in
  let room := mk_Calendar "room" "Work Team" "none" "work" "" "" in
  ascii_names (Some ["team"]) team
  ∧ ascii_names None room
  ∧ eligible (Some ["team"]) team = true
  ∧ contains_ignoring_case "Work Team" "team"
  ∧ eligible None room = false.
Proof.
  intros team room.
  assert (ascii_names (Some ["team"]) team) as Ht.
  { split; [reflexivity|]. intros fs [= <-]. by repeat constructor. }
  assert (ascii_names None room) as Hr by (split; [reflexivity|discriminate]).
  pose proof (C7_eligible (Some ["team"]) team Ht) as (Hiff & _ & Hteam).
  assert (eligible (Some ["team"]) team = true) as He
    by (apply Hteam; [reflexivity|reflexivity|apply list_elem_of_here]).
  split; [exact Ht|]. split; [exact Hr|]. split; [exact He|]. split.
  - apply Hiff in He as [_ [?|[?|(fs & f & [= <-] & Hin & Hc)]]]; try discriminate.
    apply list_elem_of_singleton in Hin as ->. exact Hc.
  - apply (proj1 (proj2 (C7_eligible None room Hr))). reflexivity.
Defined.

(** ** Account colours: claims *)

Lemma index_of_app_l n l more : n ∈ l → index_of n (l ++ more) = index_of n l.
Proof.
  induction l as [|x l IH]; simpl; intros Hin; [by apply elem_of_nil in Hin|].
  case_bool_decide; [done|].
  apply elem_of_cons in Hin as [->|Hin]; [done|]. by rewrite IH.
Qed.

Lemma index_of_fresh n l : n ∉ l → index_of n (l ++ [n]) = length l.
Proof.
  induction l as [|x l IH]; simpl; intros Hin.
  - by rewrite bool_decide_eq_true_2.
  - apply not_elem_of_cons in Hin as [Hne Hin].
    rewrite bool_decide_eq_false_2 by done. by rewrite IH.
Qed.

Lemma first_seen_from_extends seen names :
  ∃ more, first_seen_from seen names = seen ++ more.
Proof.
  revert seen. induction names as [|n rest IH]; intros seen; simpl.
  - exists []. by rewrite app_nil_r.
  - case_bool_decide; [apply IH|].
    destruct (IH (seen ++ [n])) as [more ->].
    exists (n :: more). by rewrite <- app_assoc.
Qed.

Lemma get_account_color_step seen st n :
  colored seen st →
  let seen' := if bool_decide (n ∈ seen) then seen else seen ++ [n] in
  ∃ st', _get_account_color n st = (Ok (palette (index_of n seen')), st')
         ∧ colored seen' st'.
Proof.
  intros [Hsize Hlook]. unfold _get_account_color, mbind, M_bind, get_state.
  rewrite Hlook. case_bool_decide as Hin.
  - by eexists.
  - unfold put_state, mret, M_ret. eexists. split.
    + rewrite index_of_fresh by done. unfold palette. by rewrite Hsize.
    + split; cbn [st_color_map].
      * rewrite map_size_insert_None, length_app; [simpl; lia|].
        rewrite Hlook. by rewrite bool_decide_eq_false_2.
      * intros m. destruct (decide (n = m)) as [<-|Hne].
        -- rewrite lookup_insert_eq, bool_decide_eq_true_2 by set_solver.
           by rewrite index_of_fresh.
        -- rewrite lookup_insert_ne, Hlook by done.
           destruct (decide (m ∈ seen)) as [Hm|Hm].
           ++ rewrite !bool_decide_eq_true_2 by set_solver.
              by rewrite index_of_app_l.
           ++ assert (m ∉ seen ++ [n]) as Hm'
                by (intros [?|?%list_elem_of_singleton]%elem_of_app; congruence).
              by rewrite !bool_decide_eq_false_2.
Qed.

Lemma get_account_color_run names seen st :
  colored seen st →
  ∃ st',
    for_each _get_account_color names st
    = (Ok (map (λ n, palette (index_of n (first_seen_from seen names))) names), st')
    ∧ colored (first_seen_from seen names) st'.
Proof.
  revert seen st. induction names as [|n rest IH]; intros seen st Hc; simpl.
  - by eexists.
  - destruct (get_account_color_step seen st n Hc) as (st1 & Hstep & Hc1).
    set (seen' := if bool_decide (n ∈ seen) then seen else seen ++ [n]) in *.
    destruct (IH seen' st1 Hc1) as (st' & Hrun & Hc').
    exists st'. split; [|done].
    erewrite M_bind_Ok by exact Hstep. erewrite M_bind_Ok by exact Hrun.
    unfold mret, M_ret. do 3 f_equal.
    destruct (first_seen_from_extends seen' rest) as [more ->].
    rewrite index_of_app_l; [done|].
    subst seen'. case_bool_decide; set_solver.
Qed.

(** C9.  From the empty map of a fresh process, a sequence of colour
    queries answers each name with the palette entry of its rank among the
    distinct names in order of first appearance, modulo the palette size; a
    repeated name gets the same colour again.  The queries alice, bob,
    alice give the entries 0, 1, 0. *)
Theorem C9_colors_by_first_appearance names st :
  st_color_map st = ∅ →
  (∃ st',
     for_each _get_account_color names st
     = (Ok (map (λ n, nth (index_of n (first_seen names) mod length ACCOUNT_COLORS)
                        ACCOUNT_COLORS "") names), st'))
  ∧ (for_each _get_account_color ["alice"; "bob"; "alice"] st).1
    = Ok [nth 0 ACCOUNT_COLORS ""; nth 1 ACCOUNT_COLORS ""; nth 0 ACCOUNT_COLORS ""].
Proof.
  intros Hempty.
  assert (colored [] st) as Hc.
  { split; [by rewrite Hempty|]. intros n. by rewrite Hempty, lookup_empty. }
  split.
  - destruct (get_account_color_run names [] st Hc) as (st' & Hrun & _). by exists st'.
  - destruct (get_account_color_run ["alice"; "bob"; "alice"] [] st Hc)
      as (st' & -> & _).
    reflexivity.
Qed.

Lemma C9_witness :
  st_color_map initial_state = ∅
  ∧ (∃ st',
       for_each _get_account_color ["carol"; "dave"; "carol"; "erin"] initial_state
       = (Ok (map (λ n, nth (index_of n (first_seen ["carol"; "dave"; "carol"; "erin"])
                             mod length ACCOUNT_COLORS) ACCOUNT_COLORS "")
                ["carol"; "dave"; "carol"; "erin"]), st'))
  ∧ (for_each _get_account_color ["alice"; "bob"; "alice"] initial_state).1
    = Ok [nth 0 ACCOUNT_COLORS ""; nth 1 ACCOUNT_COLORS ""; nth 0 ACCOUNT_COLORS ""].
Proof.
  split; [reflexivity|].
  exact (C9_colors_by_first_appearance ["carol"; "dave"; "carol"; "erin"]
           initial_state eq_refl).
Defined.

Example colors_wrap_around :
  (for_each _get_account_color
     ["a"; "b"; "c"; "d"; "e"; "f"; "g"; "h"; "i"; "j"; "k"; "a"] initial_state).1
  = Ok ["cyan"; "magenta"; "green"; "yellow"; "blue"; "red"; "bright_cyan";
        "bright_magenta"; "bright_green"; "bright_yellow"; "cyan"; "cyan"].
Proof. vm_compute. reflexivity. Qed.

(** ** config.py: claims *)

Lemma validate_account_name_unchanged name s :
  validate_account_name name = Ok s → s = name.
Proof.
  unfold validate_account_name.
  destruct (negb (re_match_account_name name)); [discriminate|]. by intros [= <-].
Qed.

Lemma append_nil_r s : s +:+ "" = s.
Proof.
  induction s as [|c s IH]; [done|].
  change (String c (s +:+ "") = String c s). by rewrite IH.
Qed.

Lemma drop_name_chars_split s :
  ∃ body, s = body +:+ drop_name_chars s ∧ all_name_chars body = true.
Proof.
  induction s as [|c s (body & Hs & Hb)]; simpl.
  - by exists "".
  - destruct (name_char c) eqn:Hc.
    + exists (String c body). simpl. rewrite Hc, Hb. split; [|done].
      change (String c s = String c (body +:+ drop_name_chars s)). by f_equal.
    + by exists "".
Qed.

Lemma drop_name_chars_app body rest :
  all_name_chars body = true → drop_name_chars (body +:+ rest) = drop_name_chars rest.
Proof.
  induction body as [|c body IH]; simpl; [done|].
  intros [Hc Hb]%andb_true_iff. rewrite Hc. by apply IH.
Qed.

(** What the pattern accepts: a name of class characters, or such a name
    followed by one newline. *)
Lemma re_match_account_name_iff name :
  re_match_account_name name = true ↔
  ∃ body, only_name_chars body ∧ (name = body ∨ name = body +:+ newline).
Proof.
  split.
  - destruct name as [|c s]; simpl; [discriminate|].
    intros [Hc Hrest]%andb_true_iff.
    destruct (drop_name_chars_split s) as (body & Hs & Hb).
    exists (String c body). split.
    + split; [discriminate|]. simpl. by rewrite Hc, Hb.
    + apply orb_true_iff in Hrest as [Hr|Hr]; apply String.eqb_eq in Hr;
        rewrite Hr in Hs; rewrite Hs.
      * left. by rewrite append_nil_r.
      * by right.
  - intros (body & [Hne Hall] & Hname).
    destruct body as [|c body]; [done|]. simpl in Hall.
    apply andb_true_iff in Hall as [Hc Hb].
    destruct Hname as [->| ->]; simpl; rewrite Hc; simpl.
    + rewrite <- (append_nil_r body). by rewrite drop_name_chars_app.
    + by rewrite drop_name_chars_app.
Qed.

(** Whatever [get_account_dir] returns begins, as a string, with the
    resolved accounts directory: this is the check the function makes. *)
Lemma get_account_dir_prefix env name p :
  get_account_dir env name = Ok p →
  startswith p (env_resolve env (ACCOUNTS_DIR env)) = true.
Proof.
  unfold get_account_dir. intros H. inv_bind H.
  destruct (startswith _ _) eqn:E; simpl in H; [|discriminate].
  by injection H as <-.
Qed.

(** When the account's entry in the accounts directory is not a symbolic
    link, so that resolving the joined path resolves the accounts directory
    and keeps the entry, the result is the entry [name] directly inside the
    resolved accounts directory. *)
Lemma get_account_dir_child env name :
  re_match_account_name name = true →
  env_resolve env (ACCOUNTS_DIR env +:+ "/" +:+ name)
  = env_resolve env (ACCOUNTS_DIR env) +:+ "/" +:+ name →
  get_account_dir env name = Ok (env_resolve env (ACCOUNTS_DIR env) +:+ "/" +:+ name).
Proof.
  intros Hm Hres. unfold get_account_dir, validate_account_name. rewrite Hm. simpl.
  assert (path_join (ACCOUNTS_DIR env) name = ACCOUNTS_DIR env +:+ "/" +:+ name) as ->.
  { unfold path_join. destruct (String.prefix "/" name) eqn:E; [|done].
    apply prefix_app in E as [post ->]. discriminate Hm. }
  rewrite Hres.
  replace (startswith _ _) with true; [done|].
  symmetry. apply prefix_app. by eexists.
Qed.

(** C10, the failing input.  The name [abc] followed by a newline is not
    made of letters, digits, hyphens and underscores only, yet
    [validate_account_name] returns it and [get_account_dir] returns a
    path for it. *)
Theorem C10_trailing_newline_accepted :
  let name := "abc" +:+ newline in
  ¬ only_name_chars name
  ∧ validate_account_name name = Ok name
  ∧ get_account_dir Demo.env name = Ok (Demo.accounts_dir +:+ "/" +:+ name).
Proof.
  cbv zeta. split; [|split; reflexivity].
  intros [_ H]. discriminate H.
Qed.

(** The prefix check compares strings: an entry that is a symbolic link to
    a sibling directory whose name begins like the accounts directory
    passes it. *)
Example get_account_dir_sibling :
  let env :=
    mk_Env "/cfg"
      (λ p, if String.eqb p "/cfg/accounts/me" then "/cfg/accounts_old/me" else p)
      [] (λ _, None) (λ _, Raise (RemoteError "")) (λ _, Raise (ValueError ""))
      (λ _, 0) 0 (λ _, 0%nat) in
  get_account_dir env "me" = Ok "/cfg/accounts_old/me".
Proof. reflexivity. Qed.

(** ** The week grid: claims *)

Lemma dict_contains_keys k (d : DayEvents) :
  dict_contains k d = true ↔ k ∈ map fst d.
Proof.
  unfold dict_contains. rewrite existsb_exists, list_elem_of_In, in_map_iff.
  split; intros (kv & H1 & H2); exists kv.
  - split; [by apply Z.eqb_eq | done].
  - split; [done | by apply Z.eqb_eq].
Qed.

Lemma dict_append_keys k ev (d : DayEvents) : map fst (dict_append k ev d) = map fst d.
Proof.
  unfold dict_append. induction d as [|kv d IH]; simpl; [done|].
  rewrite IH. by destruct (_ =? k).
Qed.

Lemma dict_get_append k ev (d : DayEvents) day :
  day ∈ map fst d →
  dict_get day (dict_append k ev d)
  = if bool_decide (day = k) then dict_get day d ++ [ev] else dict_get day d.
Proof.
  unfold dict_get, dict_append.
  induction d as [|[k' v] d IH]; simpl; intros Hin; [by apply elem_of_nil in Hin|].
  destruct (k' =? k) eqn:Ek; simpl; destruct (k' =? day) eqn:Ed; simpl.
  - apply Z.eqb_eq in Ek, Ed. subst. by rewrite bool_decide_eq_true_2.
  - apply elem_of_cons in Hin as [->|Hin]; [by rewrite Z.eqb_refl in Ed|]. by apply IH.
  - apply Z.eqb_eq in Ed. apply Z.eqb_neq in Ek. subst.
    by rewrite bool_decide_eq_false_2.
  - apply elem_of_cons in Hin as [->|Hin]; [by rewrite Z.eqb_refl in Ed|]. by apply IH.
Qed.

Lemma dict_get_initial days day : dict_get day (map (λ d, (d, [])) days) = [].
Proof.
  unfold dict_get. induction days as [|d days IH]; simpl; [done|].
  by destruct (d =? day).
Qed.

(** After the collecting loop, the dict has the keys [days] and every key
    holds its bucket, in input order. *)
Lemma collect_day_events_spec days events :
  map fst (collect_day_events days events) = days
  ∧ ∀ day, day ∈ days → dict_get day (collect_day_events days events) = bucket day events.
Proof.
  unfold collect_day_events.
  set (step := λ (day_events : DayEvents) event, _).
  assert (∀ d, map fst d = days →
            map fst (foldl step d events) = days
            ∧ ∀ day, day ∈ days →
                dict_get day (foldl step d events) = dict_get day d ++ bucket day events)
    as Hgen.
  { induction events as [|ev events IH]; intros d Hd; simpl.
    - split; [done|]. intros day _. unfold bucket. by rewrite app_nil_r.
    - unfold step at 2 4. destruct (dict_contains _ d) eqn:Ec.
      + destruct (IH (dict_append (dt_date (ev_start ev)) ev d)) as [Hk Hg].
        { by rewrite dict_append_keys. }
        split; [done|]. intros day Hday. rewrite Hg by done.
        rewrite dict_get_append by (by rewrite Hd).
        unfold bucket. case_bool_decide as Heq.
        * rewrite filter_cons_True by done. by rewrite <- app_assoc.
        * by rewrite filter_cons_False by done.
      + destruct (IH d Hd) as [Hk Hg]. split; [done|].
        intros day Hday. rewrite Hg by done. unfold bucket.
        rewrite filter_cons_False; [done|].
        intros Heq. apply not_true_iff_false in Ec. apply Ec.
        apply dict_contains_keys. by rewrite Hd, Heq. }
  destruct (Hgen (map (λ d, (d, [])) days)) as [Hk Hg].
  { clear. induction days as [|d days IH]; simpl; [done|]. by rewrite IH. }
  split; [done|]. intros day Hday. rewrite Hg by done.
  by rewrite dict_get_initial.
Qed.

Lemma max_len_by_key (d : DayEvents) :
  NoDup (map fst d) →
  max_len d = foldr Nat.max 0%nat (map (λ day, length (dict_get day d)) (map fst d)).
Proof.
  unfold max_len. induction d as [|[k v] d IH]; simpl; [done|].
  intros [Hk Hnd]%NoDup_cons. unfold dict_get at 1. simpl. rewrite Z.eqb_refl. simpl.
  f_equal. rewrite IH by done. f_equal. apply map_ext_in. intros day Hday.
  unfold dict_get. simpl. destruct (k =? day) eqn:E; [|done].
  apply Z.eqb_eq in E. subst. by apply list_elem_of_In in Hday.
Qed.

Lemma max_len_collect days events :
  NoDup days → max_len (collect_day_events days events) = max_bucket days events.
Proof.
  intros Hnd. destruct (collect_day_events_spec days events) as [Hk Hg].
  rewrite max_len_by_key by (by rewrite Hk). rewrite Hk. unfold max_bucket.
  f_equal. apply map_ext_in. intros day Hday. f_equal.
  by apply Hg, list_elem_of_In.
Qed.

Lemma week_days_NoDup start_date week_offset : NoDup (week_days start_date week_offset).
Proof.
  unfold week_days. apply NoDup_fmap_2; [|apply NoDup_seq].
  intros a b. lia.
Qed.

Lemma get_account_color_total n st : ∃ c st', _get_account_color n st = (Ok c, st').
Proof.
  unfold _get_account_color, mbind, M_bind, get_state.
  destruct (st_color_map st !! n); by eexists _, _.
Qed.

Lemma for_each_total {A B} (f : A → M B) (P : A → B → Prop) :
  (∀ x st, ∃ y st', f x st = (Ok y, st') ∧ P x y) →
  ∀ l st, ∃ ys st', for_each f l st = (Ok ys, st') ∧ Forall2 P l ys.
Proof.
  intros Hf. induction l as [|x l IH]; intros st; simpl.
  - eexists [], st. by split; [|constructor].
  - destruct (Hf x st) as (y & st1 & Hy & HP).
    destruct (IH st1) as (ys & st' & Hys & HPs).
    exists (y :: ys), st'. split; [|by constructor].
    erewrite M_bind_Ok by exact Hy. by erewrite M_bind_Ok by exact Hys.
Qed.

(** A cell is blank exactly when the row index is past the day's events. *)
Lemma week_cell_blank day_events row_idx day st :
  ∃ cell st',
    week_cell day_events row_idx day st = (Ok cell, st')
    ∧ (cell = "" ↔ (length (dict_get day day_events) ≤ row_idx)%nat).
Proof.
  unfold week_cell. destruct (nth_error _ row_idx) as [evt|] eqn:E.
  - assert (row_idx < length (dict_get day day_events))%nat as Hlt
      by (apply nth_error_Some; congruence).
    destruct (get_account_color_total (ev_account_name evt) st) as (c & st' & Hc).
    erewrite M_bind_Ok by exact Hc.
    destruct (ev_all_day evt); eexists _, st'; (split; [reflexivity|]);
      (split; [discriminate | lia]).
  - apply nth_error_None in E. by eexists "", st.
Qed.

Lemma week_table_rows env events start_date week_offset st :
  ∃ tbl st',
    week_table env events start_date week_offset st = (Ok tbl, st')
    ∧ map fst (tbl_columns tbl) = map strftime_a_md (week_days start_date week_offset)
    ∧ week_rows_ok (week_days start_date week_offset) events (tbl_rows tbl).
Proof.
  unfold week_table.
  set (days := week_days start_date week_offset).
  set (day_events := collect_day_events days events).
  destruct (collect_day_events_spec days events) as [Hk Hg]. fold day_events in Hk, Hg.
  destruct (for_each_total
              (λ row_idx, for_each (week_cell day_events row_idx) days)
              (λ r row, Forall2 (λ day cell,
                           cell = "" ↔ (length (dict_get day day_events) ≤ r)%nat)
                          days row)
              (λ r st0, for_each_total _ _ (week_cell_blank day_events r) days st0)
              (seq 0 (Nat.max (max_len day_events) 1)) st)
    as (rows & st' & Hrows & HP).
  eexists _, st'. split; [by erewrite M_bind_Ok by exact Hrows|]. simpl.
  split.
  { generalize days. intros l. induction l as [|d l IH]; simpl; [done|]. by f_equal. }
  split.
  - rewrite <- (Forall2_length _ _ _ HP), length_seq.
    unfold day_events. by rewrite max_len_collect by apply week_days_NoDup.
  - intros r row Hr.
    destruct (Forall2_lookup_r _ _ _ _ _ HP Hr) as (r' & Hr' & Hrow).
    apply lookup_seq in Hr' as [-> _]. simpl in Hrow.
    split; [symmetry; by eapply Forall2_length|].
    intros j day cell Hd Hc.
    pose proof (Forall2_lookup_lr _ _ _ _ _ _ Hrow Hd Hc) as Hcell. simpl in Hcell.
    rewrite Hg in Hcell; [done|]. by eapply list_elem_of_lookup_2.
Qed.

(** C8.  [print_week] prints one table per week.  For every week, the
    number of rows is the largest number of events bucketed into one day of
    that week, and 1 when the week has no event; every row has seven cells,
    and a day with fewer events than rows has blank cells in the rows that
    remain. *)
Theorem C8_print_week_rows env events weeks start_date monday_start st :
  ∃ tables st',
    print_week env events weeks start_date monday_start st = (Ok tables, st')
    ∧ length tables = Z.to_nat weeks
    ∧ ∀ w tbl, tables !! w = Some tbl →
        let days :=
          week_days (align_week_start (default (env_today env) start_date) monday_start)
            w in
        length days = 7%nat
        ∧ length (tbl_rows tbl) = Nat.max (max_bucket days events) 1
        ∧ ∀ r row, tbl_rows tbl !! r = Some row →
            length row = 7%nat
            ∧ ∀ j day cell, days !! j = Some day → row !! j = Some cell →
                (cell = "" ↔ (length (bucket day events) ≤ r)%nat).
Proof.
  unfold print_week.
  set (start := align_week_start (default (env_today env) start_date) monday_start).
  destruct (for_each_total (week_table env events start)
              (λ w tbl, week_rows_ok (week_days start w) events (tbl_rows tbl))
              (λ w st0,
                 match week_table_rows env events start w st0 with
                 | ex_intro _ tbl (ex_intro _ st1 (conj H (conj _ Hok))) =>
                     ex_intro _ tbl (ex_intro _ st1 (conj H Hok))
                 end)
              (seq 0 (Z.to_nat weeks)) st)
    as (tables & st' & Hrun & HP).
  exists tables, st'. split; [done|]. split.
  - by rewrite <- (Forall2_length _ _ _ HP), length_seq.
  - intros w tbl Hw. cbv zeta.
    destruct (Forall2_lookup_r _ _ _ _ _ HP Hw) as (w' & Hw' & [Hlen Hrows]).
    apply lookup_seq in Hw' as [-> _]. simpl in Hlen, Hrows.
    split; [reflexivity|]. split; [exact Hlen|].
    intros r row Hr. destruct (Hrows r row Hr) as [Hl Hcells].
    split; [by rewrite Hl|]. exact Hcells.
Qed.

Example print_week_three_on_monday :
  let monday := ymd2ord 2024 2 26 in
  let ev (id : string) :=
    mk_Event id id (datetime_of 2024 2 26 9 0 0 0 (Some KST))
      (datetime_of 2024 2 26 10 0 0 0 (Some KST)) "work" "team" "Work Team"
      "" "" false "" "" [] "" "confirmed" in
  map tbl_rows
    (default [] (match (print_week Demo.env [ev "a"; ev "b"; ev "c"] 1 (Some monday)
                          true initial_state).1 with
                 | Ok t => Some t
                 | Raise _ => None
                 end))
  = [[["[cyan]■[/cyan] 09:00 a"; ""; ""; ""; ""; ""; ""];
      ["[cyan]■[/cyan] 09:00 b"; ""; ""; ""; ""; ""; ""];
      ["[cyan]■[/cyan] 09:00 c"; ""; ""; ""; ""; ""; ""]]].
Proof. vm_compute. reflexivity. Qed.

Example print_week_empty :
  (print_week Demo.env [] 1 None true initial_state).1
  = Ok [mk_Table [("Mon 02/26", false); ("Tue 02/27", false); ("Wed 02/28", false);
                  ("Thu 02/29", false); ("Fri 03/01", true); ("Sat 03/02", false);
                  ("Sun 03/03", false)]
          [[""; ""; ""; ""; ""; ""; ""]]].
Proof. vm_compute. reflexivity. Qed.

(** * Further properties of the code *)

(** ** api.py: the aggregate fetch *)

Lemma get_all_events_total env account_names time_min time_max query calendar_filter st :
  ∃ evs st',
    get_all_events env account_names time_min time_max query calendar_filter st
    = (Ok evs, st').
Proof.
  destruct (default (env_list_account_names env) account_names) as [|n ns] eqn:E.
  - exists [], st. unfold get_all_events. by rewrite E.
  - destruct (get_all_events_outcomes env (n :: ns) time_min time_max query
                calendar_filter st) as [st' H]; [done|].
    eexists _, st'. unfold get_all_events in *. rewrite E. exact H.
Qed.

(** X1.  [get_all_events] never raises, whatever the accounts, the
    environment and the state: a failure inside a per-account task stays
    inside its outcome.  With no account to query it returns the empty list
    and touches neither the service cache nor the clock. *)
Theorem X1_get_all_events_returns env account_names time_min time_max query
    calendar_filter st :
  (∃ evs st',
     get_all_events env account_names time_min time_max query calendar_filter st
     = (Ok evs, st'))
  ∧ (default (env_list_account_names env) account_names = [] →
     get_all_events env account_names time_min time_max query calendar_filter st
     = (Ok [], st)).
Proof.
  split; [apply get_all_events_total|].
  intros E. unfold get_all_events. by rewrite E.
Qed.

Lemma X1_witness :
  default (env_list_account_names Demo.env) (Some []) = []
  ∧ get_all_events Demo.env (Some []) None None None None initial_state
    = (Ok [], initial_state).
Proof.
  split; [reflexivity|].
  exact (proj2 (X1_get_all_events_returns Demo.env (Some []) None None None None
                  initial_state) eq_refl).
Defined.

(** X2.  The result of [get_all_events] is a rearrangement of what the
    tasks produced: every account of the list has exactly one outcome, a
    successful outcome contributes all its events and a failed one exactly
    one error event; nothing is lost, duplicated or invented by the merge. *)
Theorem X2_get_all_events_complete env names time_min time_max query calendar_filter st :
  names ≠ [] →
  let outs := task_outcomes env time_min time_max query calendar_filter
                (as_completed (env_pick env) (length names) names) st in
  ∃ evs st',
    get_all_events env (Some names) time_min time_max query calendar_filter st
    = (Ok evs, st')
    ∧ evs ≡ₚ flat_map (outcome_events env) outs
    ∧ map (λ o, o.1.1) outs ≡ₚ names.
Proof.
  intros Hne outs.
  destruct (get_all_events_outcomes env names time_min time_max query calendar_filter
              st Hne) as [st' H].
  eexists _, st'. split; [exact H|]. split.
  - apply stable_sort_by_start_Permutation.
  - unfold outs. rewrite task_outcomes_accounts. apply as_completed_Permutation.
Qed.

Lemma X2_witness :
  let names := ["work"; "home"] in
  let outs := task_outcomes Demo.env None None None None
                (as_completed (env_pick Demo.env) (length names) names) initial_state in
  names ≠ []
  ∧ ∃ evs st',
      get_all_events Demo.env (Some names) None None None None initial_state
      = (Ok evs, st')
      ∧ evs ≡ₚ flat_map (outcome_events Demo.env) outs
      ∧ map (λ o, o.1.1) outs ≡ₚ names.
Proof.
  intros names outs.
  assert (names ≠ []) as Hne by discriminate.
  split; [exact Hne|].
  exact (X2_get_all_events_complete Demo.env names None None None None initial_state Hne).
Defined.

Lemma insert_by_start_filter k x l :
  filter (starts_at k) (insert_by_start x l)
  = if decide (starts_at k x) then x :: filter (starts_at k) l
    else filter (starts_at k) l.
Proof.
  induction l as [|y l IH]; simpl.
  - rewrite filter_cons, filter_nil. by destruct (decide (starts_at k x)).
  - destruct (start_lt y x) eqn:E; unfold start_lt in E.
    + rewrite !(filter_cons _ y), IH.
      destruct (decide (starts_at k y)) as [Hy|Hy], (decide (starts_at k x)) as [Hx|Hx];
        try done.
      unfold starts_at in *. lia.
    + rewrite (filter_cons _ x). by destruct (decide (starts_at k x)).
Qed.

Lemma stable_sort_by_start_filter k l :
  filter (starts_at k) (stable_sort_by_start l) = filter (starts_at k) l.
Proof.
  induction l as [|x l IH]; simpl; [done|].
  rewrite insert_by_start_filter, IH, filter_cons.
  by destruct (decide (starts_at k x)).
Qed.

(** X3.  The merge is stable: events that start at the same instant come
    out in the order in which they were collected (completion order of the
    accounts, then the order inside each account's task). *)
Theorem X3_get_all_events_ties env names time_min time_max query calendar_filter st k :
  names ≠ [] →
  ∃ evs st',
    get_all_events env (Some names) time_min time_max query calendar_filter st
    = (Ok evs, st')
    ∧ filter (starts_at k) evs
      = filter (starts_at k)
          (flat_map (outcome_events env)
             (task_outcomes env time_min time_max query calendar_filter
                (as_completed (env_pick env) (length names) names) st)).
Proof.
  intros Hne.
  destruct (get_all_events_outcomes env names time_min time_max query calendar_filter
              st Hne) as [st' H].
  eexists _, st'. split; [exact H|]. apply stable_sort_by_start_filter.
Qed.

Lemma X3_witness :
  let names := ["home"; "work"] in
  names ≠ []
  ∧ ∃ evs st',
      get_all_events Demo.env (Some names) None None None None initial_state
      = (Ok evs, st')
      ∧ filter (starts_at 0) evs
        = filter (starts_at 0)
            (flat_map (outcome_events Demo.env)
               (task_outcomes Demo.env None None None None
                  (as_completed (env_pick Demo.env) (length names) names)
                  initial_state)).
Proof.
  intros names.
  assert (names ≠ []) as Hne by discriminate.
  split; [exact Hne|].
  exact (X3_get_all_events_ties Demo.env names None None None None initial_state 0 Hne).
Defined.

(** ** api.py: the per-account fetcher *)

Lemma get_service_inv env account_name st r st1 :
  get_service env account_name st = (r, st1) →
  match r with
  | Ok service =>
      st_service_cache st1 !! account_name = Some service
      ∧ st_ticks st1 = st_ticks st ∧ st_color_map st1 = st_color_map st
      ∧ (st1 = st
         ∨ st_service_cache st !! account_name = None
           ∧ st_service_cache st1 = <[account_name := service]> (st_service_cache st))
  | Raise _ => st1 = st ∧ st_service_cache st !! account_name = None
  end.
Proof.
  unfold get_service, mbind, M_bind, get_state, lift, raise, put_state, mret, M_ret.
  destruct (st_service_cache st !! account_name) as [svc|] eqn:Ec.
  - intros [= <- <-]. by repeat split; [|left].
  - destruct (load_credentials env account_name) as [[creds|]|e0]; simpl.
    + destruct (env_build env creds) as [svc|e1]; simpl; intros [= <- <-]; [|done].
      simpl. rewrite lookup_insert_eq. repeat split. by right.
    + by intros [= <- <-].
    + by intros [= <- <-].
Qed.

(** X4.  [get_service] creates the service of an account once: after a
    successful call the service is in [_service_cache], and every later
    call returns that same service without looking at the credentials
    again, even if they have changed on disk.  A call that raises leaves
    the state as it was. *)
Theorem X4_get_service_cached env account_name st r st1 :
  get_service env account_name st = (r, st1) →
  match r with
  | Ok service =>
      st_service_cache st1 !! account_name = Some service
      ∧ ∀ env', get_service env' account_name st1 = (Ok service, st1)
  | Raise _ => st1 = st
  end.
Proof.
  intros H. apply get_service_inv in H. destruct r as [service|e].
  - destruct H as (Hc & _). split; [done|]. intros env'.
    unfold get_service, mbind, M_bind, get_state. by rewrite Hc.
  - by destruct H.
Qed.

Lemma X4_witness :
  ∃ service st1,
    get_service Demo.env "home" initial_state = (Ok service, st1)
    ∧ st_service_cache st1 !! "home" = Some service
    ∧ ∀ env', get_service env' "home" st1 = (Ok service, st1).
Proof.
  eexists Demo.home_service, _.
  assert (get_service Demo.env "home" initial_state
          = (Ok Demo.home_service,
             mk_State (<["home" := Demo.home_service]> ∅) ∅ 0%nat)) as H
    by reflexivity.
  split; [exact H|].
  exact (X4_get_service_cached Demo.env "home" initial_state _ _ H).
Defined.

Lemma event_of_item_stamped env account_name calendar_id cal_name item e :
  event_of_item env account_name calendar_id cal_name item = Ok (Some e) →
  stamped account_name calendar_id cal_name e.
Proof.
  unfold event_of_item. intros H.
  destruct (bool_decide (ei_status item = Some "cancelled")) eqn:Hs; [discriminate|].
  apply bool_decide_eq_false in Hs.
  inv_bind H. destruct a as [start_time all_day].
  inv_bind H. destruct a as [end_time ?].
  inv_bind H. injection H as <-.
  apply parse_event_time_aware in Hr, Hr0.
  repeat split; try done. simpl.
  destruct (ei_status item) as [s|]; simpl; [congruence | discriminate].
Qed.

Lemma get_events_stamped env account_name time_min time_max query calendar_id
    st l st1 :
  get_events env account_name time_min time_max query calendar_id st = (Ok l, st1) →
  ∃ service,
    st_service_cache st1 !! account_name = Some service
    ∧ Forall (stamped account_name calendar_id
                (calendar_display_name service calendar_id)) l.
Proof.
  unfold get_events. intros H. inv_bind H. inv_bind H.
  apply lift_inv_Ok in H as [H ->].
  apply get_service_inv in Hm as (Hc & _).
  exists a. split.
  - destruct time_min; [by injection Hm0 as _ <-|].
    unfold now_utc in Hm0. by injection Hm0 as _ <-.
  - eapply paginate_Forall; [|exact H].
    intros x b. apply event_of_item_stamped.
Qed.


(** X5.  Every event [get_events] returns is stamped with the account
    name and calendar id of the call and with the display name resolved
    for the calendar, has the target zone as the [tzinfo] of its start and
    of its end, and is not cancelled: cancelled items of the service are
    skipped. *)
Theorem X5_get_events_stamped env account_name time_min time_max query calendar_id
    st l st1 :
  get_events env account_name time_min time_max query calendar_id st = (Ok l, st1) →
  ∃ service,
    st_service_cache st1 !! account_name = Some service
    ∧ Forall (stamped account_name calendar_id
                (calendar_display_name service calendar_id)) l.
Proof. apply get_events_stamped. Qed.

Lemma X5_witness :
  ∃ service,
    st_service_cache
      (get_events Demo.env "work" None None None "team" initial_state).2 !! "work"
    = Some service
    ∧ Forall (stamped "work" "team" (calendar_display_name service "team"))
        [Demo.standup_event].
Proof.
  exact (X5_get_events_stamped Demo.env "work" None None None "team" initial_state
           [Demo.standup_event] _ eq_refl).
Defined.

Lemma fetch_account_loop_eligible env name time_min time_max query calendar_filter
    (all_cals : list Calendar) calendars events st l st1 :
  let from_eligible (e : Event) :=
    ∃ cal, cal ∈ all_cals ∧ eligible calendar_filter cal = true
           ∧ ev_calendar_id e = cal_id cal ∧ ev_account_name e = name in
  calendars ⊆ all_cals →
  Forall from_eligible events →
  _fetch_account_loop env name time_min time_max query calendar_filter events calendars st
    = (Ok l, st1) →
  Forall from_eligible l.
Proof.
  intros from_eligible. revert events st.
  induction calendars as [|cal rest IH]; simpl; intros events st Hsub Hev H.
  - by injection H as <- _.
  - assert (cal ∈ all_cals) as Hcal by (apply Hsub, list_elem_of_here).
    assert (rest ⊆ all_cals) as Hrest
      by (intros c Hc; by apply Hsub, list_elem_of_further).
    destruct (eligible calendar_filter cal) eqn:El; [|by eauto].
    inv_bind H. apply get_events_stamped in Hm as (svc & _ & Hst).
    eapply IH; [done| |exact H]. apply Forall_app. split; [done|].
    eapply Forall_impl; [exact Hst|].
    intros e (Ha & Hc & _). by exists cal.
Qed.

(** X6.  A per-account task returns events of eligible calendars only:
    each event it returns belongs to a calendar of the account's calendar
    list whose access role is owner, writer or reader and which passes the
    name filter.  Calendars that are not eligible are never queried into
    the result. *)
Theorem X6_fetch_account_only_eligible env time_min time_max query calendar_filter
    name st l st1 :
  _fetch_account env time_min time_max query calendar_filter name st = (Ok l, st1) →
  ∃ calendars st0,
    list_calendars env name st = (Ok calendars, st0)
    ∧ Forall (λ e, ∃ cal, cal ∈ calendars ∧ eligible calendar_filter cal = true
                          ∧ ev_calendar_id e = cal_id cal ∧ ev_account_name e = name) l.
Proof.
  unfold _fetch_account. intros H. inv_bind H.
  exists a, st0. split; [done|].
  eapply (fetch_account_loop_eligible env name time_min time_max query calendar_filter
            a a []); [done|constructor|exact H].
Qed.

Lemma X6_witness :
  ∃ calendars st0,
    list_calendars Demo.env "home" initial_state = (Ok calendars, st0)
    ∧ Forall (λ e, ∃ cal, cal ∈ calendars ∧ eligible None cal = true
                          ∧ ev_calendar_id e = cal_id cal ∧ ev_account_name e = "home")
        [Demo.holiday_event].
Proof.
  exact (X6_fetch_account_only_eligible Demo.env None None None None "home"
           initial_state [Demo.holiday_event] _ eq_refl).
Defined.

(** X7.  An account whose name is valid but which has no token file (and
    no cached service) does not stop the aggregate fetch: the call returns
    exactly one synthetic error event that tells the user to run
    [mcli account add]. *)
Theorem X7_missing_credentials env name time_min time_max query calendar_filter st :
  load_credentials env name = Ok None →
  st_service_cache st !! name = None →
  get_all_events env (Some [name]) time_min time_max query calendar_filter st
  = (Ok [error_event name (ValueError (no_credentials_message name))
           (clock_utc env (st_ticks st)) (clock_utc env (S (st_ticks st)))],
     after_error st).
Proof.
  intros Hl Hc. unfold get_all_events. simpl.
  unfold mbind at 1, M_bind at 1. unfold mbind at 1, M_bind at 1, try_.
  assert (_fetch_account env time_min time_max query calendar_filter name st
          = (Raise (ValueError (no_credentials_message name)), st)) as ->.
  { unfold _fetch_account, list_calendars, get_service.
    unfold mbind, M_bind, get_state, lift, raise. by rewrite Hc, Hl. }
  reflexivity.
Qed.

Lemma X7_witness :
  load_credentials Demo.env "guest" = Ok None
  ∧ st_service_cache initial_state !! "guest" = None
  ∧ get_all_events Demo.env (Some ["guest"]) None None None None initial_state
    = (Ok [error_event "guest" (ValueError (no_credentials_message "guest"))
             (clock_utc Demo.env 0) (clock_utc Demo.env 1)],
       after_error initial_state).
Proof.
  split; [reflexivity|]. split; [reflexivity|].
  exact (X7_missing_credentials Demo.env "guest" None None None None initial_state
           eq_refl eq_refl).
Defined.

Lemma convert_items_app {A B} (f : A → result (option B)) xs ys :
  convert_items f (xs ++ ys)
  = (l1 ← convert_items f xs; l2 ← convert_items f ys; Ok (l1 ++ l2)).
Proof.
  induction xs as [|x xs IH]; simpl.
  - by destruct (convert_items f ys).
  - destruct (f x) as [o|e]; simpl; [|done]. rewrite IH.
    destruct (convert_items f xs) as [l1|e]; simpl; [|done].
    destruct (convert_items f ys) as [l2|e]; simpl; [|done].
    by destruct o.
Qed.

Lemma paginate_flat {A B} (f : A → result (option B)) (p : Paged A) items :
  page_items p = Ok items → paginate f p = convert_items f items.
Proof.
  revert items. induction p as [its|its tok rest IH|e]; simpl; intros items H.
  - by injection H as <-.
  - destruct (String.eqb tok "").
    + injection H as <-. by destruct (convert_items f its).
    + inv_bind H. injection H as <-. rewrite convert_items_app, (IH _ Hr).
      done.
  - discriminate.
Qed.

(** X8.  The pagination loops of [list_calendars] and [get_events] give
    the same result (the same items in the same order, or the same
    exception) as converting, in one pass, all items of the pages up to
    the first page that carries no continuation token; an empty token ends
    the loop like a missing one, and later pages are not read. *)
Theorem X8_paginate_flat {A B} (f : A → result (option B)) (p : Paged A) items :
  page_items p = Ok items → paginate f p = convert_items f items.
Proof. apply paginate_flat. Qed.

Lemma X8_witness :
  let p := MorePage [Demo.standup] "t1" (MorePage [Demo.holiday] "" (PageError (RemoteError "x"))) in
  page_items p = Ok [Demo.standup; Demo.holiday]
  ∧ paginate (event_of_item Demo.env "work" "team" "Work Team") p
    = convert_items (event_of_item Demo.env "work" "team" "Work Team")
        [Demo.standup; Demo.holiday].
Proof.
  intros p. split; [reflexivity|].
  exact (X8_paginate_flat _ p _ eq_refl).
Defined.

Lemma M_bind_ext {A B} (m : M A) (k k' : A → M B) st :
  (∀ a st1, k a st1 = k' a st1) → (m ≫= k) st = (m ≫= k') st.
Proof.
  intros H. unfold mbind, M_bind. destruct (m st) as [[a|e] st1]; [apply H|done].
Qed.

Lemma fetch_account_loop_empty_query env name time_min time_max calendar_filter
    events calendars st :
  _fetch_account_loop env name time_min time_max (Some "") calendar_filter events
    calendars st
  = _fetch_account_loop env name time_min time_max None calendar_filter events
      calendars st.
Proof.
  revert events st. induction calendars as [|cal rest IH]; intros events st; simpl; [done|].
  destruct (eligible calendar_filter cal); [|apply IH].
  change (get_events env name time_min time_max (Some "") (cal_id cal))
    with (get_events env name time_min time_max None (cal_id cal)).
  apply M_bind_ext. intros more st1. apply IH.
Qed.

Lemma collect_futures_cons env time_min time_max query calendar_filter all_events
    account rest st :
  collect_futures env time_min time_max query calendar_filter all_events
    (account :: rest) st
  = let '(r, st1) :=
      _fetch_account env time_min time_max query calendar_filter account st in
    match r with
    | Ok events =>
        collect_futures env time_min time_max query calendar_filter
          (all_events ++ events) rest st1
    | Raise e =>
        collect_futures env time_min time_max query calendar_filter
          (all_events ++ [error_event account e (clock_utc env (st_ticks st1))
                            (clock_utc env (S (st_ticks st1)))])
          rest (after_error st1)
    end.
Proof.
  cbn [collect_futures]. unfold mbind at 1, M_bind at 1, try_.
  by destruct (_fetch_account env time_min time_max query calendar_filter account st)
    as [[events|e] st1].
Qed.

Lemma collect_futures_empty_query env time_min time_max calendar_filter all_events
    completed st :
  collect_futures env time_min time_max (Some "") calendar_filter all_events completed st
  = collect_futures env time_min time_max None calendar_filter all_events completed st.
Proof.
  revert all_events st. induction completed as [|account rest IH]; intros all_events st;
    [done|].
  rewrite !collect_futures_cons.
  assert (_fetch_account env time_min time_max (Some "") calendar_filter account st
          = _fetch_account env time_min time_max None calendar_filter account st) as ->.
  { unfold _fetch_account. apply M_bind_ext. intros cals st1.
    apply fetch_account_loop_empty_query. }
  destruct (_fetch_account env time_min time_max None calendar_filter account st)
    as [[events|e] st1]; apply IH.
Qed.

(** X9.  An empty query string is not a filter: [get_all_events] with the
    query [""] does what it does without a query, and so a search for the
    empty text returns every event of the window. *)
Theorem X9_empty_query env account_names calendar_filter :
  (∀ time_min time_max st,
     get_all_events env account_names time_min time_max (Some "") calendar_filter st
     = get_all_events env account_names time_min time_max None calendar_filter st)
  ∧ (∀ t0 t1 st,
       search_events env "" account_names (Some t0) (Some t1) calendar_filter st
       = get_all_events env account_names (Some t0) (Some t1) None calendar_filter st).
Proof.
  assert (∀ time_min time_max st,
     get_all_events env account_names time_min time_max (Some "") calendar_filter st
     = get_all_events env account_names time_min time_max None calendar_filter st) as H.
  { intros time_min time_max st. unfold get_all_events.
    destruct (default (env_list_account_names env) account_names) as [|n ns]; [done|].
    unfold mbind, M_bind. by rewrite collect_futures_empty_query. }
  split; [exact H|].
  intros t0 t1 st. unfold search_events.
  unfold mbind, M_bind, mret, M_ret. apply H.
Qed.

(** ** The calendar filter *)

Lemma str_contains_empty hay : str_contains "" hay = true.
Proof. by destruct hay. Qed.

(** X10.  The substrings of a calendar filter are alternatives: a filter
    made of two non-empty lists accepts a calendar iff one of the lists
    does.  A filter that holds the empty string accepts every calendar. *)
Theorem X10_match_calendar_alternatives fs more cal :
  (fs ≠ [] → more ≠ [] →
   _match_calendar (Some (fs ++ more)) cal
   = (_match_calendar (Some fs) cal || _match_calendar (Some more) cal))
  ∧ ("" ∈ fs → _match_calendar (Some fs) cal = true).
Proof.
  split.
  - intros Hfs Hmore. unfold _match_calendar.
    destruct fs as [|f fs]; [done|]. destruct more as [|g more]; [done|].
    simpl app. cbv beta iota. by rewrite <- existsb_app.
  - intros Hin. unfold _match_calendar. destruct fs as [|f fs].
    + by apply elem_of_nil in Hin.
    + apply existsb_exists. exists "". split; [by apply list_elem_of_In|].
      apply str_contains_empty.
Qed.

Lemma X10_witness :
  let cal := mk_Calendar "team" "Work Team" "owner" "work" "" "" in
  _match_calendar (Some (["ops"] ++ ["TEAM"])) cal
  = (_match_calendar (Some ["ops"]) cal || _match_calendar (Some ["TEAM"]) cal)
  ∧ _match_calendar (Some ["zzz"; ""]) cal = true.
Proof.
  intros cal. split.
  - apply (proj1 (X10_match_calendar_alternatives ["ops"] ["TEAM"] cal)); discriminate.
  - apply (proj2 (X10_match_calendar_alternatives ["zzz"; ""] [] cal)).
    apply list_elem_of_further, list_elem_of_here.
Defined.

(** ** config.py and auth.py *)

(** X11.  A name that [validate_account_name] accepts is not empty and
    contains neither a path separator nor a dot, so it is never an absolute
    path, [.] or [..], nor a path of several components. *)
Theorem X11_accepted_name_has_no_separator name s :
  validate_account_name name = Ok s →
  name ≠ ""
  ∧ (("/"%char) ∉ list_ascii_of_string name)
  ∧ (("."%char) ∉ list_ascii_of_string name).
Proof.
  unfold validate_account_name.
  destruct (re_match_account_name name) eqn:Hm; [|discriminate]. intros _.
  apply re_match_account_name_iff in Hm as (body & [Hne Hall] & Hname).
  assert (∀ c, c ∈ list_ascii_of_string body → name_char c = true) as Hbody.
  { clear -Hall. induction body as [|c0 body IH]; simpl; intros c Hc.
    - by apply elem_of_nil in Hc.
    - simpl in Hall. apply andb_true_iff in Hall as [H0 Hall].
      apply elem_of_cons in Hc as [->|Hc]; eauto. }
  assert (∀ c, c ∈ list_ascii_of_string name →
            name_char c = true ∨ c = ascii_of_nat 10) as Hchars.
  { destruct Hname as [->| ->]; intros c Hc; [left; by apply Hbody|].
    assert (list_ascii_of_string (body +:+ newline)
            = list_ascii_of_string body ++ [ascii_of_nat 10]) as Heq.
    { clear. induction body as [|c0 body IH]; [done|].
      change (c0 :: list_ascii_of_string (body +:+ newline)
              = c0 :: (list_ascii_of_string body ++ [ascii_of_nat 10])).
      by rewrite IH. }
    rewrite Heq in Hc. apply elem_of_app in Hc as [Hc|Hc]; [left; by apply Hbody|].
    right. by apply list_elem_of_singleton in Hc. }
  split; [|split].
  - destruct Hname as [->| ->]; [done|]. by destruct body.
  - intros [H|H]%Hchars; discriminate H.
  - intros [H|H]%Hchars; discriminate H.
Qed.

Lemma X11_witness :
  "work-2024" ≠ ""
  ∧ (("/"%char) ∉ list_ascii_of_string "work-2024")
  ∧ (("."%char) ∉ list_ascii_of_string "work-2024").
Proof.
  exact (X11_accepted_name_has_no_separator "work-2024" "work-2024" eq_refl).
Defined.

(** X12.  When the entry of an accepted name in the accounts directory is
    not a symbolic link (resolving the path of the entry resolves the
    accounts directory and keeps the entry), [get_account_dir] returns the
    entry directly inside the resolved accounts directory, and the token
    file of the account is [token.json] inside that entry. *)
Theorem X12_token_path_in_account_dir env name s :
  validate_account_name name = Ok s →
  env_resolve env (ACCOUNTS_DIR env +:+ "/" +:+ name)
  = env_resolve env (ACCOUNTS_DIR env) +:+ "/" +:+ name →
  get_account_dir env name = Ok (env_resolve env (ACCOUNTS_DIR env) +:+ "/" +:+ name)
  ∧ _token_path env name
    = Ok ((env_resolve env (ACCOUNTS_DIR env) +:+ "/" +:+ name) +:+ "/token.json").
Proof.
  intros Hv Hres.
  assert (re_match_account_name name = true) as Hm.
  { unfold validate_account_name in Hv.
    by destruct (re_match_account_name name). }
  pose proof (get_account_dir_child env name Hm Hres) as Hdir.
  split; [exact Hdir|].
  unfold _token_path. rewrite Hdir. reflexivity.
Qed.

Lemma X12_witness :
  get_account_dir Demo.env "work" = Ok (Demo.accounts_dir +:+ "/" +:+ "work")
  ∧ _token_path Demo.env "work"
    = Ok ((Demo.accounts_dir +:+ "/" +:+ "work") +:+ "/token.json").
Proof.
  exact (X12_token_path_in_account_dir Demo.env "work" "work" eq_refl eq_refl).
Defined.

(** ** display.py: account colours *)

Lemma first_seen_from_NoDup seen names :
  NoDup (seen ++ names) → first_seen_from seen names = seen ++ names.
Proof.
  revert seen. induction names as [|n rest IH]; intros seen Hnd; simpl.
  - by rewrite app_nil_r.
  - apply NoDup_app in Hnd as (Hs & Hdis & Hn).
    rewrite bool_decide_eq_false_2 by (intros Hin; apply (Hdis n Hin), list_elem_of_here).
    rewrite IH; [by rewrite <- app_assoc|].
    rewrite <- app_assoc. simpl. apply NoDup_app. done.
Qed.

Lemma index_of_middle pre n post : n ∉ pre → index_of n (pre ++ n :: post) = length pre.
Proof.
  induction pre as [|x pre IH]; simpl; intros Hin.
  - by rewrite bool_decide_eq_true_2.
  - apply not_elem_of_cons in Hin as [Hne Hin].
    rewrite bool_decide_eq_false_2 by done. by rewrite IH.
Qed.

Lemma map_index_of_NoDup pre l :
  NoDup (pre ++ l) →
  map (λ n, index_of n (pre ++ l)) l = seq (length pre) (length l).
Proof.
  revert pre. induction l as [|n l IH]; intros pre Hnd; simpl; [done|].
  f_equal.
  - apply index_of_middle. apply NoDup_app in Hnd as (_ & Hdis & _).
    intros Hin. apply (Hdis n Hin), list_elem_of_here.
  - specialize (IH (pre ++ [n])). rewrite <- app_assoc in IH. simpl in IH.
    rewrite IH by done. rewrite length_app. simpl. f_equal. lia.
Qed.

Lemma map_palette_seq k :
  (k ≤ length ACCOUNT_COLORS)%nat → map palette (seq 0 k) = take k ACCOUNT_COLORS.
Proof.
  intros Hk. simpl in Hk.
  do 11 (destruct k as [|k]; [reflexivity|]). lia.
Qed.

(** X13.  In a fresh process, up to ten distinct accounts get pairwise
    distinct colours: they receive the first entries of the palette in the
    order in which they are first queried. *)
Theorem X13_distinct_colors names st :
  st_color_map st = ∅ → NoDup names → (length names ≤ length ACCOUNT_COLORS)%nat →
  ∃ colors st',
    for_each _get_account_color names st = (Ok colors, st')
    ∧ colors = take (length names) ACCOUNT_COLORS
    ∧ NoDup colors.
Proof.
  intros Hempty Hnd Hlen.
  assert (colored [] st) as Hc.
  { split; [by rewrite Hempty|]. intros n. by rewrite Hempty, lookup_empty. }
  destruct (get_account_color_run names [] st Hc) as (st' & Hrun & _).
  assert (map (λ n, palette (index_of n (first_seen_from [] names))) names
          = take (length names) ACCOUNT_COLORS) as Heq.
  { rewrite first_seen_from_NoDup by done.
    pose proof (map_index_of_NoDup [] names Hnd) as Hm. simpl in Hm.
    change ([] ++ names) with names.
    rewrite <- (map_map (λ n, index_of n names) palette names), Hm.
    by apply map_palette_seq. }
  eexists _, st'. split; [exact Hrun|]. split; [exact Heq|].
  rewrite Heq. apply (sublist_NoDup _ ACCOUNT_COLORS); [|apply sublist_take].
  apply (bool_decide_unpack _). by vm_compute.
Qed.

Lemma X13_witness :
  st_color_map initial_state = ∅ ∧ NoDup ["c"; "a"; "b"]
  ∧ (length ["c"; "a"; "b"] ≤ length ACCOUNT_COLORS)%nat
  ∧ ∃ colors st',
      for_each _get_account_color ["c"; "a"; "b"] initial_state = (Ok colors, st')
      ∧ colors = take (length ["c"; "a"; "b"]) ACCOUNT_COLORS
      ∧ NoDup colors.
Proof.
  assert (NoDup ["c"; "a"; "b"]) as Hnd by (apply (bool_decide_unpack _); by vm_compute).
  assert (length ["c"; "a"; "b"] ≤ length ACCOUNT_COLORS)%nat as Hlen by (simpl; lia).
  split; [reflexivity|]. split; [exact Hnd|]. split; [exact Hlen|].
  exact (X13_distinct_colors ["c"; "a"; "b"] initial_state eq_refl Hnd Hlen).
Defined.

(** ** display.py: the week grid *)

(** X14.  The week grid starts on the configured first day of the week:
    the aligned start is a Monday (or a Sunday), lies at most six days
    before the requested date, and column [j] of week [w] shows the date
    [7 w + j] days after it. *)
Theorem X14_week_alignment start_date monday_start :
  let a := align_week_start start_date monday_start in
  weekday a = (if monday_start then 0 else 6)
  ∧ a ≤ start_date < a + 7
  ∧ ∀ w j day, week_days a w !! j = Some day →
      day = a + 7 * Z.of_nat w + Z.of_nat j ∧ (j < 7)%nat.
Proof.
  intros a. subst a. unfold align_week_start, weekday. cbv zeta.
  split; [|split].
  - destruct monday_start; Z.to_euclidean_division_equations; lia.
  - destruct monday_start; Z.to_euclidean_division_equations; lia.
  - intros w j day Hd. unfold week_days in Hd.
    rewrite list_lookup_fmap in Hd.
    destruct (seq 0 7 !! j) as [i|] eqn:Ei; [|discriminate].
    apply lookup_seq in Ei as [-> Hj]. injection Hd as <-. split; lia.
Qed.

Lemma X14_witness :
  let a := align_week_start (ymd2ord 2024 3 1) true in
  week_days a 1 !! 3%nat = Some (ymd2ord 2024 3 7)
  ∧ ymd2ord 2024 3 7 = a + 7 * Z.of_nat 1 + Z.of_nat 3 ∧ (3 < 7)%nat.
Proof.
  intros a. split; [reflexivity|].
  exact (proj2 (proj2 (X14_week_alignment (ymd2ord 2024 3 1) true)) 1%nat 3%nat
           (ymd2ord 2024 3 7) eq_refl).
Defined.

Lemma collect_day_events_filter (P : Event → Prop) `{∀ e, Decision (P e)} days events :
  (∀ e, dt_date (ev_start e) ∈ days → P e) →
  collect_day_events days (filter P events) = collect_day_events days events.
Proof.
  intros HP. unfold collect_day_events.
  set (step := λ (day_events : DayEvents) event, _).
  assert (∀ d, map fst d = days →
            foldl step d (filter P events) = foldl step d events) as Hgen.
  { induction events as [|ev events IH]; intros d Hd; [done|].
    rewrite filter_cons. destruct (decide (P ev)) as [Hev|Hev]; simpl.
    - unfold step at 2 4. destruct (dict_contains _ d); [|by apply IH].
      apply IH. by rewrite dict_append_keys.
    - unfold step at 3. destruct (dict_contains _ d) eqn:Ec; [|by apply IH].
      apply dict_contains_keys in Ec. rewrite Hd in Ec. by apply HP in Ec. }
  apply Hgen. clear. induction days as [|d days IH]; simpl; [done|]. by rewrite IH.
Qed.

Lemma for_each_ext {A B} (f g : A → M B) l st :
  (∀ x, x ∈ l → ∀ st0, f x st0 = g x st0) → for_each f l st = for_each g l st.
Proof.
  revert st. induction l as [|x l IH]; intros st Hfg; simpl; [done|].
  unfold mbind, M_bind. rewrite (Hfg x) by apply list_elem_of_here.
  destruct (g x st) as [[y|e] st1]; [|done].
  rewrite IH; [done|]. intros z Hz. by apply Hfg, list_elem_of_further.
Qed.

(** X15.  [print_week] shows only events that start on one of the days of
    the grid: events that start before the first column or after the last
    one change nothing of what is printed, nor the colours assigned. *)
Theorem X15_print_week_window env events weeks start_date monday_start st :
  let a := align_week_start (default (env_today env) start_date) monday_start in
  print_week env (filter (in_week_window a weeks) events) weeks start_date monday_start st
  = print_week env events weeks start_date monday_start st.
Proof.
  intros a. unfold print_week. fold a.
  apply for_each_ext. intros w Hw st0.
  apply elem_of_seq in Hw. unfold week_table.
  rewrite collect_day_events_filter; [done|].
  intros e He. unfold week_days in He.
  apply list_elem_of_fmap in He as (j & Heq & Hj).
  apply elem_of_seq in Hj. unfold in_week_window. rewrite Heq. lia.
Qed.

(** ** display.py: the month grid *)

Lemma event_by_day_lookup year month events d :
  default [] (event_by_day year month events !! d)
  = filter (on_month_day year month d) events.
Proof.
  unfold event_by_day.
  set (step := λ (m : gmap Z (list Event)) (event : Event), _).
  assert (∀ m0, default [] (foldl step m0 events !! d)
                = default [] (m0 !! d) ++ filter (on_month_day year month d) events)
    as Hgen.
  { induction events as [|ev events IH]; intros m0; cbn [foldl].
    - by rewrite filter_nil, app_nil_r.
    - rewrite IH, filter_cons.
      destruct (ord2ymd (dt_date (ev_start ev))) as [[y mo] d'] eqn:Eo.
      assert (step m0 ev
              = if (y =? year) && (mo =? month)
                then <[d' := default [] (m0 !! d') ++ [ev]]> m0 else m0) as ->
        by (unfold step; by rewrite Eo).
      destruct (decide (on_month_day year month d ev)) as [Hd|Hd];
        unfold on_month_day in Hd; rewrite Eo in Hd.
      + injection Hd as -> -> ->. rewrite !Z.eqb_refl. simpl.
        rewrite lookup_insert_eq. simpl. by rewrite <- app_assoc.
      + destruct ((y =? year) && (mo =? month)) eqn:E; [|done].
        apply andb_true_iff in E as [Ey%Z.eqb_eq Em%Z.eqb_eq]. subst y mo.
        rewrite lookup_insert_ne; [done|]. congruence. }
  rewrite Hgen. by rewrite lookup_empty.
Qed.

Lemma event_by_day_filter year month events :
  event_by_day year month (filter (in_month year month) events)
  = event_by_day year month events.
Proof.
  unfold event_by_day.
  set (step := λ (m : gmap Z (list Event)) (event : Event), _).
  assert (∀ m0, foldl step m0 (filter (in_month year month) events)
                = foldl step m0 events) as Hgen.
  { induction events as [|ev events IH]; intros m0; [done|].
    rewrite filter_cons. destruct (decide (in_month year month ev)) as [Hin|Hin]; simpl.
    - apply IH.
    - rewrite IH. f_equal. unfold step, in_month in *.
      destruct (ord2ymd (dt_date (ev_start ev))) as [[y mo] d']. simpl in Hin.
      destruct (y =? year) eqn:Ey, (mo =? month) eqn:Em; simpl; try done.
      apply Z.eqb_eq in Ey, Em. congruence. }
  apply Hgen.
Qed.

(** X16.  [print_month] takes no account of events that start outside the
    month shown, also when they fall into a week row of the grid: leaving
    them out of the input changes nothing of what is printed. *)
Theorem X16_print_month_other_months env events start_date monday_start st :
  let start := default (first_of_this_month env) start_date in
  print_month env
    (filter (in_month (ord2ymd start).1.1 (ord2ymd start).1.2) events)
    start_date monday_start st
  = print_month env events start_date monday_start st.
Proof. intros start. unfold print_month. fold start. by rewrite event_by_day_filter. Qed.

Lemma str_take_first_chars n s : first_chars n s (str_take n s).
Proof.
  revert n. induction s as [|c s IH]; intros n.
  - exists "". split; [done|]. split; [|done]. simpl. by rewrite Nat.min_0_r.
  - simpl. destruct (is_continuation c) eqn:Ec.
    + destruct (IH n) as (rest & Hs & Hn & Hr). exists rest.
      split; [change (String c s = String c (str_take n s +:+ rest)); by f_equal|].
      split; [|done]. simpl. by rewrite Ec.
    + destruct n as [|n].
      * exists (String c s). split; [done|]. split; [done|]. exact Ec.
      * destruct (IH n) as (rest & Hs & Hn & Hr). exists rest.
        split; [change (String c s = String c (str_take n s +:+ rest)); by f_equal|].
        split; [|done]. simpl. rewrite Ec. by rewrite Hn.
Qed.

Example str_take_characters :
  str_take 2 "일정 회의" = "일정" ∧ str_take 3 "café au lait" = "caf"
  ∧ str_take 4 "café au lait" = "café" ∧ str_take 6 "abc" = "abc".
Proof. by vm_compute. Qed.

Lemma month_marker_total evt st :
  ∃ marker st',
    month_marker evt st = (Ok marker, st')
    ∧ ∃ color title,
        marker = "[" +:+ color +:+ "]·[/" +:+ color +:+ "]" +:+ title
        ∧ first_chars 6 (ev_summary evt) title.
Proof.
  unfold month_marker.
  destruct (get_account_color_total (ev_account_name evt) st) as (c & st' & Hc).
  eexists _, st'. split; [by erewrite M_bind_Ok by exact Hc|].
  exists c, (str_take 6 (ev_summary evt)). split; [done|]. apply str_take_first_chars.
Qed.

Lemma month_day_header_text env year month day_num :
  month_day_header env year month day_num
  = let day_text :=
      if decide (0 ≤ day_num < 10) then " " +:+ pretty day_num else pretty day_num in
    if decide (ymd2ord year month day_num = env_today env)
    then "[bold bright_white on blue]" +:+ day_text +:+ "[/bold bright_white on blue]"
    else "[bold]" +:+ day_text +:+ "[/bold]".
Proof.
  unfold month_day_header, format_2d. cbv zeta.
  assert ((0 <=? day_num) && (day_num <? 10)
          = bool_decide (0 ≤ day_num < 10)) as ->.
  { case_bool_decide as H.
    - apply andb_true_iff. split; [apply Z.leb_le|apply Z.ltb_lt]; lia.
    - apply andb_false_iff.
      destruct (Z.leb_spec 0 day_num); [right|by left]. apply Z.ltb_ge. lia. }
  destruct (Z.eqb_spec (ymd2ord year month day_num) (env_today env)) as [He|He].
  - rewrite decide_True by done. by case_bool_decide; [rewrite decide_True|rewrite decide_False].
  - rewrite decide_False by done. by case_bool_decide; [rewrite decide_True|rewrite decide_False].
Qed.

Lemma month_overflow_text n :
  month_overflow n
  = if decide (n ≤ 3)%nat then [] else ["[dim]+" +:+ pretty (n - 3)%nat +:+ "[/dim]"].
Proof.
  unfold month_overflow. destruct (Nat.ltb_spec 3 n).
  - by rewrite decide_False by lia.
  - by rewrite decide_True by lia.
Qed.

Lemma month_cell_total env year month events day_num st :
  ∃ cell st',
    month_cell env year month (event_by_day year month events) day_num st
    = (Ok cell, st')
    ∧ month_cell_ok env year month events day_num cell.
Proof.
  unfold month_cell, month_cell_ok. destruct (decide (day_num = 0)) as [->|Hne].
  - by eexists "", st.
  - rewrite (proj2 (Z.eqb_neq _ _) Hne), event_by_day_lookup.
    destruct (for_each_total month_marker _ month_marker_total
                (take 3 (filter (on_month_day year month day_num) events)) st)
      as (markers & st' & Hm & HP).
    eexists _, st'. split; [by erewrite M_bind_Ok by exact Hm|].
    exists markers. split; [|exact HP].
    by rewrite month_day_header_text, month_overflow_text.
Qed.

Lemma print_month_cells env events start_date monday_start st :
  let start := default (first_of_this_month env) start_date in
  let year := (ord2ymd start).1.1 in
  let month := (ord2ymd start).1.2 in
  ∃ view st',
    print_month env events start_date monday_start st = (Ok view, st')
    ∧ Forall2 (Forall2 (month_cell_ok env year month events))
        (monthdayscalendar (if monday_start then 0 else 6) year month)
        (mv_rows view).
Proof.
  intros start year month. unfold print_month. fold start year month.
  destruct (for_each_total
              (λ week, for_each (month_cell env year month
                                   (event_by_day year month events)) week)
              (Forall2 (month_cell_ok env year month events))
              (λ week st0, for_each_total _ _
                             (month_cell_total env year month events) week st0)
              (monthdayscalendar (if monday_start then 0 else 6) year month) st)
    as (rows & st' & Hrows & HP).
  eexists _, st'. split; [by erewrite M_bind_Ok by exact Hrows|]. exact HP.
Qed.

(** X17.  Every cell of the month grid that stands for a day holds the day
    number in bold, two wide, then one marker for each of the first three
    events that start on that day (in input order, with the title cut to
    its first six characters), then the counter [+K] with [K] the number of
    events beyond three, if any; the padding cells are blank. *)
Theorem X17_print_month_cells env events start_date monday_start st :
  let start := default (first_of_this_month env) start_date in
  let year := (ord2ymd start).1.1 in
  let month := (ord2ymd start).1.2 in
  ∃ view st',
    print_month env events start_date monday_start st = (Ok view, st')
    ∧ Forall2 (Forall2 (month_cell_ok env year month events))
        (monthdayscalendar (if monday_start then 0 else 6) year month)
        (mv_rows view).
Proof. apply print_month_cells. Qed.

Example print_month_five_events :
  let ev (id : string) :=
    mk_Event id id (datetime_of 2024 3 5 9 0 0 0 (Some KST))
      (datetime_of 2024 3 5 10 0 0 0 (Some KST)) "work" "team" "Work Team"
      "" "" false "" "" [] "" "confirmed" in
  ∃ view st',
    print_month Demo.env [ev "a"; ev "b"; ev "c"; ev "d"; ev "e"] None true initial_state
    = (Ok view, st')
    ∧ mv_rows view !! 1%nat ≫= (.!! 1%nat)
      = Some ("[bold] 5[/bold]" +:+ newline +:+ "[cyan]·[/cyan]a" +:+ newline
              +:+ "[cyan]·[/cyan]b" +:+ newline +:+ "[cyan]·[/cyan]c" +:+ newline
              +:+ "[dim]+2[/dim]").
Proof. intros ev. eexists _, _. split; vm_compute; reflexivity. Qed.

Lemma chunks7_spec fuel l k :
  length l = (7 * k)%nat → (k ≤ fuel)%nat →
  concat (chunks7 fuel l) = l ∧ Forall (λ c, length c = 7%nat) (chunks7 fuel l).
Proof.
  revert l k. induction fuel as [|fuel IH]; intros l k Hl Hk.
  - assert (k = 0%nat) as -> by lia. destruct l; [by split|discriminate].
  - destruct l as [|x l]; [by split|]. cbn [chunks7].
    destruct k as [|k]; [discriminate|].
    destruct (IH (drop 7 (x :: l)) k) as [Hc Hf].
    + rewrite length_drop. lia.
    + lia.
    + split.
      * cbn [concat]. rewrite Hc. apply take_drop.
      * constructor; [|done]. rewrite length_take. lia.
Qed.

Lemma itermonthdays_length firstweekday y m :
  ∃ k, length (itermonthdays firstweekday y m) = (7 * k)%nat.
Proof.
  unfold itermonthdays, monthrange.
  set (day1 := weekday (ymd2ord y m 1)). set (ndays := days_in_month y m).
  assert (28 ≤ ndays ≤ 31) as Hn.
  { unfold ndays, days_in_month. repeat case_match; lia. }
  rewrite !length_app, !length_replicate, length_map, length_seq.
  set (b := (day1 - firstweekday) mod 7). set (a := (firstweekday - day1 - ndays) mod 7).
  assert (0 ≤ b < 7) as Hb by (apply Z.mod_pos_bound; lia).
  assert (0 ≤ a < 7) as Ha by (apply Z.mod_pos_bound; lia).
  assert ((b + ndays + a) mod 7 = 0) as Hmod
    by (unfold a, b; Z.to_euclidean_division_equations; lia).
  exists (Z.to_nat ((b + ndays + a) / 7)).
  pose proof (Z.div_mod (b + ndays + a) 7 ltac:(lia)) as Hdm.
  assert (0 ≤ (b + ndays + a) / 7) by (apply Z.div_pos; lia).
  lia.
Qed.

Lemma itermonthdays_days firstweekday y m :
  filter (λ d, d ≠ 0) (itermonthdays firstweekday y m)
  = map Z.of_nat (seq 1 (Z.to_nat (days_in_month y m))).
Proof.
  unfold itermonthdays, monthrange.
  assert (∀ n, filter (λ d : Z, d ≠ 0) (replicate n 0) = []) as Hrep.
  { induction n as [|n IH]; [done|]. simpl. by rewrite filter_cons_False by lia. }
  rewrite !filter_app, !Hrep, app_nil_r. simpl.
  assert (∀ n s, (1 ≤ s)%nat →
            filter (λ d : Z, d ≠ 0) (map Z.of_nat (seq s n)) = map Z.of_nat (seq s n))
    as Hseq.
  { induction n as [|n IH]; intros s Hs; [done|]. simpl.
    rewrite filter_cons_True by lia. rewrite IH by lia. done. }
  by apply Hseq.
Qed.

Lemma monthdayscalendar_spec firstweekday y m :
  concat (monthdayscalendar firstweekday y m) = itermonthdays firstweekday y m
  ∧ Forall (λ c, length c = 7%nat) (monthdayscalendar firstweekday y m).
Proof.
  destruct (itermonthdays_length firstweekday y m) as [k Hk].
  apply (chunks7_spec _ _ k Hk). lia.
Qed.

Lemma String_concat_nonempty sep c s rest : String.concat sep (String c s :: rest) ≠ "".
Proof. by destruct rest. Qed.

Lemma month_cell_ok_blank env year month events day_num cell :
  month_cell_ok env year month events day_num cell → (cell = "" ↔ day_num = 0).
Proof.
  unfold month_cell_ok. destruct (decide (day_num = 0)) as [->|Hne]; [done|].
  intros (markers & -> & _). split; [|done]. intros Hc. exfalso. revert Hc.
  destruct (decide (ymd2ord year month day_num = env_today env));
    apply String_concat_nonempty.
Qed.

(** X18.  The month grid has seven cells in every row; a cell is blank
    exactly when it pads the first or the last week, and the other cells
    are the days 1 to the last day of the month, each once and in order. *)
Theorem X18_print_month_shape env events start_date (monday_start : bool) st :
  let start := default (first_of_this_month env) start_date in
  let year := (ord2ymd start).1.1 in
  let month := (ord2ymd start).1.2 in
  let weeks := monthdayscalendar (if monday_start then 0 else 6) year month in
  ∃ view st',
    print_month env events start_date monday_start st = (Ok view, st')
    ∧ Forall (λ row : list string, length row = 7%nat) (mv_rows view)
    ∧ Forall2 (Forall2 (λ day_num cell, cell = "" ↔ day_num = 0)) weeks (mv_rows view)
    ∧ filter (λ d, d ≠ 0) (concat weeks)
      = map Z.of_nat (seq 1 (Z.to_nat (days_in_month year month))).
Proof.
  intros start year month weeks.
  destruct (print_month_cells env events start_date monday_start st)
    as (view & st' & Hrun & HP).
  fold start year month weeks in HP.
  destruct (monthdayscalendar_spec (if monday_start then 0 else 6) year month)
    as [Hcat Hlen].
  change (monthdayscalendar (if monday_start then 0 else 6) year month)
    with weeks in Hcat, Hlen.
  assert (Forall2 (Forall2 (λ day_num cell, cell = "" ↔ day_num = 0)) weeks (mv_rows view))
    as Hblank.
  { eapply Forall2_impl; [exact HP|]. intros week row Hrow.
    eapply Forall2_impl; [exact Hrow|]. intros d cell. apply month_cell_ok_blank. }
  exists view, st'. split; [exact Hrun|]. split; [|split; [exact Hblank|]].
  - clear -Hblank Hlen. induction Hblank as [|week row weeks rows Hrow _ IH]; [done|].
    apply Forall_cons in Hlen as [Hw Hlen]. constructor; [|by apply IH].
    by rewrite <- (Forall2_length _ _ _ Hrow).
  - rewrite Hcat. apply itermonthdays_days.
Qed.

(** ** display.py: the agenda *)

Lemma groupby_concat {A} (key : A → Z) l : concat (map snd (groupby key l)) = l.
Proof.
  induction l as [|x l IH]; simpl; [done|].
  destruct (groupby key l) as [|[k g] gs]; simpl in *.
  - by rewrite <- IH.
  - destruct (key x =? k); simpl; by rewrite <- IH.
Qed.

Lemma groupby_groups {A} (key : A → Z) l :
  Forall (λ g, g.2 ≠ [] ∧ Forall (λ x, key x = g.1) g.2) (groupby key l).
Proof.
  induction l as [|x l IH]; simpl; [constructor|].
  destruct (groupby key l) as [|[k g] gs]; simpl in *.
  - repeat constructor; done.
  - apply Forall_cons in IH as [[Hne Hg] IH]. simpl in *.
    destruct (key x =? k) eqn:E.
    + apply Z.eqb_eq in E. constructor; [|done]. simpl. split; [done|by constructor].
    + repeat constructor; done.
Qed.

Lemma groupby_sorted {A} (key : A → Z) l :
  StronglySorted Z.le (map key l) →
  StronglySorted Z.lt (map fst (groupby key l))
  ∧ ∀ k, k ∈ map fst (groupby key l) → k ∈ map key l.
Proof.
  induction l as [|x l IH]; simpl; intros Hs; [split; [constructor|done]|].
  apply StronglySorted_inv in Hs as [Hs Hx].
  destruct (IH Hs) as [IHs IHk]. clear IH.
  destruct (groupby key l) as [|[k g] gs]; simpl in *.
  - split; [repeat constructor|]. intros k Hk. apply elem_of_cons in Hk as [->|Hk].
    + apply list_elem_of_here.
    + by apply elem_of_nil in Hk.
  - assert (∀ k', k' ∈ k :: map fst gs → key x ≤ k') as Hle.
    { intros k' Hk'. apply IHk in Hk'. rewrite Forall_forall in Hx. by apply Hx. }
    destruct (key x =? k) eqn:E; simpl.
    + split; [done|]. intros k' Hk'. apply list_elem_of_further. by apply IHk.
    + apply Z.eqb_neq in E. split.
      * constructor; [done|]. apply StronglySorted_inv in IHs as [_ Hk].
        constructor.
        -- specialize (Hle k (list_elem_of_here _ _)). lia.
        -- rewrite Forall_forall in Hk |- *. intros k' Hk'.
           specialize (Hk k' Hk').
           specialize (Hle k (list_elem_of_here _ _)). lia.
      * intros k' Hk'. apply elem_of_cons in Hk' as [->|Hk'].
        -- apply list_elem_of_here.
        -- apply list_elem_of_further. by apply IHk.
Qed.

Lemma groupby_adjacent {A} (key : A → Z) l pre g1 g2 post :
  groupby key l = pre ++ g1 :: g2 :: post → g1.1 ≠ g2.1.
Proof.
  revert pre g1 g2 post. induction l as [|x l IH]; intros pre g1 g2 post; simpl.
  - by destruct pre.
  - destruct (groupby key l) as [|[k g] gs].
    + destruct pre as [|p [|q pre]]; discriminate.
    + destruct (key x =? k) eqn:E.
      * destruct pre as [|p pre]; simpl.
        -- intros [= <- ->]. exact (IH [] (k, g) g2 post eq_refl).
        -- intros [= <- ->]. exact (IH ((k, g) :: pre) g1 g2 post eq_refl).
      * apply Z.eqb_neq in E. destruct pre as [|p pre]; simpl.
        -- by intros [= <- <- _].
        -- intros [= <- H]. exact (IH pre g1 g2 post H).
Qed.

Lemma groupby_runs events :
  runs_by_date events (groupby (λ e, dt_date (ev_start e)) events).
Proof.
  split; [apply groupby_concat|]. split.
  - apply (groupby_groups (λ e, dt_date (ev_start e))).
  - intros pre g1 g2 post. apply groupby_adjacent.
Qed.

Lemma agenda_line_total military event st :
  ∃ line st',
    agenda_line military event st = (Ok line, st') ∧ agenda_line_ok military event line.
Proof.
  unfold agenda_line.
  destruct (get_account_color_total (ev_account_name event) st) as (c & st' & Hc).
  eexists _, st'. split; [by erewrite M_bind_Ok by exact Hc|].
  exists c. cbv zeta.
  assert ((if String.eqb (ev_status event) "error"
           then "[red]" +:+ ev_summary event +:+ "[/red]" else ev_summary event)
          = if decide (ev_status event = "error")
            then "[red]" +:+ ev_summary event +:+ "[/red]" else ev_summary event) as ->.
  { destruct (String.eqb_spec (ev_status event) "error");
      [by rewrite decide_True|by rewrite decide_False]. }
  destruct (ev_location event) as [|a loc].
  - rewrite (decide_True (P := "" = "")) by done. by destruct military.
  - rewrite (decide_False (P := String a loc = "")) by done. by destruct military.
Qed.

Lemma agenda_section_total military g st :
  ∃ sec st',
    agenda_section military g st = (Ok sec, st') ∧ agenda_section_ok military g sec.
Proof.
  unfold agenda_section.
  destruct (for_each_total (agenda_line military) _ (agenda_line_total military) g.2 st)
    as (lines & st' & Hl & HP).
  eexists _, st'. split; [by erewrite M_bind_Ok by exact Hl|].
  by exists lines.
Qed.

Lemma print_agenda_sections events military st :
  events ≠ [] →
  ∃ sections st',
    print_agenda events military st = (Ok (concat sections), st')
    ∧ Forall2 (agenda_section_ok military)
        (groupby (λ e, dt_date (ev_start e)) events) sections.
Proof.
  intros Hne. unfold print_agenda. destruct events as [|e events]; [done|].
  destruct (for_each_total (agenda_section military) _ (agenda_section_total military)
              (groupby (λ e, dt_date (ev_start e)) (e :: events)) st)
    as (sections & st' & Hs & HP).
  exists sections, st'. split; [by erewrite M_bind_Ok by exact Hs|]. exact HP.
Qed.

(** X19.  [print_agenda] prints one notice for an empty list.  Otherwise
    (for events of years with four digits) it prints the events in input
    order, cut into the maximal runs of
    consecutive events with the same start date: each run gets its date as
    a header and a rule, followed by the line of each event of the run, so
    that every event is printed exactly once, under a header with its own
    date, and a new header comes exactly where the date changes. *)
Theorem X19_print_agenda_sections events military st :
  print_agenda [] military st = (Ok ["[dim]No events found.[/dim]"], st)
  ∧ (events ≠ [] → Forall four_digit_year events →
     ∃ groups sections st',
       print_agenda events military st = (Ok (concat sections), st')
       ∧ runs_by_date events groups
       ∧ Forall2 (agenda_section_ok military) groups sections).
Proof.
  split; [done|]. intros Hne _.
  destruct (print_agenda_sections events military st Hne) as (sections & st' & H & HP).
  exists (groupby (λ e, dt_date (ev_start e)) events), sections, st'.
  split; [done|]. split; [apply groupby_runs|done].
Qed.

Lemma X19_witness :
  let events := [Demo.holiday_event; Demo.standup_event] in
  events ≠ []
  ∧ Forall four_digit_year events
  ∧ ∃ groups sections st',
      print_agenda events true initial_state = (Ok (concat sections), st')
      ∧ runs_by_date events groups
      ∧ Forall2 (agenda_section_ok true) groups sections.
Proof.
  intros events.
  assert (events ≠ []) as Hne by discriminate.
  assert (Forall four_digit_year events) as Hy by (repeat constructor; by vm_compute).
  split; [exact Hne|]. split; [exact Hy|].
  exact (proj2 (X19_print_agenda_sections events true initial_state) Hne Hy).
Defined.

(** The same date twice, apart: the agenda opens the day twice. *)
Example print_agenda_date_twice :
  let on (id : string) (d : Z) :=
    mk_Event id id (datetime_of 2024 3 d 9 0 0 0 (Some KST))
      (datetime_of 2024 3 d 10 0 0 0 (Some KST)) "work" "team" "Work Team"
      "" "" false "" "" [] "" "confirmed" in
  ∃ lines st',
    print_agenda [on "a" 1; on "b" 2; on "c" 1] true initial_state = (Ok lines, st')
    ∧ filter is_day_header lines
      = [newline +:+ "[bold yellow]Fri 2024-03-01[/bold yellow]";
         newline +:+ "[bold yellow]Sat 2024-03-02[/bold yellow]";
         newline +:+ "[bold yellow]Fri 2024-03-01[/bold yellow]"].
Proof. eexists _, _. split; [vm_compute; reflexivity|]. by vm_compute. Qed.

Lemma agenda_line_not_header military e line :
  agenda_line_ok military e line → ¬ is_day_header line.
Proof. intros [color ->]. unfold is_day_header. simpl. discriminate. Qed.

Lemma agenda_headers military groups sections :
  Forall2 (agenda_section_ok military) groups sections →
  filter is_day_header (concat sections)
  = map (λ day, newline +:+ "[bold yellow]" +:+ strftime_a_Ymd day +:+ "[/bold yellow]")
        (map fst groups).
Proof.
  induction 1 as [|g sec groups sections (lines & -> & Hl) _ IH]; [done|].
  simpl. rewrite filter_cons, decide_True.
  2:{ unfold is_day_header. apply prefix_app. by eexists. }
  rewrite filter_cons, decide_False by (unfold is_day_header; simpl; discriminate).
  rewrite filter_app, IH. f_equal.
  replace (filter is_day_header lines) with (@nil string); [done|].
  clear -Hl. induction Hl as [|e line es ls Hline _ IH]; [done|].
  rewrite filter_cons, decide_False by (by eapply agenda_line_not_header). done.
Qed.

(** X20.  When the events (of years with four digits) come ordered by
    start date, the agenda has exactly one header per date: the header
    lines of the output are the headers of the dates on which events
    start, each date once, in increasing order. *)
Theorem X20_print_agenda_one_header_per_day events military st :
  events ≠ [] → Forall four_digit_year events →
  StronglySorted Z.le (map (λ e, dt_date (ev_start e)) events) →
  ∃ days lines st',
    print_agenda events military st = (Ok lines, st')
    ∧ filter is_day_header lines
      = map (λ day, newline +:+ "[bold yellow]" +:+ strftime_a_Ymd day
                    +:+ "[/bold yellow]") days
    ∧ StronglySorted Z.lt days
    ∧ ∀ day, day ∈ days ↔ ∃ e, e ∈ events ∧ dt_date (ev_start e) = day.
Proof.
  intros Hne _ Hs.
  destruct (print_agenda_sections events military st Hne) as (sections & st' & H & HP).
  set (key := λ e : Event, dt_date (ev_start e)) in *.
  destruct (groupby_sorted key events Hs) as [Hsorted Hin].
  exists (map fst (groupby key events)), (concat sections), st'.
  split; [done|]. split; [by eapply agenda_headers|]. split; [done|].
  intros day. split.
  - intros Hd. apply Hin in Hd. apply list_elem_of_fmap in Hd as (e & -> & He).
    by exists e.
  - intros (e & He & <-).
    pose proof (groupby_concat key events) as Hcat.
    pose proof (groupby_groups key events) as Hg.
    rewrite <- Hcat in He. apply list_elem_of_In, in_concat in He as (l & Hl & Hel).
    apply in_map_iff in Hl as (g & <- & Hgin).
    apply list_elem_of_In in Hgin, Hel.
    rewrite Forall_forall in Hg. destruct (Hg g Hgin) as [_ Hk].
    rewrite Forall_forall in Hk. specialize (Hk e Hel). unfold key in Hk |- *.
    simpl in Hk. rewrite Hk.
    apply list_elem_of_fmap. by exists g.
Qed.

Lemma X20_witness :
  let events := [Demo.holiday_event; Demo.standup_event] in
  events ≠ []
  ∧ Forall four_digit_year events
  ∧ StronglySorted Z.le (map (λ e, dt_date (ev_start e)) events)
  ∧ ∃ days lines st',
      print_agenda events true initial_state = (Ok lines, st')
      ∧ filter is_day_header lines
        = map (λ day, newline +:+ "[bold yellow]" +:+ strftime_a_Ymd day
                      +:+ "[/bold yellow]") days
      ∧ StronglySorted Z.lt days
      ∧ ∀ day, day ∈ days ↔ ∃ e, e ∈ events ∧ dt_date (ev_start e) = day.
Proof.
  intros events.
  assert (events ≠ []) as Hne by discriminate.
  assert (Forall four_digit_year events) as Hy by (repeat constructor; by vm_compute).
  assert (StronglySorted Z.le (map (λ e, dt_date (ev_start e)) events)) as Hs.
  { repeat constructor. by vm_compute. }
  split; [exact Hne|]. split; [exact Hy|]. split; [exact Hs|].
  exact (X20_print_agenda_one_header_per_day events true initial_state Hne Hy Hs).
Defined.

(** ** The civil calendar *)

Lemma civil_ok_from_spec fuel n :
  civil_ok_from fuel n = true → ∀ i, n ≤ i < n + Z.of_nat fuel → civil_ok i = true.
Proof.
  revert n. induction fuel as [|fuel IH]; intros n H i Hi; [lia|].
  simpl in H. apply andb_true_iff in H as [H0 H].
  destruct (decide (i = n)) as [->|Hne]; [done|].
  apply (IH (n + 1) H). lia.
Qed.

Lemma civil_ok_cycle : civil_ok_from (Z.to_nat DI400Y) 1 = true.
Proof. vm_compute. reflexivity. Qed.

Lemma is_leap_shift y k : is_leap (y + 400 * k) = is_leap y.
Proof.
  unfold is_leap.
  replace ((y + 400 * k) mod 4) with (y mod 4)
    by (Z.to_euclidean_division_equations; lia).
  replace ((y + 400 * k) mod 100) with (y mod 100)
    by (Z.to_euclidean_division_equations; lia).
  replace ((y + 400 * k) mod 400) with (y mod 400)
    by (Z.to_euclidean_division_equations; lia).
  done.
Qed.

Lemma days_in_month_shift y m k : days_in_month (y + 400 * k) m = days_in_month y m.
Proof. unfold days_in_month. by rewrite is_leap_shift. Qed.

Lemma ymd2ord_shift y m d k : ymd2ord (y + 400 * k) m d = ymd2ord y m d + DI400Y * k.
Proof.
  unfold ymd2ord, days_before_month, days_before_year, DI400Y.
  rewrite is_leap_shift. cbv zeta.
  replace ((y + 400 * k - 1) / 4) with ((y - 1) / 4 + 100 * k)
    by (Z.to_euclidean_division_equations; lia).
  replace ((y + 400 * k - 1) / 100) with ((y - 1) / 100 + 4 * k)
    by (Z.to_euclidean_division_equations; lia).
  replace ((y + 400 * k - 1) / 400) with ((y - 1) / 400 + k)
    by (Z.to_euclidean_division_equations; lia).
  lia.
Qed.

Lemma ord2ymd_shift n k :
  ord2ymd (n + DI400Y * k)
  = ((ord2ymd n).1.1 + 400 * k, (ord2ymd n).1.2, (ord2ymd n).2).
Proof.
  unfold ord2ymd. cbv zeta.
  replace ((n + DI400Y * k - 1) / DI400Y) with ((n - 1) / DI400Y + k)
    by (unfold DI400Y; Z.to_euclidean_division_equations; lia).
  replace ((n + DI400Y * k - 1) mod DI400Y) with ((n - 1) mod DI400Y)
    by (unfold DI400Y; Z.to_euclidean_division_equations; lia).
  repeat match goal with |- context [if ?b then _ else _] => destruct b end;
    simpl; f_equal; f_equal; lia.
Qed.

(** The civil date of every ordinal is a date of the calendar, and it is
    the date that has this ordinal. *)
Lemma ord2ymd_correct n :
  let '(y, m, d) := ord2ymd n in
  ymd2ord y m d = n ∧ 1 ≤ m ≤ 12 ∧ 1 ≤ d ≤ days_in_month y m.
Proof.
  set (q := (n - 1) / DI400Y). set (r := (n - 1) mod DI400Y + 1).
  assert (n = r + DI400Y * q) as Hn
    by (unfold r, q, DI400Y; Z.to_euclidean_division_equations; lia).
  assert (1 ≤ r < 1 + Z.of_nat (Z.to_nat DI400Y)) as Hr
    by (unfold r, DI400Y; Z.to_euclidean_division_equations; lia).
  pose proof (civil_ok_from_spec _ _ civil_ok_cycle r Hr) as Hok.
  rewrite Hn, ord2ymd_shift. unfold civil_ok in Hok.
  destruct (ord2ymd r) as [[y m] d]. simpl.
  repeat (apply andb_true_iff in Hok as [Hok ?]).
  rewrite ymd2ord_shift, days_in_month_shift. lia.
Qed.

(** ** api.py: all-day events sent and read back *)

Lemma read_digit_digit_char d rest :
  read_digit (String (digit_char d) rest) = Some (d mod 10, rest).
Proof.
  unfold digit_char.
  assert (0 ≤ d mod 10 < 10) as H by (apply Z.mod_pos_bound; lia).
  generalize dependent (d mod 10). intros r Hr.
  assert (r = 0 ∨ r = 1 ∨ r = 2 ∨ r = 3 ∨ r = 4 ∨ r = 5 ∨ r = 6 ∨ r = 7 ∨ r = 8 ∨ r = 9)
    as Hcases by lia.
  repeat (destruct Hcases as [->|Hcases]; [reflexivity|]). by subst.
Qed.

Lemma parse_year_strftime_Y y rest :
  1000 ≤ y ≤ 9999 → parse_year (strftime_Y y +:+ rest) = Some (y, rest).
Proof.
  intros Hy. unfold strftime_Y.
  rewrite !(proj2 (Z.ltb_ge _ _)) by lia. unfold four_digits.
  change (parse_year (String (digit_char (y / 1000)) (String (digit_char (y / 100))
            (String (digit_char (y / 10)) (String (digit_char y) rest))))
          = Some (y, rest)).
  unfold parse_year. rewrite read_digit_digit_char. cbn [mbind option_bind].
  rewrite read_digit_digit_char. cbn [mbind option_bind].
  rewrite read_digit_digit_char. cbn [mbind option_bind].
  rewrite read_digit_digit_char. cbn [mbind option_bind]. do 2 f_equal.
  Z.to_euclidean_division_equations. lia.
Qed.

(** A date in fullwidth digits is read like the same date in ASCII. *)
Example strptime_ymd_fullwidth :
  strptime_ymd "２０２４-03-1５" = Ok (datetime_of 2024 3 15 0 0 0 0 None)
  ∧ strptime_ymd "2024-０3-15" = Raise (strptime_error "2024-０3-15").
Proof. split; vm_compute; reflexivity. Qed.

Lemma parse_month_dash_two_digits m rest :
  1 ≤ m ≤ 12 → parse_month_dash (two_digits m +:+ "-" +:+ rest) = Some (m, rest).
Proof.
  intros Hm.
  assert (m = 1 ∨ m = 2 ∨ m = 3 ∨ m = 4 ∨ m = 5 ∨ m = 6 ∨ m = 7 ∨ m = 8 ∨ m = 9
          ∨ m = 10 ∨ m = 11 ∨ m = 12) as Hcases by lia.
  repeat (destruct Hcases as [->|Hcases]; [reflexivity|]). by subst.
Qed.

Lemma parse_day_two_digits d :
  1 ≤ d ≤ 31 → parse_day (two_digits d) = Some (d, "").
Proof.
  intros Hd.
  assert (∃ k, (1 ≤ k < 32)%nat ∧ d = Z.of_nat k) as (k & Hk & ->)
    by (exists (Z.to_nat d); lia).
  clear Hd.
  do 32 (destruct k as [|k]; [first [reflexivity | lia]|]). lia.
Qed.

Lemma days_in_month_le_31 y m : days_in_month y m ≤ 31.
Proof. unfold days_in_month. repeat case_match; lia. Qed.

(** The date string of [%Y-%m-%d] is read back by [strptime] as the same
    date. *)
Lemma strptime_ymd_strftime_Ymd dt :
  1000 ≤ (ord2ymd (dt_date dt)).1.1 ≤ 9999 →
  strptime_ymd (strftime_Ymd dt) = Ok (mk_dt (dt_date dt * us_per_day) None).
Proof.
  intros Hy. unfold strftime_Ymd.
  pose proof (ord2ymd_correct (dt_date dt)) as Hc.
  destruct (ord2ymd (dt_date dt)) as [[y m] d]. simpl in Hy.
  destruct Hc as (Hord & Hm & Hd).
  pose proof (days_in_month_le_31 y m) as H31.
  unfold strptime_ymd.
  rewrite parse_year_strftime_Y by lia. cbn [mbind option_bind].
  change (expect_dash ("-" +:+ two_digits m +:+ "-" +:+ two_digits d))
    with (Some (two_digits m +:+ "-" +:+ two_digits d)).
  cbn [mbind option_bind].
  rewrite parse_month_dash_two_digits by lia. cbn [mbind option_bind].
  rewrite parse_day_two_digits by lia. cbn [mbind option_bind].
  rewrite String.eqb_refl. cbn [negb].
  rewrite (proj2 (Z.eqb_neq y 0)) by lia.
  rewrite (proj2 (Z.ltb_ge (days_in_month y m) d)) by lia.
  rewrite <- Hord. unfold datetime_of. do 2 f_equal. lia.
Qed.

(** X21.  The dates [add_event] sends for an all-day event are read back
    by [_parse_event_time] as all-day, at midnight of the same calendar
    dates in the target zone: of the start and end given to [add_event],
    only the dates survive, whatever their time of day and zone.  The years
    are those of four digits, which [%Y] prints alike on every platform. *)
Theorem X21_all_day_round_trip env title start end_ location description attendees :
  1000 ≤ (ord2ymd (dt_date start)).1.1 ≤ 9999 →
  1000 ≤ (ord2ymd (dt_date end_)).1.1 ≤ 9999 →
  let body := add_event_body title start end_ location description attendees true in
  _parse_event_time env (eb_start body)
  = Ok (mk_dt (dt_date start * us_per_day) (Some KST), true)
  ∧ _parse_event_time env (eb_end body)
    = Ok (mk_dt (dt_date end_ * us_per_day) (Some KST), true).
Proof.
  intros Hs He body. unfold body, add_event_body, _parse_event_time. simpl.
  by rewrite !strptime_ymd_strftime_Ymd by lia.
Qed.

Lemma X21_witness :
  let start := datetime_of 2024 3 1 15 30 0 0 (Some timezone_utc) in
  let end_ := datetime_of 2024 3 2 15 30 0 0 (Some timezone_utc) in
  let body := add_event_body "Trip" start end_ "" "" None true in
  1000 ≤ (ord2ymd (dt_date start)).1.1 ≤ 9999
  ∧ 1000 ≤ (ord2ymd (dt_date end_)).1.1 ≤ 9999
  ∧ _parse_event_time Demo.env (eb_start body)
    = Ok (mk_dt (dt_date start * us_per_day) (Some KST), true)
  ∧ _parse_event_time Demo.env (eb_end body)
    = Ok (mk_dt (dt_date end_ * us_per_day) (Some KST), true).
Proof.
  intros start end_ body.
  assert (1000 ≤ (ord2ymd (dt_date start)).1.1 ≤ 9999) as Hs by (by vm_compute).
  assert (1000 ≤ (ord2ymd (dt_date end_)).1.1 ≤ 9999) as He by (by vm_compute).
  split; [exact Hs|]. split; [exact He|].
  exact (X21_all_day_round_trip Demo.env "Trip" start end_ "" "" None Hs He).
Defined.

(** ** cli.py: the read commands *)

Lemma print_week_total env events weeks start_date monday_start st :
  ∃ tables st',
    print_week env events weeks start_date monday_start st = (Ok tables, st')
    ∧ length tables = Z.to_nat weeks.
Proof.
  unfold print_week.
  destruct (for_each_total
              (week_table env events
                 (align_week_start (default (env_today env) start_date) monday_start))
              (λ _ _, True)
              (λ w st0,
                 match week_table_rows env events _ w st0 with
                 | ex_intro _ tbl (ex_intro _ st1 (conj H _)) =>
                     ex_intro _ tbl (ex_intro _ st1 (conj H I))
                 end)
              (seq 0 (Z.to_nat weeks)) st)
    as (tables & st' & Hrun & HP).
  exists tables, st'. split; [done|].
  by rewrite <- (Forall2_length _ _ _ HP), length_seq.
Qed.

Lemma print_agenda_total events military st :
  ∃ lines st', print_agenda events military st = (Ok lines, st').
Proof.
  destruct events as [|e events]; [by eexists _, st|].
  destruct (print_agenda_sections (e :: events) military st) as (secs & st' & H & _);
    [done|].
  by eexists _, st'.
Qed.

Lemma calendar_row_total (cal : Calendar) st :
  ∃ row st',
    (color ← _get_account_color (cal_account_name cal);
     mret ["[" +:+ color +:+ "]" +:+ cal_account_name cal +:+ "[/" +:+ color +:+ "]";
           cal_access_role cal; cal_summary cal]) st = (Ok row, st')
    ∧ row !! 1%nat = Some (cal_access_role cal)
    ∧ row !! 2%nat = Some (cal_summary cal).
Proof.
  destruct (get_account_color_total (cal_account_name cal) st) as (c & st' & Hc).
  eexists _, st'. split; [by erewrite M_bind_Ok by exact Hc|]. done.
Qed.

Lemma print_calendars_total calendars st :
  ∃ rows st',
    print_calendars calendars st = (Ok rows, st')
    ∧ Forall2 (λ cal row, row !! 1%nat = Some (cal_access_role cal)
                          ∧ row !! 2%nat = Some (cal_summary cal)) calendars rows.
Proof.
  unfold print_calendars.
  destruct (for_each_total _ _ calendar_row_total calendars st)
    as (rows & st' & Hrun & HP).
  by exists rows, st'.
Qed.

Lemma list_all_calendars_total env accounts all_cals errors st :
  ∃ cals errs st',
    list_all_calendars env accounts all_cals errors st = (Ok (cals, errs), st')
    ∧ (length errs ≤ length errors + length accounts)%nat.
Proof.
  revert all_cals errors st.
  induction accounts as [|name rest IH]; intros all_cals errors st.
  - eexists _, _, st. split; [reflexivity|]. simpl. lia.
  - cbn [list_all_calendars]. unfold mbind at 1, M_bind at 1, try_.
    destruct (list_calendars env name st) as [[cals|e] st1].
    + destruct (IH (all_cals ++ cals) errors st1) as (cs & es & st' & H & Hl).
      exists cs, es, st'. split; [done|]. simpl. lia.
    + destruct (IH all_cals
                  (errors ++ ["[red]Error (" +:+ name +:+ "):[/red] " +:+ str_exn e])
                  st1) as (cs & es & st' & H & Hl).
      exists cs, es, st'. split; [done|]. rewrite length_app in Hl. simpl in *. lia.
Qed.

Lemma resolve_unknown env account :
  account ≠ "" → account ∉ env_list_account_names env →
  _resolve_accounts env (Some account) = inl (account_not_found account).
Proof.
  intros Hne Hin. unfold _resolve_accounts. destruct account as [|c s]; [done|].
  by rewrite bool_decide_eq_false_2.
Qed.

Lemma resolve_exit env account run :
  _resolve_accounts env account = inl run → run_exit run = 1.
Proof.
  unfold _resolve_accounts. destruct account as [[|c s]|]; try discriminate.
  case_bool_decide; [discriminate|]. by intros [= <-].
Qed.

(** X22.  A read command given an account that is not registered ends
    with exit status 1 after one error line; it builds no service and
    fetches nothing.  The command [week] computes the end of its window
    first: a week count that takes it out of the range of [datetime] ends
    the command with [OverflowError] before the account is looked at. *)
Theorem X22_unknown_account_exits env account weeks text calendar_filter st :
  account ≠ "" → account ∉ env_list_account_names env →
  (∃ st', cli_week env weeks (Some account) calendar_filter st
          = (Ok (match add_weeks (clock_utc env (st_ticks st)) weeks with
                 | Some _ => Ran (account_not_found account)
                 | None => UncaughtOverflowError
                 end), st')
          ∧ st_service_cache st' = st_service_cache st)
  ∧ cli_month env (Some account) calendar_filter st = (Ok (account_not_found account), st)
  ∧ cli_search env text (Some account) calendar_filter st
    = (Ok (account_not_found account), st)
  ∧ cli_list env (Some account) calendar_filter st = (Ok (account_not_found account), st).
Proof.
  intros Hne Hin. pose proof (resolve_unknown env account Hne Hin) as Hr.
  split; [|split; [|split]].
  - unfold cli_week, mbind, M_bind, now_utc, clock_utc. cbv beta iota.
    destruct (add_weeks _ weeks); [rewrite Hr|]; by eexists.
  - unfold cli_month. destruct (ord2ymd (env_today env)) as [[y m] d]. by rewrite Hr.
  - unfold cli_search. by rewrite Hr.
  - unfold cli_list. by rewrite Hr.
Qed.

Lemma X22_witness :
  "guest" ≠ "" ∧ ("guest" ∉ env_list_account_names Demo.env)
  ∧ (∃ st', cli_week Demo.env 1 (Some "guest") [] initial_state
            = (Ok (match add_weeks (clock_utc Demo.env (st_ticks initial_state)) 1 with
                   | Some _ => Ran (account_not_found "guest")
                   | None => UncaughtOverflowError
                   end), st')
            ∧ st_service_cache st' = st_service_cache initial_state)
  ∧ cli_month Demo.env (Some "guest") [] initial_state
    = (Ok (account_not_found "guest"), initial_state)
  ∧ cli_search Demo.env "x" (Some "guest") [] initial_state
    = (Ok (account_not_found "guest"), initial_state)
  ∧ cli_list Demo.env (Some "guest") [] initial_state
    = (Ok (account_not_found "guest"), initial_state).
Proof.
  assert ("guest" ≠ "") as Hne by discriminate.
  assert ("guest" ∉ env_list_account_names Demo.env) as Hin.
  { intros H. repeat (apply elem_of_cons in H as [H|H]; [discriminate H|]).
    by apply elem_of_nil in H. }
  split; [exact Hne|]. split; [exact Hin|].
  exact (X22_unknown_account_exits Demo.env "guest" 1 "x" [] initial_state Hne Hin).
Defined.

(** X23.  The read commands [week], [month], [search] and [list] run to
    their console output whatever the credentials and the remote service
    do: no exception of the fetch escapes them.  The one exception [week]
    lets through is the [OverflowError] of a week count out of range;
    otherwise it exits with status 1 or prints exactly [weeks] tables.
    [list] ends with the table of calendars after at most one error line
    per account. *)
Theorem X23_read_commands_complete env weeks text account calendar_filter st :
  (∃ ended st',
     cli_week env weeks account calendar_filter st = (Ok ended, st')
     ∧ match ended with
       | UncaughtOverflowError => add_weeks (clock_utc env (st_ticks st)) weeks = None
       | Ran run =>
           run_exit run = 1
           ∨ ∃ tables, run = mk_Run [WeekView tables] 0
                       ∧ length tables = Z.to_nat weeks
       end)
  ∧ (∃ run st', cli_month env account calendar_filter st = (Ok run, st'))
  ∧ (∃ run st', cli_search env text account calendar_filter st = (Ok run, st'))
  ∧ (∃ run st',
       cli_list env account calendar_filter st = (Ok run, st')
       ∧ (run_exit run = 1
          ∨ ∃ errs rows accounts,
              _resolve_accounts env account = inr accounts
              ∧ run = mk_Run (map Printed errs ++ [CalendarsTable rows]) 0
              ∧ (length errs ≤ length accounts)%nat)).
Proof.
  split; [|split; [|split]].
  - unfold cli_week, mbind at 1, M_bind at 1, now_utc, clock_utc.
    set (now := mk_dt (env_clock env (st_ticks st)) (Some timezone_utc)).
    destruct (add_weeks now weeks) as [time_max|] eqn:Ha; [|by eexists UncaughtOverflowError, _].
    destruct (_resolve_accounts env account) as [run|accounts] eqn:Hr.
    + eexists (Ran run), _. split; [reflexivity|]. left. by eapply resolve_exit.
    + destruct (get_all_events_total env (Some accounts) (Some now)
                  (Some time_max) None
                  (cal_filter_of calendar_filter)
                  (mk_State (st_service_cache st) (st_color_map st) (S (st_ticks st))))
        as (evs & st1 & Hev).
      destruct (print_week_total env evs weeks None true st1) as (tables & st2 & Hw & Hl).
      eexists (Ran _), st2. split.
      * erewrite M_bind_Ok by exact Hev. by erewrite M_bind_Ok by exact Hw.
      * right. by exists tables.
  - unfold cli_month. destruct (ord2ymd (env_today env)) as [[y m] d].
    destruct (_resolve_accounts env account) as [run|accounts]; [by eexists _, _|].
    destruct (get_all_events_total env (Some accounts)
                (Some (datetime_of y m 1 0 0 0 0 (Some timezone_utc)))
                (Some (datetime_of y m (monthrange y m).2 23 59 59 0 (Some timezone_utc)))
                None (cal_filter_of calendar_filter) st) as (evs & st1 & Hev).
    destruct (print_month_cells env evs None true st1) as (view & st2 & Hm & _).
    eexists _, st2. erewrite M_bind_Ok by exact Hev. by erewrite M_bind_Ok by exact Hm.
  - unfold cli_search.
    destruct (_resolve_accounts env account) as [run|accounts]; [by eexists _, _|].
    assert (∃ evs st1, search_events env text (Some accounts) None None
                         (cal_filter_of calendar_filter) st = (Ok evs, st1))
      as (evs & st1 & Hev).
    { unfold search_events, mbind, M_bind, now_utc, mret, M_ret.
      apply get_all_events_total. }
    erewrite M_bind_Ok by exact Hev. destruct evs as [|e evs]; [by eexists _, _|].
    destruct (print_agenda_total (e :: evs) true st1) as (lines & st2 & Hl).
    eexists _, st2. by erewrite M_bind_Ok by exact Hl.
  - unfold cli_list.
    destruct (_resolve_accounts env account) as [run|accounts] eqn:Hr.
    + eexists run, st. split; [done|]. left. by eapply resolve_exit.
    + destruct (list_all_calendars_total env accounts [] [] st)
        as (cals & errs & st1 & Hl & Hlen).
      erewrite M_bind_Ok by exact Hl. cbv beta iota zeta.
      match goal with
      | |- context [print_calendars ?c] =>
          destruct (print_calendars_total c st1) as (rows & st2 & Hp & _)
      end.
      eexists _, st2. split; [by erewrite M_bind_Ok by exact Hp|].
      right. exists errs, rows, accounts. by repeat split.
Qed.

(** ** models.py *)

(** X24.  An event whose start and end are in the same zone and which is
    not multi-day lasts less than a day: its [duration_minutes] is between
    0 and 1439. *)
Theorem X24_single_day_duration (e : Event) :
  dt_tzinfo (ev_start e) = dt_tzinfo (ev_end e) →
  dt_wall (ev_start e) ≤ dt_wall (ev_end e) →
  is_multiday e = false →
  ∃ m, duration_minutes e = Ok m ∧ 0 ≤ m < 1440.
Proof.
  intros Htz Hle Hmd. unfold is_multiday in Hmd.
  apply negb_false_iff, Z.eqb_eq in Hmd. unfold dt_date in Hmd.
  exists ((dt_wall (ev_end e) - dt_wall (ev_start e)) / us_per_minute).
  assert (0 < us_per_minute) as Hpos by reflexivity.
  assert (utc_instant (ev_end e) - utc_instant (ev_start e)
          = dt_wall (ev_end e) - dt_wall (ev_start e)) as Hdelta.
  { unfold utc_instant. rewrite Htz. lia. }
  assert (0 ≤ dt_wall (ev_end e) - dt_wall (ev_start e) < us_per_day) as Hday.
  { unfold us_per_day, us_per_hour, us_per_minute, us_per_second in *.
    Z.to_euclidean_division_equations. lia. }
  split.
  - rewrite <- Hdelta. apply duration_minutes_exact.
    + unfold is_aware. by rewrite Htz.
    + rewrite Hdelta. unfold us_per_day, us_per_hour, us_per_minute, us_per_second in *.
      lia.
  - unfold us_per_day, us_per_hour, us_per_minute, us_per_second in *.
    Z.to_euclidean_division_equations. lia.
Qed.

Lemma X24_witness :
  dt_tzinfo (ev_start Demo.standup_event) = dt_tzinfo (ev_end Demo.standup_event)
  ∧ dt_wall (ev_start Demo.standup_event) ≤ dt_wall (ev_end Demo.standup_event)
  ∧ is_multiday Demo.standup_event = false
  ∧ ∃ m, duration_minutes Demo.standup_event = Ok m ∧ 0 ≤ m < 1440.
Proof.
  assert (dt_wall (ev_start Demo.standup_event) ≤ dt_wall (ev_end Demo.standup_event))
    as Hle by (by vm_compute).
  split; [reflexivity|]. split; [exact Hle|]. split; [reflexivity|].
  exact (X24_single_day_duration Demo.standup_event eq_refl Hle eq_refl).
Defined.

(** ** api.py: what [get_events] keeps *)

Lemma event_of_item_id env account_name calendar_id cal_name item o :
  event_of_item env account_name calendar_id cal_name item = Ok o →
  match o with
  | None => ei_status item = Some "cancelled"
  | Some e => ei_status item ≠ Some "cancelled" ∧ ei_id item = Some (ev_id e)
  end.
Proof.
  unfold event_of_item. intros H.
  destruct (bool_decide (ei_status item = Some "cancelled")) eqn:Hs.
  - apply bool_decide_eq_true in Hs. by injection H as <-.
  - apply bool_decide_eq_false in Hs.
    inv_bind H. destruct a as [start_time all_day].
    inv_bind H. destruct a as [end_time ?].
    inv_bind H. injection H as <-. split; [done|].
    simpl. by destruct (ei_id item); [injection Hr1 as ->|].
Qed.

(** X25.  When the event listing of a calendar succeeds, it holds one
    event for every item of the pages that is not cancelled, with the
    item's id and in the order of the service; cancelled items, and only
    they, are left out. *)
Theorem X25_events_are_the_live_items env account_name calendar_id cal_name
    (p : Paged EventItem) items l :
  page_items p = Ok items →
  paginate (event_of_item env account_name calendar_id cal_name) p = Ok l →
  map (λ e, Some (ev_id e)) l
  = map ei_id (filter (λ it, ei_status it ≠ Some "cancelled") items).
Proof.
  intros Hp. rewrite (paginate_flat _ _ _ Hp). clear Hp p.
  revert l. induction items as [|it items IH]; simpl; intros l H.
  - by injection H as <-.
  - inv_bind H. inv_bind H. injection H as <-.
    apply event_of_item_id in Hr. rewrite filter_cons.
    destruct a as [e|].
    + destruct Hr as [Hs Hid]. rewrite decide_True by done. simpl.
      by rewrite Hid, (IH _ Hr0).
    + rewrite decide_False by (by intros Hn). by apply IH.
Qed.

Lemma X25_witness :
  let cancelled :=
    mk_EventItem (Some "w0") None None None None None None None None None
      (Some "cancelled") in
  let p := MorePage [cancelled; Demo.standup] "t1" (LastPage [Demo.holiday]) in
  page_items p = Ok [cancelled; Demo.standup; Demo.holiday]
  ∧ map (λ e, Some (ev_id e))
      [Demo.standup_event;
       mk_Event "h1" "Holiday" (datetime_of 2024 3 1 0 0 0 0 (Some KST))
         (datetime_of 2024 3 2 0 0 0 0 (Some KST)) "work" "team" "Work Team"
         "" "" true "" "" [] "" "confirmed"]
    = map ei_id (filter (λ it, ei_status it ≠ Some "cancelled")
                   [cancelled; Demo.standup; Demo.holiday]).
Proof.
  intros cancelled p. split; [reflexivity|].
  exact (X25_events_are_the_live_items Demo.env "work" "team" "Work Team" p _ _
           eq_refl eq_refl).
Defined.

(** ** api.py: the write operations *)

Lemma get_service_no_credentials env account_name st :
  load_credentials env account_name = Ok None →
  st_service_cache st !! account_name = None →
  get_service env account_name st
  = (Raise (ValueError (no_credentials_message account_name)), st).
Proof.
  intros Hl Hc. unfold get_service, mbind, M_bind, get_state, lift, raise.
  by rewrite Hc, Hl.
Qed.

(** X26.  A write operation on an account that has no stored credentials
    (and no cached service) raises the [ValueError] that tells the user to
    run [mcli account add]; it does so before any request is made, whatever
    the remote service would answer, and the state is left as it was. *)
Theorem X26_write_without_credentials env api account_name st :
  load_credentials env account_name = Ok None →
  st_service_cache st !! account_name = None →
  (∀ text calendar_id,
     quick_add env api account_name text calendar_id st
     = (Raise (ValueError (no_credentials_message account_name)), st))
  ∧ (∀ title start end_ calendar_id location description attendees all_day,
       add_event env api account_name title start end_ calendar_id location
         description attendees all_day st
       = (Raise (ValueError (no_credentials_message account_name)), st))
  ∧ (∀ event_id calendar_id,
       delete_event env api account_name event_id calendar_id st
       = (Raise (ValueError (no_credentials_message account_name)), st)).
Proof.
  intros Hl Hc.
  pose proof (get_service_no_credentials env account_name st Hl Hc) as Hs.
  split; [|split]; intros.
  - unfold quick_add. by apply M_bind_Raise.
  - unfold add_event. by apply M_bind_Raise.
  - unfold delete_event. by apply M_bind_Raise.
Qed.

Lemma X26_witness :
  load_credentials Demo.env "guest" = Ok None
  ∧ st_service_cache initial_state !! "guest" = None
  ∧ (∀ text calendar_id,
       quick_add Demo.env demo_write_api "guest" text calendar_id initial_state
       = (Raise (ValueError (no_credentials_message "guest")), initial_state))
  ∧ (∀ title start end_ calendar_id location description attendees all_day,
       add_event Demo.env demo_write_api "guest" title start end_ calendar_id location
         description attendees all_day initial_state
       = (Raise (ValueError (no_credentials_message "guest")), initial_state))
  ∧ (∀ event_id calendar_id,
       delete_event Demo.env demo_write_api "guest" event_id calendar_id initial_state
       = (Raise (ValueError (no_credentials_message "guest")), initial_state)).
Proof.
  split; [reflexivity|]. split; [reflexivity|].
  exact (X26_write_without_credentials Demo.env demo_write_api "guest" initial_state
           eq_refl eq_refl).
Defined.

Lemma parse_event_time_all_day env time_obj dt all_day :
  _parse_event_time env time_obj = Ok (dt, all_day) →
  all_day = true ↔ is_Some (to_date time_obj).
Proof.
  unfold _parse_event_time. destruct (to_date time_obj) as [s|]; intros H.
  - inv_bind H. injection H as _ <-. by split.
  - inv_bind H. inv_bind H. inv_bind H. injection H as _ <-.
    split; [done|]. by intros [? ?].
Qed.

(** X27.  The event [quick_add] returns stands for the item the service
    created: it has the item's id, the item's summary (the text given when
    the item has none), start and end in the target zone, and the account
    and calendar of the call; it is all-day exactly when the start of the
    item is a bare date.  The service of the account is cached. *)
Theorem X27_quick_add_event env api account_name text calendar_id st e st1 :
  quick_add env api account_name text calendar_id st = (Ok e, st1) →
  ∃ service item,
    st_service_cache st1 !! account_name = Some service
    ∧ api_quickAdd api service calendar_id text = Ok item
    ∧ ei_id item = Some (ev_id e)
    ∧ ev_summary e = default text (ei_summary item)
    ∧ ev_account_name e = account_name
    ∧ ev_calendar_id e = calendar_id
    ∧ dt_tzinfo (ev_start e) = Some KST
    ∧ dt_tzinfo (ev_end e) = Some KST
    ∧ (ev_all_day e = true
       ↔ is_Some (to_date (default empty_time_obj (ei_start item)))).
Proof.
  unfold quick_add. intros H. inv_bind H. inv_bind H.
  apply lift_inv_Ok in Hm0 as [Hq ->].
  apply get_service_inv in Hm as (Hc & _).
  inv_bind H. apply lift_inv_Ok in Hm as [Hs ->]. destruct a1 as [start_time all_day].
  inv_bind H. apply lift_inv_Ok in Hm as [He ->]. destruct a1 as [end_time all_day'].
  inv_bind H. apply lift_inv_Ok in Hm as [Hid ->].
  injection H as <- <-. exists a, a0. simpl.
  split; [done|]. split; [done|].
  split; [by destruct (ei_id a0); [injection Hid as ->|]|].
  split; [done|]. split; [done|]. split; [done|].
  split; [by eapply parse_event_time_aware|].
  split; [by eapply parse_event_time_aware|].
  by eapply parse_event_time_all_day.
Qed.

Lemma X27_witness :
  ∃ e st1,
    quick_add Demo.env demo_write_api "home" "Holiday tomorrow" "primary" initial_state
    = (Ok e, st1)
    ∧ ∃ service item,
        st_service_cache st1 !! "home" = Some service
        ∧ api_quickAdd demo_write_api service "primary" "Holiday tomorrow" = Ok item
        ∧ ei_id item = Some (ev_id e)
        ∧ ev_summary e = default "Holiday tomorrow" (ei_summary item)
        ∧ ev_account_name e = "home"
        ∧ ev_calendar_id e = "primary"
        ∧ dt_tzinfo (ev_start e) = Some KST
        ∧ dt_tzinfo (ev_end e) = Some KST
        ∧ (ev_all_day e = true
           ↔ is_Some (to_date (default empty_time_obj (ei_start item)))).
Proof.
  eexists _, _. split; [vm_compute; reflexivity|].
  exact (X27_quick_add_event Demo.env demo_write_api "home" "Holiday tomorrow" "primary"
           initial_state _ _ eq_refl).
Defined.

(** ** accounts.py *)

Lemma elem_of_list_account_names d x :
  x ∈ list_account_names d ↔ disk_accounts d !! x = Some true.
Proof.
  unfold list_account_names. rewrite merge_sort_Permutation, list_elem_of_fmap. split.
  - intros [[k v] [-> H]]. apply list_elem_of_filter in H as [Hv H].
    apply elem_of_map_to_list in H. simpl in *. by subst.
  - intros H. exists (x, true). split; [done|]. apply list_elem_of_filter.
    split; [done|]. by apply elem_of_map_to_list.
Qed.

Lemma list_account_names_NoDup d : NoDup (list_account_names d).
Proof.
  unfold list_account_names. rewrite merge_sort_Permutation.
  eapply NoDup_fmap_fst.
  - intros k v1 v2 H1 H2. apply list_elem_of_filter in H1 as [_ H1].
    apply list_elem_of_filter in H2 as [_ H2].
    apply elem_of_map_to_list in H1, H2. congruence.
  - apply NoDup_filter, NoDup_map_to_list.
Qed.

Lemma token_exists_spec d name :
  token_exists d name = bool_decide (name ∈ list_account_names d).
Proof.
  unfold token_exists. apply bool_decide_ext. by rewrite elem_of_list_account_names.
Qed.

Lemma head_list_account_names d x :
  head (list_account_names d) = Some x → x ∈ list_account_names d.
Proof. destruct (list_account_names d); [done|]. intros [= ->]. by left. Qed.

Lemma load_config_spec d :
  ∃ cfg,
    load_config d = (Returned cfg, mk_Disk (disk_accounts d) (Some cfg))
    ∧ mjoin (cfg_default_account cfg) = default_account_of d
    ∧ (∀ c, disk_config d = Some c → cfg = c).
Proof.
  unfold load_config, default_account_of. destruct d as [accounts [cfg|]]; simpl.
  - exists cfg. split; [done|]. split; [done|]. by intros c [= ->].
  - exists DEFAULT_CONFIG. by split.
Qed.

Lemma list_account_names_config accounts config config' :
  list_account_names (mk_Disk accounts config)
  = list_account_names (mk_Disk accounts config').
Proof. done. Qed.

(** X28.  [remove_account] refuses a name that is not registered and
    leaves the disk as it was.  When it returns, the account was registered
    and is registered no more, every other account still is, and the
    default account is never left pointing at the removed one: a default
    that was the removed account becomes the first of the remaining
    accounts (none when no account remains); any other default is kept. *)
Theorem X28_remove_account env name d r d' :
  remove_account env name d = (r, d') →
  (name ∉ list_account_names d → r = Raised (Exn (not_found name)) ∧ d' = d)
  ∧ (r = Returned tt →
     name ∈ list_account_names d
     ∧ (∀ x, x ∈ list_account_names d' ↔ x ∈ list_account_names d ∧ x ≠ name)
     ∧ default_account_of d' ≠ Some name
     ∧ default_account_of d'
       = if bool_decide (default_account_of d = Some name)
         then head (list_account_names d')
         else default_account_of d).
Proof.
  unfold remove_account, mbind at 1, D_bind at 1, disk_gets.
  case_bool_decide as Hin.
  2:{ intros [= <- <-]. split; [done|]. discriminate. }
  intros H. split; [done|]. intros ->. split; [done|].
  revert H. unfold remove_credentials, mbind, D_bind, acc_lift, disk_modify.
  destruct (get_account_dir env name) as [dir|e]; [|discriminate].
  set (d1 := mk_Disk (delete name (disk_accounts d)) (disk_config d)).
  assert (∀ x, x ∈ list_account_names d1 ↔ x ∈ list_account_names d ∧ x ≠ name) as Hl.
  { intros x. rewrite !elem_of_list_account_names. unfold d1. simpl.
    rewrite lookup_delete_Some. split; intros [H1 H2]; split; congruence. }
  assert (name ∉ list_account_names d1) as Hout by (rewrite Hl; by intros [_ ?]).
  assert (default_account_of d1 = default_account_of d) as Hd1 by done.
  destruct (load_config_spec d1) as (cfg & -> & Hj & _).
  rewrite Hd1 in Hj.
  destruct (cfg_default_account cfg) as [da|] eqn:Ed; simpl; [|discriminate].
  simpl in Hj. subst da.
  case_bool_decide as Hd; simpl.
  - unfold save_config, disk_modify. simpl. intros [= <-].
    split; [exact Hl|]. unfold default_account_of at 1 2. simpl.
    split; [|done]. intros Hh. by apply head_list_account_names in Hh.
  - unfold mret, D_ret. intros [= <-].
    split; [exact Hl|]. unfold default_account_of at 1 2. simpl. rewrite Ed. simpl.
    split; [done|done].
Qed.

Lemma X28_witness :
  ∃ d',
    remove_account Demo.env "home" demo_disk = (Returned tt, d')
    ∧ "home" ∈ list_account_names demo_disk
    ∧ (∀ x, x ∈ list_account_names d' ↔ x ∈ list_account_names demo_disk ∧ x ≠ "home")
    ∧ default_account_of d' ≠ Some "home"
    ∧ default_account_of d'
      = if bool_decide (default_account_of demo_disk = Some "home")
        then head (list_account_names d')
        else default_account_of demo_disk.
Proof.
  eexists. split; [vm_compute; reflexivity|].
  exact (proj2 (X28_remove_account Demo.env "home" demo_disk _ _ eq_refl) eq_refl).
Defined.

Lemma add_account_cases env oauth name d r d' :
  add_account env oauth name d = (r, d') →
  (d' = d ∧ (∃ e, r = Raised e)
   ∧ (name ∈ list_account_names d → ∃ msg, r = Raised (Exn (ValueError msg))))
  ∨ ((name ∉ list_account_names d)
     ∧ disk_accounts d' = <[name := true]> (disk_accounts d)
     ∧ ((∃ e, r = Raised e) ∧ disk_config d' = disk_config d
        ∨ (∃ email, r = Returned email)
          ∧ default_account_of d' = Some (default name (default_account_of d)))).
Proof.
  unfold add_account, mbind at 1, D_bind at 1, acc_lift.
  destruct (get_account_dir env name) as [dir|e] eqn:Eg.
  2:{ intros [= <- <-]. left. split; [done|]. split; [by eexists|].
      intros _. unfold get_account_dir in Eg.
      destruct (validate_account_name name) as [?|e0] eqn:Ev; simpl in Eg.
      - destruct (negb _); [|discriminate]. injection Eg as <-. by eexists.
      - injection Eg as <-. unfold validate_account_name in Ev.
        destruct (negb _); [|discriminate]. injection Ev as <-. by eexists. }
  unfold mbind at 1, D_bind at 1, disk_gets. rewrite token_exists_spec.
  case_bool_decide as Hin.
  { intros [= <- <-]. left. split; [done|]. split; by eexists. }
  unfold mbind at 1, D_bind at 1, authenticate.
  unfold mbind at 1, D_bind at 1, acc_lift.
  destruct (get_client_secret env oauth name) as [[[|m ms]|]|e].
  - rewrite Eg. unfold mbind, D_bind, acc_raise. intros [= <- <-].
    left. split; [done|]. split; [by eexists|done].
  - unfold mbind at 1, D_bind at 1.
    destruct (oauth_run_flow oauth (m :: ms)) as [creds|e].
    2:{ intros [= <- <-]. left. split; [done|]. split; [by eexists|done]. }
    unfold save_credentials, _token_path.
    unfold mbind at 1 2, D_bind at 1 2, acc_lift. rewrite Eg. simpl.
    unfold disk_modify, mret at 1, D_ret at 1.
    set (d1 := mk_Disk (<[name := true]> (disk_accounts d)) (disk_config d)).
    intros H. right. split; [done|]. revert H.
    unfold mbind at 1, D_bind at 1.
    destruct (env_build env creds) as [service|e].
    2:{ intros [= <- <-]. split; [done|]. left. split; [by eexists|done]. }
    unfold mbind at 1, D_bind at 1.
    destruct (svc_calendars_get service "primary") as [calendar|e].
    2:{ intros [= <- <-]. split; [done|]. left. split; [by eexists|done]. }
    cbv zeta. unfold mbind at 1, D_bind at 1.
    destruct (load_config_spec d1) as (cfg & Hload & Hj & Hc). rewrite Hload.
    unfold mbind at 1, D_bind at 1, acc_lift.
    destruct (cfg_default_account cfg) as [[a|]|] eqn:Ed; simpl.
    + intros [= <- <-]. simpl. split; [done|]. right. split; [by eexists|].
      unfold default_account_of at 1. simpl. rewrite Ed. simpl.
      change (default_account_of d) with (default_account_of d1). by rewrite <-Hj.
    + unfold save_config, mbind, D_bind, disk_modify. intros [= <- <-]. simpl.
      split; [done|]. right. split; [by eexists|].
      unfold default_account_of at 1. simpl.
      change (default_account_of d) with (default_account_of d1). by rewrite <-Hj.
    + intros [= <- <-]. simpl. split; [done|]. left. split; [by eexists|].
      destruct (disk_config d) as [c|] eqn:Ec.
      * by rewrite (Hc c eq_refl).
      * unfold load_config in Hload. simpl in Hload.
        injection Hload as <-. discriminate Ed.
  - rewrite Eg. unfold mbind, D_bind, acc_raise. intros [= <- <-].
    left. split; [done|]. split; [by eexists|done].
  - intros [= <- <-]. left. split; [done|]. split; [by eexists|done].
Qed.

(** X29.  [add_account] refuses a name that is already registered with a
    [ValueError], before the OAuth flow is started and without touching the
    disk.  Whatever happens, the other accounts stay as they were.  When it
    returns, the account is newly registered, and it has become the default
    account exactly when none was recorded.  When it raises, the disk is
    as before, or the token of the new account has been saved and nothing
    else: a failure after the flow leaves the account registered. *)
Theorem X29_add_account env oauth name d r d' :
  add_account env oauth name d = (r, d') →
  (name ∈ list_account_names d → d' = d ∧ ∃ msg, r = Raised (Exn (ValueError msg)))
  ∧ (∀ x, x ≠ name → x ∈ list_account_names d' ↔ x ∈ list_account_names d)
  ∧ (∀ email, r = Returned email →
       (name ∉ list_account_names d) ∧ name ∈ list_account_names d'
       ∧ default_account_of d' = Some (default name (default_account_of d)))
  ∧ (∀ e, r = Raised e →
       d' = d
       ∨ (name ∉ list_account_names d) ∧ name ∈ list_account_names d'
         ∧ disk_config d' = disk_config d).
Proof.
  intros H. apply add_account_cases in H as [(-> & [e ->] & Hin)|(Hout & Ha & H)].
  - split; [by intros ?; split; [|apply Hin]|]. split; [done|].
    split; [discriminate|]. intros _ _. by left.
  - assert (name ∈ list_account_names d') as Hnew.
    { apply elem_of_list_account_names. rewrite Ha. apply lookup_insert_eq. }
    split; [done|]. split.
    { intros x Hx. rewrite !elem_of_list_account_names, Ha.
      by rewrite lookup_insert_ne. }
    destruct H as [([e ->] & Hc)|([email ->] & Hd)].
    + split; [discriminate|]. intros _ _. by right.
    + split; [done|]. discriminate.
Qed.

Lemma X29_witness :
  ∃ d',
    add_account Demo.env demo_oauth "lab" demo_disk = (Returned "primary", d')
    ∧ ("lab" ∉ list_account_names demo_disk)
    ∧ "lab" ∈ list_account_names d'
    ∧ default_account_of d' = Some (default "lab" (default_account_of demo_disk)).
Proof.
  eexists. split; [vm_compute; reflexivity|].
  exact (proj1 (proj2 (proj2 (X29_add_account Demo.env demo_oauth "lab" demo_disk _ _
                                eq_refl)))
           "primary" eq_refl).
Defined.

(** The failure after the flow happens: the service built for the new
    credentials has no primary calendar, [add_account] raises, and the
    account is registered all the same. *)
Example add_account_late_failure :
  let oauth := mk_OAuth (λ _, None) (Some [("installed", "...")]) (λ _, Ok "token-work") in
  ∃ d',
    add_account Demo.env oauth "lab" demo_disk
    = (Raised (Exn (RemoteError "404 Not Found")), d')
    ∧ list_account_names d' = ["home"; "lab"; "work"]
    ∧ add_account Demo.env oauth "lab" d' = (Raised (Exn (already_exists "lab")), d').
Proof. eexists. split; [vm_compute; reflexivity|]. by vm_compute. Qed.

Lemma remove_account_default_registered env name d :
  default_registered d → default_registered (remove_account env name d).2.
Proof.
  intros Hinv.
  unfold remove_account, mbind at 1, D_bind at 1, disk_gets.
  case_bool_decide as Hin; [|done].
  unfold remove_credentials, mbind, D_bind, acc_lift, disk_modify.
  destruct (get_account_dir env name) as [dir|e]; [|done].
  set (d1 := mk_Disk (delete name (disk_accounts d)) (disk_config d)).
  assert (∀ x, x ∈ list_account_names d1 ↔ x ∈ list_account_names d ∧ x ≠ name) as Hl.
  { intros x. rewrite !elem_of_list_account_names. unfold d1. simpl.
    rewrite lookup_delete_Some. split; intros [H1 H2]; split; congruence. }
  assert (default_account_of d1 = default_account_of d) as Hd1 by done.
  destruct (load_config_spec d1) as (cfg & -> & Hj & _). rewrite Hd1 in Hj.
  destruct (cfg_default_account cfg) as [da|] eqn:Ed; simpl.
  2:{ intros a. unfold default_account_of. simpl. by rewrite Ed. }
  simpl in Hj. subst da. case_bool_decide as Hd.
  - unfold save_config, disk_modify. simpl.
    intros a. unfold default_account_of. simpl. apply head_list_account_names.
  - unfold mret, D_ret. simpl. intros a. unfold default_account_of at 1. simpl.
    rewrite Ed. simpl. intros Ha.
    change (list_account_names _) with (list_account_names d1).
    apply Hl. split; [by apply Hinv|]. congruence.
Qed.

Lemma add_account_default_registered env oauth name d :
  default_registered d → default_registered (add_account env oauth name d).2.
Proof.
  intros Hinv. destruct (add_account env oauth name d) as [r d'] eqn:H. simpl.
  apply add_account_cases in H as [(-> & _)|(Hout & Ha & H)]; [done|].
  assert (∀ x, x ∈ list_account_names d → x ∈ list_account_names d') as Hmono.
  { intros x. rewrite !elem_of_list_account_names, Ha. intros Hx.
    destruct (decide (name = x)) as [->|Hne]; [apply lookup_insert_eq|].
    by rewrite lookup_insert_ne. }
  assert (name ∈ list_account_names d') as Hnew.
  { apply elem_of_list_account_names. rewrite Ha. apply lookup_insert_eq. }
  intros a Hda. destruct H as [(_ & Hc)|(_ & Hd)].
  - apply Hmono, Hinv. revert Hda. unfold default_account_of. by rewrite Hc.
  - rewrite Hd in Hda. injection Hda as <-.
    destruct (default_account_of d) as [b|] eqn:Eb; simpl; [|done].
    by apply Hmono, Hinv.
Qed.

Lemma filter_default_mark (names : list string) a :
  NoDup names → a ∈ names →
  filter (λ p : string * bool, p.2 = true)
    (map (λ name, (name, bool_decide (Some name = Some a))) names)
  = [(a, true)].
Proof.
  induction 1 as [|x l Hx Hl IH]; [by intros ?%elem_of_nil|].
  intros Ha. simpl. rewrite filter_cons. simpl.
  destruct (decide (x = a)) as [->|Hne].
  - rewrite bool_decide_eq_true_2 by done. rewrite decide_True by done. f_equal.
    clear IH Ha Hl. induction l as [|y l IH]; [done|]. simpl. rewrite filter_cons. simpl.
    apply not_elem_of_cons in Hx as [Hy Hx].
    rewrite bool_decide_eq_false_2 by congruence. rewrite decide_False by done. by apply IH.
  - rewrite bool_decide_eq_false_2 by congruence. rewrite decide_False by done.
    apply IH. by apply elem_of_cons in Ha as [->|Ha].
Qed.

(** X30.  The default account recorded in [config.json], when there is
    one, is a registered account: [add_account] and [remove_account] keep
    this, however they end.  Under it [list_accounts] lists the registered
    accounts in order and marks exactly one of them, the default, when a
    default is recorded. *)
Theorem X30_default_account_registered env oauth name d :
  default_registered d →
  default_registered (add_account env oauth name d).2
  ∧ default_registered (remove_account env name d).2
  ∧ ∃ accounts d1,
      list_accounts d = (Returned accounts, d1)
      ∧ default_registered d1
      ∧ map fst accounts = list_account_names d
      ∧ ∀ a, default_account_of d = Some a →
             filter (λ p : string * bool, p.2 = true) accounts = [(a, true)].
Proof.
  intros Hinv. split; [by apply add_account_default_registered|].
  split; [by apply remove_account_default_registered|].
  unfold list_accounts, mbind, D_bind, disk_gets.
  destruct (load_config_spec d) as (cfg & -> & Hj & _).
  eexists _, _. split; [reflexivity|]. split; [|split].
  - intros a. unfold default_account_of at 1. simpl. rewrite Hj. apply Hinv.
  - rewrite map_map. simpl. apply map_id.
  - intros a Ha. rewrite Hj, Ha.
    apply filter_default_mark; [apply list_account_names_NoDup|by apply Hinv].
Qed.

Lemma X30_witness :
  default_registered demo_disk
  ∧ default_registered (add_account Demo.env demo_oauth "home" demo_disk).2
  ∧ default_registered (remove_account Demo.env "home" demo_disk).2
  ∧ ∃ accounts d1,
      list_accounts demo_disk = (Returned accounts, d1)
      ∧ default_registered d1
      ∧ map fst accounts = list_account_names demo_disk
      ∧ ∀ a, default_account_of demo_disk = Some a →
             filter (λ p : string * bool, p.2 = true) accounts = [(a, true)].
Proof.
  assert (default_registered demo_disk) as Hinv.
  { intros a [= <-]. by vm_compute; left. }
  split; [exact Hinv|].
  exact (X30_default_account_registered Demo.env demo_oauth "home" demo_disk Hinv).
Defined.
